(** * movie_toolkit: interval-based frame extraction

    A shallow embedding of [movie_toolkit.py].  Python [float]s are IEEE-754
    binary64 numbers and are embedded as Rocq's primitive floats, so that
    every rounding of the program is the rounding of the model; Python
    [int]s are [Z]; exceptions are an error result. *)

From Stdlib Require Import ZArith List String Ascii Bool Lia Floats.
From Stdlib Require Import DecimalString Decimal DecimalN Sorted.
Import ListNotations.

Local Open Scope Z_scope.

(** ** Exceptions and results *)

Inductive pyexn : Type :=
| ValueError
| OverflowError
| ZeroDivisionError
| NameError (name : string)
| IndexError
| AttributeError (name : string)
| OSError (msg : string)
| CvError (msg : string).

Inductive result (A : Type) : Type :=
| Ok (a : A)
| Raise (e : pyexn).

Arguments Ok {A} a.
Arguments Raise {A} e.

Definition bind {A B : Type} (r : result A) (k : A -> result B) : result B :=
  match r with
  | Ok a => k a
  | Raise e => Raise e
  end.

Notation "x <- r ;; k" := (bind r (fun x => k))
  (at level 61, r at next level, right associativity).

(** ** Python numbers *)

Module PyNum.

(** [int(x)] for a float [x]: truncation toward zero; [nan] and the
    infinities raise. *)
Definition py_int (x : float) : result Z :=
  match Prim2SF x with
  | S754_nan => Raise ValueError
  | S754_infinity _ => Raise OverflowError
  | S754_zero _ => Ok 0
  | S754_finite s m e => Ok (cond_Zopp s (Z.shiftl (Zpos m) e))
  end.

(** [math.floor(x)]: the largest integer below or equal to [x]. *)
Definition math_floor (x : float) : result Z :=
  match Prim2SF x with
  | S754_nan => Raise ValueError
  | S754_infinity _ => Raise OverflowError
  | S754_zero _ => Ok 0
  | S754_finite s m e => Ok (Z.shiftl (cond_Zopp s (Zpos m)) e)
  end.

(** The float nearest to an integer (ties to even). *)
Definition Z2float (z : Z) : float :=
  SF2Prim (binary_normalize prec emax z 0 false).

(** Conversion of a Python [int] operand of a float operation. *)
Definition float_of_int (z : Z) : result float :=
  let f := Z2float z in
  if is_infinity f then Raise OverflowError else Ok f.

(** C's [fmod]: the remainder of the truncated quotient, computed exactly,
    with the sign of the dividend. *)
Definition c_fmod (x y : float) : float :=
  match Prim2SF x, Prim2SF y with
  | S754_nan, _ | _, S754_nan => nan
  | S754_infinity _, _ => nan
  | _, S754_zero _ => nan
  | S754_zero _, _ => x
  | S754_finite _ _ _, S754_infinity _ => x
  | S754_finite sx mx ex, S754_finite _ my ey =>
      let ez := Z.min ex ey in
      match (Zpos mx * 2 ^ (ex - ez)) mod (Zpos my * 2 ^ (ey - ez)) with
      | Zpos r => SF2Prim (binary_round prec emax sx r ez)
      | _ => if sx then PrimFloat.neg_zero else PrimFloat.zero
      end
  end.

(** C's [floor] on doubles. *)
Definition c_floor (x : float) : float :=
  match Prim2SF x with
  | S754_finite s m e =>
      if e <? 0 then
        match Z.shiftl (cond_Zopp s (Zpos m)) e with
        | Z0 => if s then PrimFloat.neg_zero else PrimFloat.zero
        | n => Z2float n
        end
      else x
  | _ => x
  end.

(** C's [copysign(0.0, y)]. *)
Definition zero_like (y : float) : float :=
  if get_sign y then PrimFloat.neg_zero else PrimFloat.zero.

Definition nonzero (x : float) : bool := negb (x =? 0)%float.

(** CPython's [float_rem]: [x % y]. *)
Definition py_mod (x y : float) : result float :=
  if (y =? 0)%float then Raise ZeroDivisionError
  else
    let md := c_fmod x y in
    Ok (if nonzero md
        then if xorb (y <? 0)%float (md <? 0)%float then (md + y)%float else md
        else zero_like y).

(** CPython's [float_floor_div]: [x // y]. *)
Definition py_floordiv (x y : float) : result float :=
  if (y =? 0)%float then Raise ZeroDivisionError
  else
    let md := c_fmod x y in
    let dv := ((x - md) / y)%float in
    let dv := if nonzero md && xorb (y <? 0)%float (md <? 0)%float
              then (dv - 1)%float else dv in
    Ok (if nonzero dv
        then let fl := c_floor dv in
             if (0.5 <? dv - fl)%float then (fl + 1)%float else fl
        else zero_like (x / y)%float).

(** Decimal digits of a non-negative integer. *)
Definition digits_of (n : Z) : string :=
  NilZero.string_of_uint (N.to_uint (Z.to_N n)).

Fixpoint zeros (n : nat) : string :=
  match n with
  | O => EmptyString
  | S n' => String "0" (zeros n')
  end.

(** The format specification [0wd] of an f-string: sign, then zeros up to
    the width [w], then the digits. *)
Definition format_0d (w : nat) (z : Z) : string :=
  let sign := if z <? 0 then "-"%string else EmptyString in
  let ds := digits_of (Z.abs z) in
  (sign ++ zeros (w - String.length sign - String.length ds) ++ ds)%string.

End PyNum.

Import PyNum.

(** ** [format_time] *)

Definition format_time (seconds : float) : result string :=
  q <- py_floordiv seconds 3600 ;;
  h <- py_int q ;;
  r <- py_mod seconds 3600 ;;
  q <- py_floordiv r 60 ;;
  m <- py_int q ;;
  r <- py_mod seconds 60 ;;
  s <- py_int r ;;
  i <- py_int seconds ;;
  fi <- float_of_int i ;;
  ms <- py_int ((seconds - fi) * 1000)%float ;;
  Ok (format_0d 2 h ++ "h" ++ format_0d 2 m ++ "m" ++
      format_0d 2 s ++ "s" ++ format_0d 3 ms ++ "ms")%string.


(** ** Effects: the event trace and the outside world *)

Inductive level : Type := DEBUG | INFO | WARNING | ERROR | FATAL.

(** One constructor per logging call of the source. *)
Inductive message : Type :=
| MsgFolderMissing (folder : string)
| MsgBatchStart (folder : string)
| MsgBatchError (e : pyexn)
| MsgBatchContinue
| MsgFileNotFound (path : string)
| MsgOpenFailed (path : string)
| MsgFpsInvalid
| MsgInfoHeader
| MsgInfoPath (path : string)
| MsgInfoFps (fps : float)
| MsgInfoFrames (total_frames : Z)
| MsgInfoDuration (duration_sec : float)
| MsgInfoInterval (interval : float)
| MsgInfoFooter
| MsgOutputDir (path : string)
| MsgReadFailed (target_frame_num : Z) (current_time_sec : float)
| MsgSaved (path : string) (target_frame_num : Z)
| MsgDone
| MsgSummary (saved_count : Z).

Inductive event : Type :=
| EvLog (lv : level) (msg : message)
| EvCall (video_path : string)
| EvOpen (path : string)
| EvRelease (path : string)
| EvMkdir (path : string)
| EvSeek (frame : Z)
| EvRead (frame : Z) (ret : bool)
| EvImwrite (path : string) (frame : Z) (ret : bool).

(** What an opened [cv2.VideoCapture] answers. *)
Record video : Type := {
  v_fps : float;                 (* cap.get(cv2.CAP_PROP_FPS) *)
  v_frame_count : float;         (* cap.get(cv2.CAP_PROP_FRAME_COUNT) *)
  v_read : nat -> Z -> bool      (* ret of the n-th cap.read(), after a seek *)
}.

(** The file system, the decoder and the encoder. *)
Record world : Type := {
  w_exists : string -> bool;               (* os.path.exists *)
  w_abspath : string -> string;            (* os.path.abspath *)
  w_glob : string -> list string;          (* glob.glob *)
  w_is_file : string -> bool;              (* Path.is_file *)
  w_open : string -> option video;         (* None: cap.isOpened() is False *)
  w_mkdir : string -> option pyexn;        (* Path.mkdir: None on success *)
  w_imwrite : string -> Z -> result bool   (* cv2.imwrite *)
}.

(** A computation threads the trace, and returns, raises, or runs out of
    fuel. *)
Inductive outcome (A : Type) : Type :=
| Done (tr : list event) (a : A)
| Exn (tr : list event) (e : pyexn)
| Timeout.

Arguments Done {A} tr a.
Arguments Exn {A} tr e.
Arguments Timeout {A}.

Definition prog (A : Type) : Type := list event -> outcome A.

Definition ret {A : Type} (a : A) : prog A := fun tr => Done tr a.

Definition raise {A : Type} (e : pyexn) : prog A := fun tr => Exn tr e.

Definition timeout {A : Type} : prog A := fun _ => Timeout.

Definition pbind {A B : Type} (p : prog A) (k : A -> prog B) : prog B :=
  fun tr =>
    match p tr with
    | Done tr' a => k a tr'
    | Exn tr' e => Exn tr' e
    | Timeout => Timeout
    end.

Declare Scope prog_scope.
Delimit Scope prog_scope with prog.
Bind Scope prog_scope with prog.

Notation "x <-- p ;; k" := (pbind p (fun x => k))
  (at level 61, p at next level, right associativity) : prog_scope.
Notation "p ;;; k" := (pbind p (fun _ => k))
  (at level 61, right associativity) : prog_scope.

Local Open Scope prog_scope.

Definition emit (ev : event) : prog unit := fun tr => Done (tr ++ [ev]) tt.

Definition log (lv : level) (msg : message) : prog unit := emit (EvLog lv msg).

Definition lift {A : Type} (r : result A) : prog A :=
  match r with
  | Ok a => ret a
  | Raise e => raise e
  end.

(** [try: p except Exception as e: h e finally: f]. *)
Definition try_except_finally (p : prog unit) (h : pyexn -> prog unit)
    (f : prog unit) : prog unit :=
  fun tr =>
    match p tr with
    | Done tr' _ => f tr'
    | Exn tr' e =>
        match h e tr' with
        | Done tr'' _ => f tr''
        | Exn tr'' e' => (f ;;; raise e') tr''
        | Timeout => Timeout
        end
    | Timeout => Timeout
    end.

Fixpoint for_each {A : Type} (l : list A) (body : A -> prog unit) : prog unit :=
  match l with
  | [] => ret tt
  | x :: l' => body x ;;; for_each l' body
  end.

(** ** Paths *)

Fixpoint basename_from (acc s : string) : string :=
  match s with
  | EmptyString => acc
  | String c s' =>
      if Ascii.eqb c "/" then basename_from s' s' else basename_from acc s'
  end.

(** [os.path.basename]: what follows the last slash. *)
Definition basename (p : string) : string := basename_from p p.

(** [Path / name]. *)
Definition path_join (dir name : string) : string := (dir ++ "/" ++ name)%string.

Definition output_filename (video_path timestamp_str : string) : string :=
  (basename video_path ++ "_" ++ timestamp_str ++ ".jpg")%string.

(** ** [extract_frames_by_interval] *)

(** Line 71: [total_frames / fps if fps > 0 else 0]. *)
Definition duration_of (total_frames : Z) (fps : float) : result float :=
  if (0 <? fps)%float
  then tf <- float_of_int total_frames ;; Ok (tf / fps)%float
  else Ok 0%float.

Section Sampler.

Variable w : world.

(** The [while] loop of lines 95-122; [k] counts the reads made so far. *)
Fixpoint sampling_loop (fuel : nat) (cap : video) (video_path output_folder_path : string)
    (interval fps : float) (total_frames : Z) (duration_sec : float)
    (k : nat) (current_time_sec : float) (saved_count : Z) : prog Z :=
  match fuel with
  | O => timeout
  | S fuel' =>
      if (current_time_sec <=? duration_sec)%float then
        target_frame_num <-- lift (math_floor (current_time_sec * fps)) ;;
        if target_frame_num >=? total_frames then ret saved_count
        else
          emit (EvSeek target_frame_num) ;;;
          let ret_ := v_read cap k target_frame_num in
          emit (EvRead target_frame_num ret_) ;;;
          if negb ret_ then
            log INFO (MsgReadFailed target_frame_num current_time_sec) ;;;
            sampling_loop fuel' cap video_path output_folder_path interval fps
              total_frames duration_sec (S k)
              (current_time_sec + interval) saved_count
          else
            timestamp_str <-- lift (format_time current_time_sec) ;;
            let output_path :=
              path_join output_folder_path
                (output_filename video_path timestamp_str) in
            written <-- lift (w_imwrite w output_path target_frame_num) ;;
            emit (EvImwrite output_path target_frame_num written) ;;;
            let saved_count := saved_count + 1 in
            log INFO (MsgSaved output_path target_frame_num) ;;;
            sampling_loop fuel' cap video_path output_folder_path interval fps
              total_frames duration_sec (S k)
              (current_time_sec + interval) saved_count
      else ret saved_count
  end.

Definition extract_frames_by_interval (fuel : nat)
    (video_path output_folder_path : string) (interval : float) : prog unit :=
  emit (EvCall video_path) ;;;
  if negb (w_is_file w video_path) then
    log INFO (MsgFileNotFound video_path)
  else
    match w_open w video_path with
    | None =>
        emit (EvOpen video_path) ;;;
        log INFO (MsgOpenFailed video_path)
    | Some cap =>
        emit (EvOpen video_path) ;;;
        let fps := v_fps cap in
        total_frames <-- lift (py_int (v_frame_count cap)) ;;
        duration_sec <-- lift (duration_of total_frames fps) ;;
        if (fps =? 0)%float then
          log INFO MsgFpsInvalid ;;;
          emit (EvRelease video_path)
        else
          log INFO MsgInfoHeader ;;;
          log INFO (MsgInfoPath video_path) ;;;
          log INFO (MsgInfoFps fps) ;;;
          log INFO (MsgInfoFrames total_frames) ;;;
          log INFO (MsgInfoDuration duration_sec) ;;;
          log INFO (MsgInfoInterval interval) ;;;
          log INFO MsgInfoFooter ;;;
          match w_mkdir w output_folder_path with
          | Some e => raise e
          | None =>
              emit (EvMkdir output_folder_path) ;;;
              log INFO (MsgOutputDir output_folder_path) ;;;
              saved_count <--
                sampling_loop fuel cap video_path output_folder_path interval
                  fps total_frames duration_sec 0 0%float 0 ;;
              log INFO MsgDone ;;;
              log INFO (MsgSummary saved_count) ;;;
              emit (EvRelease video_path)
          end
    end.

(** ** [extract_frames_by_interval_in_folder] *)

Definition extract_frames_by_interval_in_folder (fuel : nat)
    (input_folder_path output_folder_path : string) (interval : float) : prog unit :=
  if negb (w_exists w input_folder_path) then
    log FATAL (MsgFolderMissing input_folder_path)
  else
    let input_folder_abspath := w_abspath w input_folder_path in
    log INFO (MsgBatchStart input_folder_abspath) ;;;
    for_each (w_glob w (input_folder_abspath ++ "/*"))
      (fun video_path =>
         try_except_finally
           (extract_frames_by_interval fuel video_path output_folder_path interval)
           (fun e => log ERROR (MsgBatchError e))
           (log INFO MsgBatchContinue)).

End Sampler.

(** ** The script entry point (lines 130-132) *)

(** The names bound at module level when line 132 is reached: the imports
    and the three function definitions. *)
Definition module_globals : list string :=
  ["cv2"; "os"; "glob"; "inspect"; "Enum"; "logging"; "natsort"; "argparse";
   "Path"; "math"; "sys"; "logger"; "stream_handler"; "formatter";
   "format_time"; "extract_frames_by_interval_in_folder";
   "extract_frames_by_interval"]%string.

(** Loading a global name; a name that is not bound raises [NameError]. *)
Definition load_name (name : string) : result string :=
  if existsb (String.eqb name) module_globals
  then Ok name else Raise (NameError name).

(** [sys.argv[i]]. *)
Definition argv_at (argv : list string) (i : nat) : result string :=
  match nth_error argv i with
  | Some a => Ok a
  | None => Raise IndexError
  end.

(** Line 132: [movie_toolkit.extract_frames_by_interval_in_folder(sys.argv[1],
    sys.argv[2])]; the callee expression is evaluated before the arguments,
    and the call uses the default [interval=10]. *)
Definition main (w : world) (fuel : nat) (argv : list string) : prog unit :=
  m <-- lift (load_name "movie_toolkit") ;;
  f <-- lift (if String.eqb m "movie_toolkit"
              then load_name "extract_frames_by_interval_in_folder"
              else Raise (AttributeError "extract_frames_by_interval_in_folder")) ;;
  a1 <-- lift (argv_at argv 1) ;;
  a2 <-- lift (argv_at argv 2) ;;
  extract_frames_by_interval_in_folder w fuel a1 a2 10.

(** ** Binary64 values

    The value of a finite float is counted in units of the smallest
    subnormal, [2 ^ -1074], so that it is an integer. *)

Module F64.

(** The exponent of the canonical form of a number of magnitude [2 ^ e]. *)
Definition fexp64 (e : Z) : Z := Z.max (e - 53) (-1074).

Definition SFunits (x : spec_float) : Z :=
  match x with
  | S754_finite s m e => cond_Zopp s (Zpos m * 2 ^ (e + 1074))
  | _ => 0
  end.

Definition SFfinite (x : spec_float) : bool :=
  match x with
  | S754_zero _ | S754_finite _ _ _ => true
  | _ => false
  end.

Definition SFnonneg (x : spec_float) : bool :=
  match x with
  | S754_zero _ | S754_finite false _ _ | S754_infinity false => true
  | _ => false
  end.

(** A mantissa below [2 ^ 53] at an exponent in range has a canonical form,
    reached by shifting left. *)
Definition norm_m (P : positive) (F : Z) : positive :=
  Z.to_pos (Zpos P * 2 ^ (F - fexp64 (Zpos (digits2_pos P) + F))).

Definition norm_e (P : positive) (F : Z) : Z :=
  fexp64 (Zpos (digits2_pos P) + F).

(** The integers (in units) that are the value of some float. *)
Definition representable (u : Z) : Prop :=
  exists z, valid_binary z = true /\ SFfinite z = true /\ SFunits z = u.

(** The value of a float in units, and whether it is a number. *)
Definition units (x : float) : Z := SFunits (Prim2SF x).

Definition finiteb (x : float) : bool := SFfinite (Prim2SF x).

End F64.

(** ** Timestamps *)

(** The whole seconds of a time that is not negative: its floor. *)
Definition whole_seconds (t : float) : Z := F64.units t / 2 ^ 1074.

(** The text [HHhMMmSSsMMMms] of four fields. *)
Definition timestamp (h m s ms : Z) : string :=
  (format_0d 2 h ++ "h" ++ format_0d 2 m ++ "m" ++
   format_0d 2 s ++ "s" ++ format_0d 3 ms ++ "ms")%string.

(** ** Observations on traces and runs *)

Definition seeks (tr : list event) : list Z :=
  flat_map (fun ev => match ev with EvSeek n => [n] | _ => [] end) tr.

Definition reads (tr : list event) : list (Z * bool) :=
  flat_map (fun ev => match ev with EvRead n r => [(n, r)] | _ => [] end) tr.

Definition written_paths (tr : list event) : list string :=
  flat_map (fun ev => match ev with EvImwrite p _ _ => [p] | _ => [] end) tr.

Definition mkdirs (tr : list event) : list string :=
  flat_map (fun ev => match ev with EvMkdir p => [p] | _ => [] end) tr.

Definition releases (tr : list event) : list string :=
  flat_map (fun ev => match ev with EvRelease p => [p] | _ => [] end) tr.

Definition calls (tr : list event) : list string :=
  flat_map (fun ev => match ev with EvCall p => [p] | _ => [] end) tr.

(** The value of [current_time_sec] when the loop condition is tested for
    the [k]-th time: [0.0] with [interval] added [k] times, in floating
    point. *)
Fixpoint instant (interval : float) (k : nat) : float :=
  match k with
  | O => 0%float
  | S k' => (instant interval k' + interval)%float
  end.

(** The frame index, the timestamp and the result of the write of an
    iteration, where they are defined. *)
Definition target_of (fps t : float) : Z :=
  match math_floor (t * fps) with Ok n => n | Raise _ => 0 end.

Definition stamp_of (t : float) : string :=
  match format_time t with Ok s => s | Raise _ => EmptyString end.

Definition written_of (w : world) (path : string) (frame : Z) : bool :=
  match w_imwrite w path frame with Ok b => b | Raise _ => false end.

Section Iterations.

Variables (w : world) (cap : video) (video_path output_folder_path : string).
Variables (interval fps : float).

Definition target (k : nat) : Z := target_of fps (instant interval k).

Definition output_path (k : nat) : string :=
  path_join output_folder_path
    (output_filename video_path (stamp_of (instant interval k))).

Definition read_ok (k : nat) : bool := v_read cap k (target k).

(** The events of the [k]-th iteration, when it reaches the read. *)
Definition iteration_events (k : nat) : list event :=
  if read_ok k then
    [EvSeek (target k); EvRead (target k) true;
     EvImwrite (output_path k) (target k) (written_of w (output_path k) (target k));
     EvLog INFO (MsgSaved (output_path k) (target k))]
  else
    [EvSeek (target k); EvRead (target k) false;
     EvLog INFO (MsgReadFailed (target k) (instant interval k))].

(** The iterations [k, k + n). *)
Definition iterations_events (k n : nat) : list event :=
  flat_map iteration_events (seq k n).

Definition successes (k n : nat) : nat :=
  List.length (filter read_ok (seq k n)).

Definition failures (k n : nat) : nat :=
  List.length (filter (fun j => negb (read_ok j)) (seq k n)).

(** The [k]-th iteration passes the loop condition and the end-of-stream
    test, and nothing in it raises. *)
Definition iteration_runs (total_frames : Z) (duration_sec : float) (k : nat) : Prop :=
  (instant interval k <=? duration_sec)%float = true /\
  (exists n, math_floor (instant interval k * fps) = Ok n /\ n < total_frames) /\
  (read_ok k = true ->
   (exists ts, format_time (instant interval k) = Ok ts) /\
   (exists b, w_imwrite w (output_path k) (target k) = Ok b)).

(** The loop stops at the test of the [k]-th iteration: by its condition,
    or by the [break]. *)
Definition iteration_stops (total_frames : Z) (duration_sec : float) (k : nat) : Prop :=
  (instant interval k <=? duration_sec)%float = false \/
  ((instant interval k <=? duration_sec)%float = true /\
   exists n, math_floor (instant interval k * fps) = Ok n /\ total_frames <= n).

End Iterations.

(** The index of the first iteration below [bound] whose frame index is
    past the end of the stream, and [bound] when there is none. *)
Fixpoint first_past (tg : nat -> Z) (total_frames : Z) (bound k : nat) : nat :=
  match bound with
  | O => k
  | S bound' =>
      if tg k >=? total_frames then k else first_past tg total_frames bound' (S k)
  end.

(** The trace at the end of a run that returned or raised. *)
Definition outcome_trace {A : Type} (o : outcome A) : option (list event) :=
  match o with
  | Done tr _ | Exn tr _ => Some tr
  | Timeout => None
  end.

(** What [extract_frames_by_interval] does before and after the loop, on a
    video that opens with a frame rate other than 0. *)
Definition prologue_events (video_path output_folder_path : string)
    (fps : float) (total_frames : Z) (duration_sec interval : float) : list event :=
  [EvCall video_path; EvOpen video_path;
   EvLog INFO MsgInfoHeader; EvLog INFO (MsgInfoPath video_path);
   EvLog INFO (MsgInfoFps fps); EvLog INFO (MsgInfoFrames total_frames);
   EvLog INFO (MsgInfoDuration duration_sec); EvLog INFO (MsgInfoInterval interval);
   EvLog INFO MsgInfoFooter;
   EvMkdir output_folder_path; EvLog INFO (MsgOutputDir output_folder_path)].

Definition epilogue_events (video_path : string) (saved_count : Z) : list event :=
  [EvLog INFO MsgDone; EvLog INFO (MsgSummary saved_count); EvRelease video_path].

(** The trace of the batch loop over the entries of the folder: each entry
    is sampled; a return is followed by the [finally] line, an exception by
    the [except] line and the [finally] line. *)
Inductive batch_trace (w : world) (fuel : nat) (output_folder_path : string)
    (interval : float) : list string -> list event -> list event -> Prop :=
| batch_end tr :
    batch_trace w fuel output_folder_path interval [] tr tr
| batch_returned video_path rest tr tr1 tr2 :
    extract_frames_by_interval w fuel video_path output_folder_path interval tr
      = Done tr1 tt ->
    batch_trace w fuel output_folder_path interval rest
      (tr1 ++ [EvLog INFO MsgBatchContinue]) tr2 ->
    batch_trace w fuel output_folder_path interval (video_path :: rest) tr tr2
| batch_raised video_path rest tr tr1 e tr2 :
    extract_frames_by_interval w fuel video_path output_folder_path interval tr
      = Exn tr1 e ->
    batch_trace w fuel output_folder_path interval rest
      (tr1 ++ [EvLog ERROR (MsgBatchError e); EvLog INFO MsgBatchContinue]) tr2 ->
    batch_trace w fuel output_folder_path interval (video_path :: rest) tr tr2.

(** A stretch of trace that releases, creates and calls nothing. *)
Definition quiet (tr : list event) : Prop :=
  releases tr = [] /\ mkdirs tr = [] /\ calls tr = [].

(** The video at a path is a file and opens. *)
Definition opened (w : world) (video_path : string) : bool :=
  w_is_file w video_path &&
  match w_open w video_path with Some _ => true | None => false end.

(** C5 as the spec states it: once the video is open, every exit of the
    function, by return or by exception, has released it exactly once. *)
Definition released_on_every_exit : Prop :=
  forall (w : world) (fuel : nat) (video_path output_folder_path : string)
         (interval : float) (tr : list event) (cap : video) (tr1 : list event),
    w_is_file w video_path = true ->
    w_open w video_path = Some cap ->
    outcome_trace
      (extract_frames_by_interval w fuel video_path output_folder_path interval tr)
    = Some tr1 ->
    exists tr', tr1 = tr ++ tr' /\ releases tr' = [video_path].

(** C6 as the spec states it: a video with frames and a positive frame
    rate, sampled at an interval not below its duration, has exactly one
    extraction attempt, at frame 0. *)
Definition one_attempt_when_interval_reaches_duration : Prop :=
  forall (w : world) (fuel : nat) (video_path output_folder_path : string)
         (interval : float) (tr : list event) (cap : video) (total_frames : Z)
         (duration_sec : float),
    w_is_file w video_path = true ->
    w_open w video_path = Some cap ->
    F64.finiteb (v_fps cap) = true -> (0 <? v_fps cap)%float = true ->
    py_int (v_frame_count cap) = Ok total_frames -> 0 < total_frames ->
    duration_of total_frames (v_fps cap) = Ok duration_sec ->
    (duration_sec <=? interval)%float = true ->
    w_mkdir w output_folder_path = None ->
    (2 <= fuel)%nat ->
    exists tr',
      outcome_trace
        (extract_frames_by_interval w fuel video_path output_folder_path interval tr)
      = Some (tr ++ tr') /\ seeks tr' = [0] /\ List.length (reads tr') = 1%nat.

(** C1 as the spec states it: on a run that returns, the reads that
    succeeded number [floor (D / interval) + 1], less the reads that failed,
    less the iteration that left by the end-of-stream test (there is one
    when the instant after the last read still passes the loop condition). *)
Definition attempts_by_formula : Prop :=
  forall (w : world) (fuel : nat) (video_path output_folder_path : string)
         (interval : float) (tr : list event) (cap : video) (total_frames : Z)
         (duration_sec : float) (tr' : list event),
    w_is_file w video_path = true ->
    w_open w video_path = Some cap ->
    F64.finiteb (v_fps cap) = true -> (0 <? v_fps cap)%float = true ->
    py_int (v_frame_count cap) = Ok total_frames -> 0 <= total_frames ->
    duration_of total_frames (v_fps cap) = Ok duration_sec ->
    F64.finiteb duration_sec = true ->
    F64.finiteb interval = true -> 0 < F64.units interval ->
    extract_frames_by_interval w fuel video_path output_folder_path interval tr
    = Done (tr ++ tr') tt ->
    Z.of_nat (List.length (filter (fun r => snd r) (reads tr')))
    = F64.units duration_sec / F64.units interval + 1
      - Z.of_nat (List.length (filter (fun r => negb (snd r)) (reads tr')))
      - (if (instant interval (List.length (reads tr')) <=? duration_sec)%float
         then 1 else 0).

(** A path written for the video whose timestamp encodes the whole second
    [sec]: hours, minutes below 60 and seconds below 60, before some
    milliseconds. *)
Definition stamped (output_folder_path video_path path : string) (sec : Z) : Prop :=
  0 <= sec /\
  exists ms, 0 <= ms /\
    path = path_join output_folder_path
             (output_filename video_path
                (timestamp (sec / 3600) (sec mod 3600 / 60) (sec mod 60) ms)).

(** C2 as the spec states it, with its proviso of an interval of a
    millisecond or more: the file names written by one run are pairwise
    distinct. *)
Definition filenames_never_repeat : Prop :=
  forall (w : world) (fuel : nat) (video_path output_folder_path : string)
         (interval : float) (tr1 : list event),
    F64.finiteb interval = true ->
    (1 / 1000 <=? interval)%float = true ->
    outcome_trace
      (extract_frames_by_interval w fuel video_path output_folder_path interval [])
    = Some tr1 ->
    NoDup (written_paths tr1).

(** ** Sample worlds *)

(** A video whose reads succeed or fail as [readable] says. *)
Definition clip (fps frames : float) (readable : nat -> Z -> bool) : video :=
  {| v_fps := fps; v_frame_count := frames; v_read := readable |}.

(** A world where every path is a file that opens as [v], the output folder
    can be created and every write succeeds. *)
Definition studio (v : video) : world :=
  {| w_exists := fun _ => true;
     w_abspath := fun p => p;
     w_glob := fun _ => [];
     w_is_file := fun _ => true;
     w_open := fun _ => Some v;
     w_mkdir := fun _ => None;
     w_imwrite := fun _ _ => Ok true |}.

(** The same world with a failing encoder: every write returns [False]. *)
Definition studio_disk_full (v : video) : world :=
  {| w_exists := fun _ => true;
     w_abspath := fun p => p;
     w_glob := fun _ => [];
     w_is_file := fun _ => true;
     w_open := fun _ => Some v;
     w_mkdir := fun _ => None;
     w_imwrite := fun _ _ => Ok false |}.

(** A folder with two entries: [good.mp4] opens as [v], and the frame count
    of [bad.mp4] is not a number. *)
Definition two_entries (v : video) : world :=
  {| w_exists := fun _ => true;
     w_abspath := fun p => p;
     w_glob := fun _ => ["in/bad.mp4"; "in/good.mp4"]%string;
     w_is_file := fun _ => true;
     w_open := fun p => if String.eqb p "in/bad.mp4"
                        then Some (clip 30 nan (fun _ _ => true)) else Some v;
     w_mkdir := fun _ => None;
     w_imwrite := fun _ _ => Ok true |}.


(** ** Further observations *)

(** The frame indices handed to [cv2.imwrite], in order. *)
Definition written_frames (tr : list event) : list Z :=
  flat_map (fun ev => match ev with EvImwrite _ n _ => [n] | _ => [] end) tr.

(** The frame indices of the reads that succeeded, in order. *)
Definition frames_read (tr : list event) : list Z :=
  map fst (filter snd (reads tr)).

(** The counts reported by the summary line. *)
Definition summaries (tr : list event) : list Z :=
  flat_map (fun ev => match ev with EvLog _ (MsgSummary n) => [n] | _ => [] end) tr.

(** A stretch of trace that touches neither the decoder, nor the encoder,
    nor the output folder. *)
Definition idle (tr : list event) : Prop :=
  seeks tr = [] /\ reads tr = [] /\ written_paths tr = [] /\
  written_frames tr = [] /\ mkdirs tr = [] /\ summaries tr = [].


(** ** Facts on binary64 arithmetic *)

Module F64Facts.

Import F64.



Lemma fexp_eq e : fexp prec emax e = fexp64 e.
Proof. reflexivity. Qed.

(** *** Binary digits *)

Lemma digits2_size p : digits2_pos p = Pos.size p.
Proof. induction p; simpl; congruence. Qed.

Lemma digits_bounds p :
  2 ^ (Zpos (digits2_pos p) - 1) <= Zpos p < 2 ^ Zpos (digits2_pos p).
Proof.
  rewrite digits2_size. split.
  - pose proof (Pos.size_le p) as H.
    assert (Hp : Zpos (2 ^ Pos.size p) = 2 ^ Zpos (Pos.size p)) by apply Pos2Z.inj_pow.
    assert (H2 : 2 ^ Zpos (Pos.size p) = 2 * 2 ^ (Zpos (Pos.size p) - 1)).
    { rewrite <- Z.pow_succ_r by lia. f_equal. lia. }
    lia.
  - pose proof (Pos.size_gt p) as H.
    assert (Hp : Zpos (2 ^ Pos.size p) = 2 ^ Zpos (Pos.size p)) by apply Pos2Z.inj_pow.
    lia.
Qed.

Lemma digits_unique p d :
  2 ^ (d - 1) <= Zpos p < 2 ^ d -> Zpos (digits2_pos p) = d.
Proof.
  intros [Hl Hu]. pose proof (digits_bounds p) as [Bl Bu].
  assert (0 < d).
  { destruct (Z_lt_le_dec 0 d); auto.
    assert (2 ^ d <= 2 ^ 0) by (destruct (Z_lt_le_dec d 0);
      [rewrite Z.pow_neg_r by lia; simpl; lia | apply Z.pow_le_mono_r; lia]).
    simpl in *. lia. }
  destruct (Z_lt_le_dec (Zpos (digits2_pos p)) d).
  - assert (2 ^ Zpos (digits2_pos p) <= 2 ^ (d - 1)) by (apply Z.pow_le_mono_r; lia). lia.
  - destruct (Z_lt_le_dec d (Zpos (digits2_pos p))); [|lia].
    assert (2 ^ d <= 2 ^ (Zpos (digits2_pos p) - 1)) by (apply Z.pow_le_mono_r; lia). lia.
Qed.

Lemma digits_mul_pow2 p q k :
  0 <= k -> Zpos q = Zpos p * 2 ^ k ->
  Zpos (digits2_pos q) = Zpos (digits2_pos p) + k.
Proof.
  intros Hk Hq. apply digits_unique. rewrite Hq.
  pose proof (digits_bounds p) as [Bl Bu].
  replace (Zpos (digits2_pos p) + k - 1) with ((Zpos (digits2_pos p) - 1) + k) by lia.
  rewrite !Z.pow_add_r by lia.
  assert (0 < 2 ^ k) by (apply Z.pow_pos_nonneg; lia).
  split; nia.
Qed.

Lemma nat_iter_xO_pow2 m n : Zpos (Nat.iter n xO m) = Zpos m * 2 ^ Z.of_nat n.
Proof.
  induction n as [|n IH].
  - simpl. lia.
  - rewrite Nat2Z.inj_succ, Z.pow_succ_r by lia.
    rewrite Nat.iter_succ, Pos2Z.inj_xO, IH. ring.
Qed.

Lemma iter_xO_pow2 m d : Zpos (Pos.iter xO m d) = Zpos m * 2 ^ Zpos d.
Proof.
  rewrite Pos2Nat.inj_iter.
  change (nat_rect (fun _ => positive) m (fun _ => xO) (Pos.to_nat d))
    with (Nat.iter (Pos.to_nat d) xO m).
  rewrite nat_iter_xO_pow2, positive_nat_Z. reflexivity.
Qed.

(** *** Right shifts *)

Lemma iter_pos_nat {A} (f : A -> A) p x :
  iter_pos f p x = Nat.iter (Pos.to_nat p) f x.
Proof.
  revert x. induction p as [p IH | p IH |]; intro x; cbn [iter_pos].
  - rewrite !IH. rewrite Pos2Nat.inj_xI.
    replace (S (2 * Pos.to_nat p)) with (Pos.to_nat p + (Pos.to_nat p + 1))%nat by lia.
    rewrite !Nat.iter_add. simpl. reflexivity.
  - rewrite !IH. rewrite Pos2Nat.inj_xO.
    replace (2 * Pos.to_nat p)%nat with (Pos.to_nat p + Pos.to_nat p)%nat by lia.
    rewrite Nat.iter_add. reflexivity.
  - reflexivity.
Qed.

Lemma shr_1_exact m :
  0 <= m -> shr_1 (Build_shr_record (2 * m) false false) = Build_shr_record m false false.
Proof.
  intros _. destruct m as [|p|p]; reflexivity.
Qed.

Lemma shr_iter_exact n m :
  0 <= m ->
  Nat.iter n shr_1 (Build_shr_record (m * 2 ^ Z.of_nat n) false false)
  = Build_shr_record m false false.
Proof.
  revert m. induction n as [|n IH]; intros m Hm.
  - simpl. f_equal. lia.
  - rewrite Nat.iter_succ_r.
    replace (m * 2 ^ Z.of_nat (S n)) with (2 * (m * 2 ^ Z.of_nat n)).
    2:{ rewrite Nat2Z.inj_succ, Z.pow_succ_r by lia. ring. }
    rewrite shr_1_exact by (apply Z.mul_nonneg_nonneg; [lia | apply Z.pow_nonneg; lia]).
    apply IH; assumption.
Qed.

Lemma shr_exact m e k :
  0 <= m -> 0 <= k ->
  shr (Build_shr_record (m * 2 ^ k) false false) e k
  = (Build_shr_record m false false, e + k).
Proof.
  intros Hm Hk. destruct k as [|p|p]; try lia.
  - simpl. rewrite Z.mul_1_r, Z.add_0_r. reflexivity.
  - unfold shr. rewrite iter_pos_nat.
    rewrite <- (positive_nat_Z p) at 1.
    rewrite shr_iter_exact by assumption. reflexivity.
Qed.

(** *** Rounding a representable value *)

Lemma bounded_inv m e :
  bounded prec emax m e = true ->
  fexp64 (Zpos (digits2_pos m) + e) = e /\ e <= 971.
Proof.
  unfold bounded, canonical_mantissa. rewrite andb_true_iff, Z.eqb_eq, Z.leb_le.
  rewrite fexp_eq. intros [H1 H2]. split; [exact H1|]. exact H2.
Qed.

Lemma binary_round_aux_exact s M E m e :
  bounded prec emax m e = true ->
  E <= e -> Zpos M = Zpos m * 2 ^ (e - E) ->
  binary_round_aux prec emax s (Zpos M) E loc_Exact = S754_finite s m e.
Proof.
  intros Hb HE HM. destruct (bounded_inv _ _ Hb) as [Hc He].
  assert (Hd : Zpos (digits2_pos M) + E = Zpos (digits2_pos m) + e).
  { rewrite (digits_mul_pow2 m M (e - E)) by (auto; lia). lia. }
  unfold binary_round_aux, shr_fexp. rewrite !fexp_eq.
  change (Zdigits2 (Zpos M)) with (Zpos (digits2_pos M)).
  rewrite Hd, Hc. cbn [shr_record_of_loc].
  rewrite HM, shr_exact by lia.
  replace (E + (e - E)) with e by lia.
  cbn [shr_m loc_of_shr_record round_nearest_even].
  change (Zdigits2 (Zpos m)) with (Zpos (digits2_pos m)).
  rewrite fexp_eq, Hc, Z.sub_diag. cbn [shr shr_m].
  change (emax - prec) with 971.
  destruct (Z.leb_spec e 971); [reflexivity | lia].
Qed.

Lemma binary_round_exact s M E m e :
  bounded prec emax m e = true ->
  Zpos M * 2 ^ (E - Z.min E e) = Zpos m * 2 ^ (e - Z.min E e) ->
  binary_round prec emax s M E = S754_finite s m e.
Proof.
  intros Hb HM. destruct (bounded_inv _ _ Hb) as [Hc He].
  assert (Hd : Zpos (digits2_pos M) + E = Zpos (digits2_pos m) + e).
  { destruct (Z.min_spec E e) as [[Hlt Hmin]|[Hle Hmin]]; rewrite Hmin in HM.
    - rewrite Z.sub_diag, Z.mul_1_r in HM.
      rewrite (digits_mul_pow2 m M (e - E)) by (auto; lia). lia.
    - rewrite Z.sub_diag, Z.mul_1_r in HM.
      rewrite (digits_mul_pow2 M m (E - e)) by (auto; lia). lia. }
  unfold binary_round. rewrite fexp_eq, Hd, Hc. unfold shl_align.
  destruct (e - E) as [|p|p] eqn:Hp.
  - apply binary_round_aux_exact; auto; try lia.
    replace (Z.min E e) with E in HM by lia.
    rewrite Z.sub_diag, Hp in HM. rewrite Hp. change (2 ^ 0) with 1 in *. lia.
  - apply binary_round_aux_exact; auto; try lia.
    replace (Z.min E e) with E in HM by lia.
    rewrite Z.sub_diag, Z.mul_1_r in HM. rewrite HM, Hp. reflexivity.
  - replace (Z.min E e) with e in HM by lia.
    rewrite Z.sub_diag, Z.mul_1_r in HM.
    assert (Hm : Pos.iter xO M p = m).
    { apply Pos2Z.inj. rewrite iter_xO_pow2, <- HM. do 2 f_equal. lia. }
    rewrite Hm. apply binary_round_aux_exact; auto; try lia.
    rewrite Z.sub_diag. lia.
Qed.


(** *** Values in units of the smallest subnormal, [2 ^ -1074] *)



Lemma canon_facts m e :
  bounded prec emax m e = true ->
  -1074 <= e <= 971 /\ Zpos (digits2_pos m) <= 53 /\
  (-1074 < e -> Zpos (digits2_pos m) = 53).
Proof.
  intros Hb. destruct (bounded_inv _ _ Hb) as [Hc He]. unfold fexp64 in Hc. lia.
Qed.

Lemma digits_units m e :
  -1074 <= e ->
  exists q, Zpos q = Zpos m * 2 ^ (e + 1074) /\
            Zpos (digits2_pos q) = Zpos (digits2_pos m) + (e + 1074).
Proof.
  intros He.
  assert (Hp : 0 < Zpos m * 2 ^ (e + 1074)).
  { apply Z.mul_pos_pos; [lia | apply Z.pow_pos_nonneg; lia]. }
  destruct (Zpos m * 2 ^ (e + 1074)) as [|q|q] eqn:Hq; try lia.
  exists q. split; [reflexivity|]. apply digits_mul_pow2; [lia | symmetry; exact Hq].
Qed.

Lemma canon_unique m1 e1 m2 e2 :
  bounded prec emax m1 e1 = true -> bounded prec emax m2 e2 = true ->
  Zpos m1 * 2 ^ (e1 + 1074) = Zpos m2 * 2 ^ (e2 + 1074) ->
  m1 = m2 /\ e1 = e2.
Proof.
  intros B1 B2 Hv.
  destruct (bounded_inv _ _ B1) as [C1 _]. destruct (bounded_inv _ _ B2) as [C2 _].
  destruct (canon_facts _ _ B1) as [[L1 _] _]. destruct (canon_facts _ _ B2) as [[L2 _] _].
  destruct (digits_units m1 e1 L1) as [q1 [Q1 D1]].
  destruct (digits_units m2 e2 L2) as [q2 [Q2 D2]].
  assert (q1 = q2) by (apply Pos2Z.inj; congruence). subst q2.
  assert (He : e1 = e2).
  { rewrite <- C1, <- C2. f_equal. lia. }
  subst e2. split; [|reflexivity].
  assert (0 < 2 ^ (e1 + 1074)) by (apply Z.pow_pos_nonneg; lia).
  apply Pos2Z.inj. nia.
Qed.

Lemma round_units s M E m e :
  -1074 <= E -> bounded prec emax m e = true ->
  Zpos M * 2 ^ (E + 1074) = Zpos m * 2 ^ (e + 1074) ->
  binary_round prec emax s M E = S754_finite s m e.
Proof.
  intros HE Hb Hv. destruct (canon_facts _ _ Hb) as [[Le _] _].
  apply binary_round_exact; [exact Hb|].
  set (z := Z.min E e).
  assert (Hz : -1074 <= z <= E /\ z <= e) by (unfold z; lia).
  replace (E + 1074) with ((E - z) + (z + 1074)) in Hv by lia.
  replace (e + 1074) with ((e - z) + (z + 1074)) in Hv by lia.
  rewrite (Z.pow_add_r 2 (E - z)), (Z.pow_add_r 2 (e - z)) in Hv by lia.
  assert (0 < 2 ^ (z + 1074)) by (apply Z.pow_pos_nonneg; lia).
  apply (Z.mul_reg_r _ _ (2 ^ (z + 1074))); [lia|].
  rewrite <- !Z.mul_assoc. exact Hv.
Qed.



Lemma norm_bounded P F :
  Zpos P < 2 ^ 53 -> -1074 <= F -> Zpos (digits2_pos P) + F <= 1024 ->
  bounded prec emax (norm_m P F) (norm_e P F) = true /\
  Zpos (norm_m P F) * 2 ^ (norm_e P F + 1074) = Zpos P * 2 ^ (F + 1074).
Proof.
  intros HP HF Hd.
  assert (Hd53 : Zpos (digits2_pos P) <= 53).
  { pose proof (digits_bounds P) as [Bl _].
    destruct (Z_lt_le_dec 53 (Zpos (digits2_pos P))); [|lia].
    assert (2 ^ 53 <= 2 ^ (Zpos (digits2_pos P) - 1)) by (apply Z.pow_le_mono_r; lia). lia. }
  unfold norm_m, norm_e. set (e := fexp64 (Zpos (digits2_pos P) + F)).
  assert (He : -1074 <= e <= F) by (unfold e, fexp64; lia).
  assert (Hpos : 0 < Zpos P * 2 ^ (F - e)).
  { apply Z.mul_pos_pos; [lia | apply Z.pow_pos_nonneg; lia]. }
  destruct (Zpos P * 2 ^ (F - e)) as [|q|q] eqn:Hq; try lia.
  cbn [Z.to_pos].
  assert (Dq : Zpos (digits2_pos q) = Zpos (digits2_pos P) + (F - e)).
  { apply digits_mul_pow2; [lia | symmetry; exact Hq]. }
  split.
  - unfold bounded, canonical_mantissa. rewrite fexp_eq, Dq.
    replace (Zpos (digits2_pos P) + (F - e) + e) with (Zpos (digits2_pos P) + F) by lia.
    fold e. rewrite Z.eqb_refl. cbn [andb]. apply Z.leb_le.
    change (emax - prec) with 971. unfold e, fexp64. lia.
  - rewrite <- Hq. rewrite <- Z.mul_assoc, <- Z.pow_add_r by lia. do 2 f_equal. lia.
Qed.

(** *** Comparison *)

Lemma pos_compare_cont_eq m1 m2 : Pos.compare_cont Eq m1 m2 = (Zpos m1 ?= Zpos m2).
Proof. reflexivity. Qed.

Lemma units_lt_of_exp m1 e1 m2 e2 :
  bounded prec emax m1 e1 = true -> bounded prec emax m2 e2 = true ->
  e1 < e2 -> Zpos m1 * 2 ^ (e1 + 1074) < Zpos m2 * 2 ^ (e2 + 1074).
Proof.
  intros B1 B2 Hlt.
  destruct (canon_facts _ _ B1) as [[L1 _] [D1 _]].
  destruct (canon_facts _ _ B2) as [[L2 _] [_ D2]].
  pose proof (digits_bounds m1) as [_ U1]. pose proof (digits_bounds m2) as [U2 _].
  rewrite D2 in U2 by lia. change (2 ^ (53 - 1)) with (2 ^ 52) in U2.
  assert (U1' : Zpos m1 < 2 ^ 53).
  { assert (2 ^ Zpos (digits2_pos m1) <= 2 ^ 53) by (apply Z.pow_le_mono_r; lia). lia. }
  assert (P1 : 0 < 2 ^ (e1 + 1074)) by (apply Z.pow_pos_nonneg; lia).
  assert (P2 : 2 * 2 ^ (e1 + 1074) <= 2 ^ (e2 + 1074)).
  { rewrite <- Z.pow_succ_r by lia. apply Z.pow_le_mono_r; lia. }
  change (2 ^ 53) with (2 * 2 ^ 52) in U1'. nia.
Qed.

Lemma compare_units_pos m1 e1 m2 e2 :
  bounded prec emax m1 e1 = true -> bounded prec emax m2 e2 = true ->
  match e1 ?= e2 with
  | Lt => Lt
  | Gt => Gt
  | Eq => Pos.compare_cont Eq m1 m2
  end = (Zpos m1 * 2 ^ (e1 + 1074) ?= Zpos m2 * 2 ^ (e2 + 1074)).
Proof.
  intros B1 B2. destruct (Z.compare_spec e1 e2) as [He|He|He].
  - subst e2. rewrite pos_compare_cont_eq.
    destruct (canon_facts _ _ B1) as [[L1 _] _].
    assert (0 < 2 ^ (e1 + 1074)) by (apply Z.pow_pos_nonneg; lia).
    symmetry. destruct (Z.compare_spec (Zpos m1) (Zpos m2)) as [Hm|Hm|Hm].
    + rewrite Hm. apply Z.compare_refl.
    + apply Z.compare_lt_iff. nia.
    + apply Z.compare_gt_iff. nia.
  - symmetry. apply Z.compare_lt_iff. apply units_lt_of_exp; assumption.
  - symmetry. apply Z.compare_gt_iff. apply units_lt_of_exp; assumption.
Qed.

Lemma SFcompare_units x y :
  valid_binary x = true -> valid_binary y = true ->
  SFfinite x = true -> SFfinite y = true ->
  SFcompare x y = Some (SFunits x ?= SFunits y).
Proof.
  intros Vx Vy Fx Fy.
  destruct x as [sx|sx| |sx mx ex]; try discriminate;
  destruct y as [sy|sy| |sy my ey]; try discriminate; cbn [SFcompare SFunits].
  - reflexivity.
  - destruct (canon_facts _ _ Vy) as [[Ly _] _].
    assert (0 < Zpos my * 2 ^ (ey + 1074))
      by (apply Z.mul_pos_pos; [lia | apply Z.pow_pos_nonneg; lia]).
    f_equal. symmetry. destruct sy; cbn [cond_Zopp].
    + apply Z.compare_gt_iff. lia.
    + apply Z.compare_lt_iff. lia.
  - destruct (canon_facts _ _ Vx) as [[Lx _] _].
    assert (0 < Zpos mx * 2 ^ (ex + 1074))
      by (apply Z.mul_pos_pos; [lia | apply Z.pow_pos_nonneg; lia]).
    f_equal. symmetry. destruct sx; cbn [cond_Zopp].
    + apply Z.compare_lt_iff. lia.
    + apply Z.compare_gt_iff. lia.
  - cbn [valid_binary] in Vx, Vy.
    destruct (canon_facts _ _ Vx) as [[Lx _] _].
    destruct (canon_facts _ _ Vy) as [[Ly _] _].
    assert (0 < Zpos mx * 2 ^ (ex + 1074))
      by (apply Z.mul_pos_pos; [lia | apply Z.pow_pos_nonneg; lia]).
    assert (0 < Zpos my * 2 ^ (ey + 1074))
      by (apply Z.mul_pos_pos; [lia | apply Z.pow_pos_nonneg; lia]).
    f_equal. destruct sx, sy; cbn [cond_Zopp].
    + rewrite Z.compare_opp.
      rewrite <- (compare_units_pos my ey mx ex) by assumption.
      rewrite (Z.compare_antisym ex ey), (Pos.compare_cont_antisym mx my Eq).
      destruct (ex ?= ey); reflexivity.
    + symmetry. apply Z.compare_lt_iff. lia.
    + symmetry. apply Z.compare_gt_iff. lia.
    + apply compare_units_pos; assumption.
Qed.


(** *** Exact sums and differences *)

Lemma shl_align_fst m e ez :
  ez <= e -> Zpos (fst (shl_align m e ez)) = Zpos m * 2 ^ (e - ez).
Proof.
  intros H. unfold shl_align. destruct (ez - e) as [|p|p] eqn:Hp; cbn [fst].
  - replace (e - ez) with 0 by lia. simpl. lia.
  - lia.
  - rewrite iter_xO_pow2. do 2 f_equal. lia.
Qed.

Lemma aligned_units s m e ez :
  -1074 <= ez -> ez <= e ->
  cond_Zopp s (Zpos (fst (shl_align m e ez))) * 2 ^ (ez + 1074)
  = SFunits (S754_finite s m e).
Proof.
  intros H1 H2. rewrite shl_align_fst by assumption. cbn [SFunits].
  replace (e + 1074) with ((e - ez) + (ez + 1074)) by lia.
  rewrite (Z.pow_add_r 2 (e - ez)) by lia. destruct s; cbn [cond_Zopp]; ring.
Qed.

Lemma normalize_units S E z :
  -1074 <= E -> valid_binary z = true -> SFfinite z = true ->
  S * 2 ^ (E + 1074) = SFunits z -> S <> 0 ->
  binary_normalize prec emax S E false = z.
Proof.
  intros HE Vz Fz Hv HS.
  assert (P : 0 < 2 ^ (E + 1074)) by (apply Z.pow_pos_nonneg; lia).
  destruct z as [sz|sz| |sz mz ez]; try discriminate; cbn [SFunits] in Hv.
  - nia.
  - cbn [valid_binary] in Vz. destruct (canon_facts _ _ Vz) as [[Lz _] _].
    assert (Q : 0 < Zpos mz * 2 ^ (ez + 1074))
      by (apply Z.mul_pos_pos; [lia | apply Z.pow_pos_nonneg; lia]).
    destruct S as [|p|p]; [congruence | |]; cbn [binary_normalize].
    + destruct sz; cbn [cond_Zopp] in Hv; [nia|].
      apply round_units; assumption.
    + destruct sz; cbn [cond_Zopp] in Hv; [|nia].
      apply round_units; try assumption.
      change (Z.neg p) with (- Zpos p) in Hv. lia.
Qed.

Lemma SFadd_exact x y z :
  valid_binary x = true -> valid_binary y = true -> valid_binary z = true ->
  SFfinite x = true -> SFfinite y = true -> SFfinite z = true ->
  SFunits z = SFunits x + SFunits y -> SFunits z <> 0 ->
  SF64add x y = z.
Proof.
  intros Vx Vy Vz Fx Fy Fz Hv Hnz.
  destruct x as [sx|sx| |sx mx ex]; try discriminate;
  destruct y as [sy|sy| |sy my ey]; try discriminate.
  - cbn [SFunits] in Hv. lia.
  - cbn [SFunits] in Hv. rewrite Z.add_0_l in Hv.
    change (SF64add (S754_zero sx) (S754_finite sy my ey)) with (S754_finite sy my ey).
    destruct z as [sz|sz| |sz mz ez]; try discriminate; [cbn [SFunits] in Hnz; lia|].
    cbn [valid_binary] in Vy, Vz. cbn [SFunits] in Hv.
    destruct (canon_facts _ _ Vy) as [[Ly _] _]. destruct (canon_facts _ _ Vz) as [[Lz _] _].
    assert (0 < Zpos my * 2 ^ (ey + 1074))
      by (apply Z.mul_pos_pos; [lia | apply Z.pow_pos_nonneg; lia]).
    assert (0 < Zpos mz * 2 ^ (ez + 1074))
      by (apply Z.mul_pos_pos; [lia | apply Z.pow_pos_nonneg; lia]).
    assert (sz = sy) by (destruct sz, sy; cbn [cond_Zopp] in Hv; lia || reflexivity).
    subst sz.
    destruct (canon_unique mz ez my ey Vz Vy) as [-> ->]; [|reflexivity].
    destruct sy; cbn [cond_Zopp] in Hv; lia.
  - cbn [SFunits] in Hv. rewrite Z.add_0_r in Hv.
    change (SF64add (S754_finite sx mx ex) (S754_zero sy)) with (S754_finite sx mx ex).
    destruct z as [sz|sz| |sz mz ez]; try discriminate; [cbn [SFunits] in Hnz; lia|].
    cbn [valid_binary] in Vx, Vz. cbn [SFunits] in Hv.
    destruct (canon_facts _ _ Vx) as [[Lx _] _]. destruct (canon_facts _ _ Vz) as [[Lz _] _].
    assert (0 < Zpos mx * 2 ^ (ex + 1074))
      by (apply Z.mul_pos_pos; [lia | apply Z.pow_pos_nonneg; lia]).
    assert (0 < Zpos mz * 2 ^ (ez + 1074))
      by (apply Z.mul_pos_pos; [lia | apply Z.pow_pos_nonneg; lia]).
    assert (sz = sx) by (destruct sz, sx; cbn [cond_Zopp] in Hv; lia || reflexivity).
    subst sz.
    destruct (canon_unique mz ez mx ex Vz Vx) as [-> ->]; [|reflexivity].
    destruct sx; cbn [cond_Zopp] in Hv; lia.
  - cbn [valid_binary] in Vx, Vy.
    destruct (canon_facts _ _ Vx) as [[Lx _] _]. destruct (canon_facts _ _ Vy) as [[Ly _] _].
    unfold SF64add, SFadd. cbv zeta.
    apply normalize_units; try assumption; try lia.
    + rewrite Z.mul_add_distr_r, !aligned_units by lia. congruence.
    + intro H0. apply Hnz. rewrite Hv.
      rewrite <- (aligned_units sx mx ex (Z.min ex ey)) by lia.
      rewrite <- (aligned_units sy my ey (Z.min ex ey)) by lia.
      rewrite <- Z.mul_add_distr_r, H0. reflexivity.
Qed.

Lemma SFsub_exact x y z :
  valid_binary x = true -> valid_binary y = true -> valid_binary z = true ->
  SFfinite x = true -> SFfinite y = true -> SFfinite z = true ->
  SFunits z = SFunits x - SFunits y -> SFunits z <> 0 ->
  SF64sub x y = z.
Proof.
  intros Vx Vy Vz Fx Fy Fz Hv Hnz.
  destruct x as [sx|sx| |sx mx ex]; try discriminate;
  destruct y as [sy|sy| |sy my ey]; try discriminate.
  - cbn [SFunits] in Hv. lia.
  - cbn [SFunits] in Hv. rewrite Z.sub_0_l in Hv.
    change (SF64sub (S754_zero sx) (S754_finite sy my ey))
      with (S754_finite (negb sy) my ey).
    destruct z as [sz|sz| |sz mz ez]; try discriminate; [cbn [SFunits] in Hnz; lia|].
    cbn [valid_binary] in Vy, Vz. cbn [SFunits] in Hv.
    destruct (canon_facts _ _ Vy) as [[Ly _] _]. destruct (canon_facts _ _ Vz) as [[Lz _] _].
    assert (0 < Zpos my * 2 ^ (ey + 1074))
      by (apply Z.mul_pos_pos; [lia | apply Z.pow_pos_nonneg; lia]).
    assert (0 < Zpos mz * 2 ^ (ez + 1074))
      by (apply Z.mul_pos_pos; [lia | apply Z.pow_pos_nonneg; lia]).
    assert (sz = negb sy) by (destruct sz, sy; cbn [cond_Zopp negb] in *; lia || reflexivity).
    subst sz.
    destruct (canon_unique mz ez my ey Vz Vy) as [-> ->]; [|reflexivity].
    destruct sy; cbn [cond_Zopp negb] in Hv; lia.
  - cbn [SFunits] in Hv. rewrite Z.sub_0_r in Hv.
    change (SF64sub (S754_finite sx mx ex) (S754_zero sy)) with (S754_finite sx mx ex).
    destruct z as [sz|sz| |sz mz ez]; try discriminate; [cbn [SFunits] in Hnz; lia|].
    cbn [valid_binary] in Vx, Vz. cbn [SFunits] in Hv.
    destruct (canon_facts _ _ Vx) as [[Lx _] _]. destruct (canon_facts _ _ Vz) as [[Lz _] _].
    assert (0 < Zpos mx * 2 ^ (ex + 1074))
      by (apply Z.mul_pos_pos; [lia | apply Z.pow_pos_nonneg; lia]).
    assert (0 < Zpos mz * 2 ^ (ez + 1074))
      by (apply Z.mul_pos_pos; [lia | apply Z.pow_pos_nonneg; lia]).
    assert (sz = sx) by (destruct sz, sx; cbn [cond_Zopp] in Hv; lia || reflexivity).
    subst sz.
    destruct (canon_unique mz ez mx ex Vz Vx) as [-> ->]; [|reflexivity].
    destruct sx; cbn [cond_Zopp] in Hv; lia.
  - cbn [valid_binary] in Vx, Vy.
    destruct (canon_facts _ _ Vx) as [[Lx _] _]. destruct (canon_facts _ _ Vy) as [[Ly _] _].
    unfold SF64sub, SFsub. cbv zeta.
    apply normalize_units; try assumption; try lia.
    + rewrite Z.mul_sub_distr_r, !aligned_units by lia. congruence.
    + intro H0. apply Hnz. rewrite Hv.
      rewrite <- (aligned_units sx mx ex (Z.min ex ey)) by lia.
      rewrite <- (aligned_units sy my ey (Z.min ex ey)) by lia.
      rewrite <- Z.mul_sub_distr_r, H0. reflexivity.
Qed.


Lemma SFadd_units x y :
  valid_binary x = true -> valid_binary y = true ->
  SFfinite x = true -> SFfinite y = true ->
  (exists z, valid_binary z = true /\ SFfinite z = true /\
             SFunits z = SFunits x + SFunits y) ->
  SFfinite (SF64add x y) = true /\ SFunits (SF64add x y) = SFunits x + SFunits y.
Proof.
  intros Vx Vy Fx Fy [z [Vz [Fz Hz]]].
  destruct (Z.eq_dec (SFunits z) 0) as [H0|Hnz].
  - rewrite <- Hz, H0.
    destruct x as [sx|sx| |sx mx ex]; try discriminate;
    destruct y as [sy|sy| |sy my ey]; try discriminate.
    + destruct sx, sy; split; reflexivity.
    + exfalso. cbn [valid_binary] in Vy. destruct (canon_facts _ _ Vy) as [[Ly _] _].
      assert (0 < Zpos my * 2 ^ (ey + 1074))
        by (apply Z.mul_pos_pos; [lia | apply Z.pow_pos_nonneg; lia]).
      cbn [SFunits] in Hz. destruct sy; cbn [cond_Zopp] in Hz; lia.
    + exfalso. cbn [valid_binary] in Vx. destruct (canon_facts _ _ Vx) as [[Lx _] _].
      assert (0 < Zpos mx * 2 ^ (ex + 1074))
        by (apply Z.mul_pos_pos; [lia | apply Z.pow_pos_nonneg; lia]).
      cbn [SFunits] in Hz. destruct sx; cbn [cond_Zopp] in Hz; lia.
    + cbn [valid_binary] in Vx, Vy.
      destruct (canon_facts _ _ Vx) as [[Lx _] _]. destruct (canon_facts _ _ Vy) as [[Ly _] _].
      unfold SF64add, SFadd. cbv zeta.
      assert (P : 0 < 2 ^ (Z.min ex ey + 1074)) by (apply Z.pow_pos_nonneg; lia).
      pose proof (aligned_units sx mx ex (Z.min ex ey)) as A1.
      pose proof (aligned_units sy my ey (Z.min ex ey)) as A2.
      set (a := cond_Zopp sx (Zpos (fst (shl_align mx ex (Z.min ex ey))))) in *.
      set (b := cond_Zopp sy (Zpos (fst (shl_align my ey (Z.min ex ey))))) in *.
      assert (Hab : a + b = 0) by (specialize (A1 ltac:(lia) ltac:(lia));
        specialize (A2 ltac:(lia) ltac:(lia)); nia).
      rewrite Hab. split; reflexivity.
  - rewrite (SFadd_exact x y z) by assumption. split; assumption.
Qed.

Lemma SFsub_units x y :
  valid_binary x = true -> valid_binary y = true ->
  SFfinite x = true -> SFfinite y = true ->
  (exists z, valid_binary z = true /\ SFfinite z = true /\
             SFunits z = SFunits x - SFunits y) ->
  SFfinite (SF64sub x y) = true /\ SFunits (SF64sub x y) = SFunits x - SFunits y.
Proof.
  intros Vx Vy Fx Fy [z [Vz [Fz Hz]]].
  destruct (Z.eq_dec (SFunits z) 0) as [H0|Hnz].
  - rewrite <- Hz, H0.
    destruct x as [sx|sx| |sx mx ex]; try discriminate;
    destruct y as [sy|sy| |sy my ey]; try discriminate.
    + destruct sx, sy; split; reflexivity.
    + exfalso. cbn [valid_binary] in Vy. destruct (canon_facts _ _ Vy) as [[Ly _] _].
      assert (0 < Zpos my * 2 ^ (ey + 1074))
        by (apply Z.mul_pos_pos; [lia | apply Z.pow_pos_nonneg; lia]).
      cbn [SFunits] in Hz. destruct sy; cbn [cond_Zopp] in Hz; lia.
    + exfalso. cbn [valid_binary] in Vx. destruct (canon_facts _ _ Vx) as [[Lx _] _].
      assert (0 < Zpos mx * 2 ^ (ex + 1074))
        by (apply Z.mul_pos_pos; [lia | apply Z.pow_pos_nonneg; lia]).
      cbn [SFunits] in Hz. destruct sx; cbn [cond_Zopp] in Hz; lia.
    + cbn [valid_binary] in Vx, Vy.
      destruct (canon_facts _ _ Vx) as [[Lx _] _]. destruct (canon_facts _ _ Vy) as [[Ly _] _].
      unfold SF64sub, SFsub. cbv zeta.
      assert (P : 0 < 2 ^ (Z.min ex ey + 1074)) by (apply Z.pow_pos_nonneg; lia).
      pose proof (aligned_units sx mx ex (Z.min ex ey)) as A1.
      pose proof (aligned_units sy my ey (Z.min ex ey)) as A2.
      set (a := cond_Zopp sx (Zpos (fst (shl_align mx ex (Z.min ex ey))))) in *.
      set (b := cond_Zopp sy (Zpos (fst (shl_align my ey (Z.min ex ey))))) in *.
      assert (Hab : a - b = 0) by (specialize (A1 ltac:(lia) ltac:(lia));
        specialize (A2 ltac:(lia) ltac:(lia)); nia).
      rewrite Hab. split; reflexivity.
  - rewrite (SFsub_exact x y z) by assumption. split; assumption.
Qed.


Lemma representable_0 : representable 0.
Proof. exists (S754_zero false). repeat split. Qed.

Lemma representable_mant (s : bool) P F :
  0 < P < 2 ^ 53 -> -1074 <= F -> P * 2 ^ (F + 1074) < 2 ^ 2098 ->
  representable (cond_Zopp s (P * 2 ^ (F + 1074))).
Proof.
  intros HP HF Hlt. destruct P as [|p|p]; try lia.
  destruct (digits_units p F HF) as [q [Hq Dq]].
  assert (Hd : Zpos (digits2_pos p) + F <= 1024).
  { pose proof (digits_bounds q) as [Bl _]. rewrite Hq, Dq in Bl.
    destruct (Z_lt_le_dec 1024 (Zpos (digits2_pos p) + F)); [|lia].
    assert (2 ^ 2098 <= 2 ^ (Zpos (digits2_pos p) + (F + 1074) - 1))
      by (apply Z.pow_le_mono_r; lia). lia. }
  destruct (norm_bounded p F) as [Hb Hv]; try lia.
  exists (S754_finite s (norm_m p F) (norm_e p F)). repeat split.
  - exact Hb.
  - cbn [SFunits]. rewrite Hv. reflexivity.
Qed.

(** *** Signs of rounded results *)


Lemma shr_1_nonneg r : 0 <= shr_m r -> 0 <= shr_m (shr_1 r).
Proof.
  destruct r as [m r s]. cbn [shr_m]. intro H.
  destruct m as [|[p|p|]|p]; cbn; lia.
Qed.

Lemma shr_iter_nonneg n r : 0 <= shr_m r -> 0 <= shr_m (Nat.iter n shr_1 r).
Proof.
  induction n as [|n IH]; intro H; [exact H|].
  rewrite Nat.iter_succ. apply shr_1_nonneg, IH, H.
Qed.

Lemma shr_nonneg r e n : 0 <= shr_m r -> 0 <= shr_m (fst (shr r e n)).
Proof.
  intro H. destruct n as [|p|p]; cbn [shr fst]; try exact H.
  rewrite iter_pos_nat. apply shr_iter_nonneg, H.
Qed.

Lemma shr_record_of_loc_m m l : shr_m (shr_record_of_loc m l) = m.
Proof. destruct l as [|[| |]]; reflexivity. Qed.

Lemma round_nearest_even_nonneg m l : 0 <= m -> 0 <= round_nearest_even m l.
Proof.
  intro H. destruct l as [|[| |]]; cbn [round_nearest_even]; try lia.
  destruct (Z.even m); lia.
Qed.

Lemma binary_round_aux_nonneg M E l :
  0 <= M -> SFnonneg (binary_round_aux prec emax false M E l) = true.
Proof.
  intro HM. unfold binary_round_aux, shr_fexp.
  destruct (shr (shr_record_of_loc M l) E
              (fexp prec emax (Zdigits2 M + E) - E)) as [mrs' e'] eqn:H1.
  assert (N1 : 0 <= shr_m mrs').
  { replace mrs' with (fst (shr (shr_record_of_loc M l) E
              (fexp prec emax (Zdigits2 M + E) - E))) by (rewrite H1; reflexivity).
    apply shr_nonneg. rewrite shr_record_of_loc_m. exact HM. }
  set (m1 := round_nearest_even (shr_m mrs') (loc_of_shr_record mrs')).
  assert (N2 : 0 <= m1) by (apply round_nearest_even_nonneg, N1).
  destruct (shr (shr_record_of_loc m1 loc_Exact) e'
              (fexp prec emax (Zdigits2 m1 + e') - e')) as [mrs'' e''] eqn:H2.
  assert (N3 : 0 <= shr_m mrs'').
  { replace mrs'' with (fst (shr (shr_record_of_loc m1 loc_Exact) e'
              (fexp prec emax (Zdigits2 m1 + e') - e'))) by (rewrite H2; reflexivity).
    apply shr_nonneg. rewrite shr_record_of_loc_m. exact N2. }
  destruct (shr_m mrs'') as [|p|p]; try reflexivity; try lia.
  destruct (e'' <=? emax - prec); reflexivity.
Qed.

Lemma SFdiv_nonneg x y :
  SFnonneg x = true -> SFfinite x = true ->
  (exists m e, y = S754_finite false m e) ->
  SFnonneg (SF64div x y) = true.
Proof.
  intros Nx Fx [my [ey ->]].
  destruct x as [sx|sx| |sx mx ex]; try discriminate.
  - reflexivity.
  - destruct sx; try discriminate.
    unfold SF64div, SFdiv.
    destruct (SFdiv_core_binary prec emax (Zpos mx) ex (Zpos my) ey) as [[mz ez] lz] eqn:Hc.
    cbn [xorb]. apply binary_round_aux_nonneg.
    unfold SFdiv_core_binary in Hc. cbv zeta in Hc.
    match type of Hc with
    | (let '(q, r) := Z.div_eucl ?a ?b in _) = _ =>
        pose proof (Z_div_mod a b ltac:(lia)) as Hdm;
        assert (Ha : 0 <= a);
        [| destruct (Z.div_eucl a b) as [q r] eqn:Hqr ]
    end.
    + destruct (ex - ey - _) as [|p|p]; try lia. rewrite Z.shiftl_mul_pow2 by lia.
      apply Z.mul_nonneg_nonneg; [lia | apply Z.pow_nonneg; lia].
    + inversion Hc; subst. destruct Hdm as [Hd Hr]. nia.
Qed.

Lemma SFleb_zero_nonneg x : SFnonneg x = true -> SFleb (S754_zero false) x = true.
Proof.
  destruct x as [sx|sx| |sx mx ex]; try discriminate; try destruct sx;
    try discriminate; reflexivity.
Qed.

Lemma SFcompare_antisym x y :
  SFcompare y x = option_map CompOpp (SFcompare x y).
Proof.
  destruct x as [sx|sx| |sx mx ex]; destruct y as [sy|sy| |sy my ey];
    try reflexivity; cbn [SFcompare option_map];
    try (destruct sx; reflexivity); try (destruct sy; reflexivity);
    try (destruct sx, sy; reflexivity).
  destruct sx, sy; try reflexivity; f_equal;
    rewrite (Z.compare_antisym ex ey);
    destruct (ex ?= ey); cbn [CompOpp]; try reflexivity.
  - f_equal. rewrite (Pos.compare_cont_antisym mx my Eq). reflexivity.
  - rewrite (Pos.compare_cont_antisym mx my Eq). reflexivity.
Qed.

Lemma SFltb_not_leb x y : SFltb x y = true -> SFleb y x = false.
Proof.
  unfold SFltb, SFleb. rewrite (SFcompare_antisym x y).
  destruct (SFcompare x y) as [[| |]|]; cbn; congruence.
Qed.


End F64Facts.

(** ** Exact quotients, remainders and products that stay finite *)

Module F64DivFacts.

Import F64 F64Facts.

Lemma new_location_0 n : new_location n 0 = loc_Exact.
Proof.
  unfold new_location. destruct (Z.even n); reflexivity.
Qed.

Lemma normal_of_ge mx ex my ey :
  bounded prec emax mx ex = true -> bounded prec emax my ey = true ->
  Zpos (digits2_pos my) = 53 ->
  Zpos my * 2 ^ (ey + 1074) <= Zpos mx * 2 ^ (ex + 1074) ->
  Zpos (digits2_pos mx) = 53 /\ ey <= ex.
Proof.
  intros Bx By Dy Hle.
  destruct (canon_facts _ _ Bx) as [[Lx _] [Dx Nx]].
  destruct (canon_facts _ _ By) as [[Ly _] _].
  assert (Hexp : ey <= ex).
  { destruct (Z_lt_le_dec ex ey) as [Hlt|]; [|assumption].
    pose proof (units_lt_of_exp mx ex my ey Bx By Hlt). lia. }
  split; [|exact Hexp].
  destruct (Z.eq_dec ex (-1074)) as [->|Hne]; [|apply Nx; lia].
  assert (ey = -1074) by lia. subst ey. simpl (-1074 + 1074) in Hle.
  change (2 ^ 0) with 1 in Hle. rewrite !Z.mul_1_r in Hle.
  pose proof (digits_bounds my) as [Bl _]. rewrite Dy in Bl.
  apply digits_unique. pose proof (digits_bounds mx) as [_ Bu].
  assert (2 ^ Zpos (digits2_pos mx) <= 2 ^ 53) by (apply Z.pow_le_mono_r; lia).
  lia.
Qed.

(** The quotient of two floats that is an integer below [2 ^ 53]. *)
Lemma SFdiv_exact mx ex my ey k :
  bounded prec emax mx ex = true -> bounded prec emax my ey = true ->
  Zpos (digits2_pos my) = 53 ->
  0 < k < 2 ^ 53 ->
  Zpos mx * 2 ^ (ex + 1074) = k * (Zpos my * 2 ^ (ey + 1074)) ->
  exists m e, bounded prec emax m e = true /\
    Zpos m * 2 ^ (e + 1074) = k * 2 ^ 1074 /\
    SF64div (S754_finite false mx ex) (S754_finite false my ey) = S754_finite false m e.
Proof.
  intros Bx By Dy Hk Hv.
  destruct (canon_facts _ _ Bx) as [[Lx Ux] _].
  destruct (canon_facts _ _ By) as [[Ly Uy] _].
  assert (Py : 0 < Zpos my * 2 ^ (ey + 1074))
    by (apply Z.mul_pos_pos; [lia | apply Z.pow_pos_nonneg; lia]).
  destruct (normal_of_ge mx ex my ey Bx By Dy) as [Dx Hexp]; [nia|].
  set (d := ex - ey).
  assert (Hd : 0 <= d) by (unfold d; lia).
  (* mx * 2^d = k * my *)
  assert (Hv' : Zpos mx * 2 ^ d = k * Zpos my).
  { replace (ex + 1074) with (d + (ey + 1074)) in Hv by (unfold d; lia).
    rewrite Z.pow_add_r in Hv by lia.
    assert (0 < 2 ^ (ey + 1074)) by (apply Z.pow_pos_nonneg; lia).
    apply (Z.mul_reg_r _ _ (2 ^ (ey + 1074))); [lia|]. lia. }
  pose proof (digits_bounds mx) as [Blx Bux]. rewrite Dx in Blx, Bux.
  pose proof (digits_bounds my) as [Bly Buy]. rewrite Dy in Bly, Buy.
  change (2 ^ (53 - 1)) with (2 ^ 52) in *.
  assert (Hd53 : d <= 53).
  { destruct (Z_lt_le_dec 53 d) as [Hgt|]; [|assumption].
    assert (2 ^ 54 <= 2 ^ d) by (apply Z.pow_le_mono_r; lia).
    change (2 ^ 54) with (2 * 2 ^ 53) in *. change (2 ^ 53) with (2 * 2 ^ 52) in *. nia. }
  (* the canonical form of k *)
  destruct k as [|pk|pk]; try lia.
  assert (Hdk53 : Zpos (digits2_pos pk) <= 53).
  { pose proof (digits_bounds pk) as [Bl _].
    destruct (Z_lt_le_dec 53 (Zpos (digits2_pos pk))); [|lia].
    assert (2 ^ 53 <= 2 ^ (Zpos (digits2_pos pk) - 1)) by (apply Z.pow_le_mono_r; lia). lia. }
  destruct (norm_bounded pk 0) as [Bk Vk]; try lia.
  exists (norm_m pk 0), (norm_e pk 0). split; [exact Bk|]. split; [exact Vk|].
  unfold SF64div, SFdiv, SFdiv_core_binary. cbv zeta.
  change (Zdigits2 (Zpos mx)) with (Zpos (digits2_pos mx)).
  change (Zdigits2 (Zpos my)) with (Zpos (digits2_pos my)).
  rewrite Dx, Dy, fexp_eq.
  replace (53 + ex - (53 + ey)) with d by (unfold d; lia).
  fold d. unfold fexp64.
  replace (Z.min (Z.max (d - 53) (-1074)) d) with (d - 53) by lia.
  replace (d - (d - 53)) with 53 by lia.
  rewrite Z.shiftl_mul_pow2 by lia.
  assert (Hq : Zpos mx * 2 ^ 53 = Zpos my * (Zpos pk * 2 ^ (53 - d)) + 0).
  { replace 53 with (d + (53 - d)) at 1 by lia.
    rewrite Z.pow_add_r by lia. rewrite Z.mul_assoc, Hv'. ring. }
  assert (Hdiv : Z.div_eucl (Zpos mx * 2 ^ 53) (Zpos my) = (Zpos pk * 2 ^ (53 - d), 0)).
  { pose proof (Z_div_mod (Zpos mx * 2 ^ 53) (Zpos my) ltac:(lia)) as Hdm.
    destruct (Z.div_eucl (Zpos mx * 2 ^ 53) (Zpos my)) as [q r].
    destruct Hdm as [Heq Hr].
    assert (Hqq : q = Zpos pk * 2 ^ (53 - d) /\ r = 0).
    { apply (Zdiv_unique_full (Zpos mx * 2 ^ 53) (Zpos my) (Zpos pk * 2 ^ (53 - d)) 0)
        in Hq as Hq1; [| red; lia].
      apply (Zdiv_unique_full (Zpos mx * 2 ^ 53) (Zpos my) q r) in Heq as Hq2;
        [| red; lia].
      split; [congruence|]. subst q. nia. }
    destruct Hqq as [-> ->]. reflexivity. }
  rewrite Hdiv, new_location_0. cbn [xorb].
  assert (P : 0 < Zpos pk * 2 ^ (53 - d))
    by (apply Z.mul_pos_pos; [lia | apply Z.pow_pos_nonneg; lia]).
  destruct (Zpos pk * 2 ^ (53 - d)) as [|q|q] eqn:Eq; try lia.
  (* q * 2^(d-53) = k, whose canonical exponent is not below d - 53 *)
  assert (Dq : Zpos (digits2_pos q) = Zpos (digits2_pos pk) + (53 - d))
    by (apply digits_mul_pow2; [lia | symmetry; exact Eq]).
  assert (Hdk : d <= Zpos (digits2_pos pk)).
  { pose proof (digits_bounds pk) as [_ Bu].
    destruct (Z_lt_le_dec (Zpos (digits2_pos pk)) d) as [Hlt|]; [|assumption].
    assert (2 * 2 ^ Zpos (digits2_pos pk) <= 2 ^ d).
    { rewrite <- Z.pow_succ_r by lia. apply Z.pow_le_mono_r; lia. }
    change (2 ^ 53) with (2 * 2 ^ 52) in *. nia. }
  apply binary_round_aux_exact; [exact Bk | |].
  - unfold norm_e, fexp64. lia.
  - unfold norm_m, norm_e, fexp64.
    replace (Z.max (Zpos (digits2_pos pk) + 0 - 53) (-1074))
      with (Zpos (digits2_pos pk) - 53) by lia.
    assert (P2 : 0 < Zpos pk * 2 ^ (0 - (Zpos (digits2_pos pk) - 53))).
    { apply Z.mul_pos_pos; [lia | apply Z.pow_pos_nonneg; lia]. }
    rewrite Z2Pos.id by exact P2.
    rewrite <- Eq, <- Z.mul_assoc, <- Z.pow_add_r by lia.
    do 2 f_equal. lia.
Qed.



(** Right shifts do not grow a mantissa, and rounding adds at most 1. *)
Lemma shr_1_le r : 0 <= shr_m r -> shr_m (shr_1 r) <= shr_m r.
Proof.
  destruct r as [m r s]. cbn [shr_m]. intro H.
  destruct m as [|[p|p|]|p]; cbn; lia.
Qed.

Lemma shr_iter_le n r : 0 <= shr_m r -> 0 <= shr_m (Nat.iter n shr_1 r) <= shr_m r.
Proof.
  induction n as [|n IH]; intro H; [cbn; lia|].
  rewrite Nat.iter_succ. specialize (IH H).
  pose proof (shr_1_le (Nat.iter n shr_1 r) ltac:(lia)).
  pose proof (shr_1_nonneg (Nat.iter n shr_1 r) ltac:(lia)). lia.
Qed.

Lemma shr_bounds r e n :
  0 <= shr_m r ->
  0 <= shr_m (fst (shr r e n)) <= shr_m r /\ snd (shr r e n) = Z.max e (e + n).
Proof.
  intro H. destruct n as [|p|p]; cbn [shr fst snd]; try (split; lia).
  rewrite iter_pos_nat. split; [apply shr_iter_le, H | lia].
Qed.

Lemma round_nearest_even_le m l : m <= round_nearest_even m l <= m + 1.
Proof.
  destruct l as [|[| |]]; cbn [round_nearest_even]; try lia.
  destruct (Z.even m); lia.
Qed.

Lemma Zdigits2_le m k : 0 <= m < 2 ^ k -> 0 <= k -> Zdigits2 m <= k.
Proof.
  intros [H0 Hlt] Hk. destruct m as [|p|p]; cbn [Zdigits2]; try lia.
  pose proof (digits_bounds p) as [Bl _].
  destruct (Z_lt_le_dec k (Zpos (digits2_pos p))); [|lia].
  assert (2 ^ k <= 2 ^ (Zpos (digits2_pos p) - 1)) by (apply Z.pow_le_mono_r; lia). lia.
Qed.

Lemma Zdigits2_nonneg m : 0 <= Zdigits2 m.
Proof. destruct m; cbn; lia. Qed.

(** A product of two mantissas at an exponent that is not positive rounds
    to a number. *)
Lemma binary_round_aux_finite s M E l :
  0 <= M < 2 ^ 106 -> E <= 0 ->
  SFfinite (binary_round_aux prec emax s M E l) = true.
Proof.
  intros HM HE. unfold binary_round_aux, shr_fexp.
  change (fexp prec emax) with fexp64.
  pose proof (shr_bounds (shr_record_of_loc M l) E (fexp64 (Zdigits2 M + E) - E)) as B1.
  rewrite shr_record_of_loc_m in B1. specialize (B1 ltac:(lia)).
  destruct (shr (shr_record_of_loc M l) E (fexp64 (Zdigits2 M + E) - E))
    as [mrs' e'] eqn:H1. cbn [fst snd] in B1. destruct B1 as [M1 E1].
  pose proof (Zdigits2_le M 106 HM ltac:(lia)) as DM.
  pose proof (Zdigits2_nonneg M) as DM0.
  assert (E1' : e' <= 53) by (unfold fexp64 in E1; lia).
  set (m1 := round_nearest_even (shr_m mrs') (loc_of_shr_record mrs')).
  pose proof (round_nearest_even_le (shr_m mrs') (loc_of_shr_record mrs')) as R1.
  fold m1 in R1.
  assert (Hm1 : 0 <= m1 < 2 ^ 107).
  { change (2 ^ 107) with (2 * 2 ^ 106). lia. }
  pose proof (Zdigits2_le m1 107 Hm1 ltac:(lia)) as Dm1.
  pose proof (shr_bounds (shr_record_of_loc m1 loc_Exact) e'
                (fexp64 (Zdigits2 m1 + e') - e')) as B2.
  rewrite shr_record_of_loc_m in B2. specialize (B2 ltac:(lia)).
  destruct (shr (shr_record_of_loc m1 loc_Exact) e' (fexp64 (Zdigits2 m1 + e') - e'))
    as [mrs'' e''] eqn:H2. cbn [fst snd] in B2. destruct B2 as [M2 E2].
  assert (E2' : e'' <= 971) by (unfold fexp64 in E2; lia).
  destruct (shr_m mrs'') as [|p|p]; try reflexivity; try lia.
  change (emax - prec) with 971.
  destruct (Z.leb_spec e'' 971); [reflexivity | lia].
Qed.

Lemma SFmul_finite m1 e1 m2 e2 :
  bounded prec emax m1 e1 = true -> bounded prec emax m2 e2 = true ->
  e1 + e2 <= 0 ->
  SFfinite (SF64mul (S754_finite false m1 e1) (S754_finite false m2 e2)) = true /\
  SFnonneg (SF64mul (S754_finite false m1 e1) (S754_finite false m2 e2)) = true.
Proof.
  intros B1 B2 HE.
  destruct (canon_facts _ _ B1) as [_ [D1 _]].
  destruct (canon_facts _ _ B2) as [_ [D2 _]].
  pose proof (digits_bounds m1) as [_ U1]. pose proof (digits_bounds m2) as [_ U2].
  assert (2 ^ Zpos (digits2_pos m1) <= 2 ^ 53) by (apply Z.pow_le_mono_r; lia).
  assert (2 ^ Zpos (digits2_pos m2) <= 2 ^ 53) by (apply Z.pow_le_mono_r; lia).
  unfold SF64mul, SFmul. cbn [xorb]. split.
  - apply binary_round_aux_finite; [|exact HE].
    rewrite Pos2Z.inj_mul. change (2 ^ 106) with (2 ^ 53 * 2 ^ 53). nia.
  - apply binary_round_aux_nonneg. lia.
Qed.

(** The fraction of a representable value is representable. *)
Lemma representable_frac u :
  representable u -> 0 <= u -> representable (u mod 2 ^ 1074).
Proof.
  intros [z [V [F U]]] Hu. subst u.
  destruct z as [s|s| |s m e]; try discriminate; cbn [SFunits] in *.
  - apply representable_0.
  - cbn [valid_binary] in V. destruct (canon_facts _ _ V) as [[Le Ue] [Dm _]].
    assert (P : 0 < Zpos m * 2 ^ (e + 1074))
      by (apply Z.mul_pos_pos; [lia | apply Z.pow_pos_nonneg; lia]).
    destruct s; cbn [cond_Zopp] in *; [lia|].
    destruct (Z_lt_le_dec e 0) as [Hn|Hp].
    + replace (2 ^ 1074) with (2 ^ (- e) * 2 ^ (e + 1074)).
      2:{ rewrite <- Z.pow_add_r by lia. f_equal. lia. }
      assert (P1 : 0 < 2 ^ (- e)) by (apply Z.pow_pos_nonneg; lia).
      assert (P2 : 0 < 2 ^ (e + 1074)) by (apply Z.pow_pos_nonneg; lia).
      rewrite Z.mul_mod_distr_r by lia.
      pose proof (Z.mod_pos_bound (Zpos m) (2 ^ (- e)) P1) as [B0 B1].
      pose proof (Z.mod_le (Zpos m) (2 ^ (- e)) ltac:(lia) P1) as B2.
      pose proof (digits_bounds m) as [_ Bu].
      assert (2 ^ Zpos (digits2_pos m) <= 2 ^ 53) by (apply Z.pow_le_mono_r; lia).
      destruct (Z.eq_dec (Zpos m mod 2 ^ (- e)) 0) as [->|Hnz];
        [apply representable_0|].
      apply (representable_mant false); try lia.
      assert (2 ^ (e + 1074) <= 2 ^ 1074) by (apply Z.pow_le_mono_r; lia).
      change (2 ^ 2098) with (2 ^ 53 * (2 ^ 971 * 2 ^ 1074)).
      assert (0 < 2 ^ 971) by (apply Z.pow_pos_nonneg; lia). nia.
    + replace (e + 1074) with (e + 1074)%Z by reflexivity.
      rewrite (Z.pow_add_r 2 e 1074), Z.mul_assoc by lia.
      rewrite Z.mod_mul by (apply Z.pow_nonzero; lia). apply representable_0.
Qed.

(** An integer below [2 ^ 53] is representable. *)
Lemma representable_int n : 0 <= n < 2 ^ 53 -> representable (n * 2 ^ 1074).
Proof.
  intros Hn. destruct (Z.eq_dec n 0) as [->|Hnz]; [apply representable_0|].
  change (n * 2 ^ 1074) with (cond_Zopp false (n * 2 ^ (0 + 1074))).
  apply representable_mant; lia.
Qed.

End F64DivFacts.

(** ** A lower bound on rounded sums *)

Module F64RoundFacts.

Import F64 F64Facts F64DivFacts.

Lemma shr_1_div2 r : 0 <= shr_m r -> shr_m (shr_1 r) = shr_m r / 2.
Proof.
  destruct r as [m r s]. cbn [shr_m]. intro H.
  destruct m as [|[p|p|]|p]; cbn [shr_1 shr_m]; try lia; try reflexivity.
  - apply (Z.div_unique (Zpos p~1) 2 (Zpos p) 1); lia.
  - apply (Z.div_unique (Zpos p~0) 2 (Zpos p) 0); lia.
Qed.

Lemma shr_iter_div n r :
  0 <= shr_m r -> shr_m (Nat.iter n shr_1 r) = shr_m r / 2 ^ Z.of_nat n.
Proof.
  intro H. induction n as [|n IH].
  - cbn. rewrite Z.div_1_r. reflexivity.
  - rewrite Nat.iter_succ, shr_1_div2 by (apply shr_iter_nonneg, H).
    rewrite IH, Nat2Z.inj_succ, Z.pow_succ_r by lia.
    rewrite Z.div_div by (try apply Z.pow_pos_nonneg; lia).
    f_equal. ring.
Qed.

Lemma shr_div r e n :
  0 <= shr_m r -> 0 <= n ->
  shr_m (fst (shr r e n)) = shr_m r / 2 ^ n /\ snd (shr r e n) = e + n.
Proof.
  intros H Hn. destruct n as [|p|p]; try lia; cbn [shr fst snd].
  - rewrite Z.div_1_r. split; [reflexivity | lia].
  - rewrite iter_pos_nat, shr_iter_div, positive_nat_Z by exact H.
    split; reflexivity.
Qed.

Lemma Zdigits2_pos_bounds m : 0 < m -> 2 ^ (Zdigits2 m - 1) <= m < 2 ^ Zdigits2 m.
Proof.
  intro H. destruct m as [|p|p]; try lia. apply digits_bounds.
Qed.

(** Rounding [M * 2 ^ E], whose canonical exponent [f] is not below [E],
    gives a number that is not below the truncation of [M] to the exponent
    [f]. *)
Lemma binary_round_aux_lower M E :
  0 < M -> -1074 <= E ->
  let f := fexp64 (Zdigits2 M + E) in
  E <= f -> f <= 970 ->
  let z := binary_round_aux prec emax false M E loc_Exact in
  SFfinite z = true /\ M / 2 ^ (f - E) * 2 ^ (f + 1074) <= SFunits z.
Proof.
  intros HM HE f Hf Hf' z. unfold z, binary_round_aux, shr_fexp.
  change (fexp prec emax) with fexp64. fold f.
  cbn [shr_record_of_loc].
  pose proof (shr_div (Build_shr_record M false false) E (f - E)) as S1.
  cbn [shr_m] in S1. specialize (S1 ltac:(lia) ltac:(lia)).
  destruct (shr (Build_shr_record M false false) E (f - E)) as [mrs' e'] eqn:H1.
  cbn [fst snd] in S1. destruct S1 as [Hq He'].
  replace (E + (f - E)) with f in He' by lia. subst e'.
  set (q := M / 2 ^ (f - E)) in *.
  assert (P : 0 < 2 ^ (f - E)) by (apply Z.pow_pos_nonneg; lia).
  assert (Hq0 : 0 <= q) by (apply Z.div_pos; lia).
  (* q has at most 53 digits *)
  assert (Hq53 : q < 2 ^ 53).
  { pose proof (Zdigits2_pos_bounds M HM) as [_ Bu].
    apply Z.div_lt_upper_bound; [lia|].
    rewrite <- Z.pow_add_r by lia.
    assert (2 ^ Zdigits2 M <= 2 ^ (f - E + 53)).
    { apply Z.pow_le_mono_r; [lia|]. unfold f, fexp64. lia. }
    lia. }
  (* in the subnormal range it has fewer *)
  set (m1 := round_nearest_even (shr_m mrs') (loc_of_shr_record mrs')).
  pose proof (round_nearest_even_le (shr_m mrs') (loc_of_shr_record mrs')) as R1.
  fold m1 in R1. rewrite Hq in R1.
  assert (Pf : 0 < 2 ^ (f + 1074)) by (apply Z.pow_pos_nonneg; unfold f, fexp64; lia).
  destruct (Z.eq_dec m1 (2 ^ 53)) as [Hcarry|Hnc].
  - (* the mantissa carried to 2^53 *)
    rewrite Hcarry.
    change (Zdigits2 (2 ^ 53)) with 54.
    assert (Hn2 : fexp64 (54 + f) - f = 1) by (unfold fexp64, f in *; unfold fexp64; lia).
    rewrite Hn2. change (2 ^ 53) with (Zpos 9007199254740992).
    cbn [shr iter_pos shr_1 shr_m].
    change (emax - prec) with 971.
    destruct (Z.leb_spec (f + 1) 971) as [_|Hbad]; [|lia].
    split; [reflexivity|]. cbn [SFunits cond_Zopp].
    replace (f + 1 + 1074) with (1 + (f + 1074)) by lia.
    rewrite (Z.pow_add_r 2 1 (f + 1074)) by (unfold f, fexp64; lia).
    change (2 ^ 1) with 2. change (2 ^ 53) with 9007199254740992 in Hq53. nia.
  - assert (Hm1 : 0 <= m1 < 2 ^ 53) by lia.
    assert (Hn2 : fexp64 (Zdigits2 m1 + f) - f <= 0).
    { pose proof (Zdigits2_le m1 53 Hm1 ltac:(lia)).
      unfold fexp64. unfold f, fexp64. lia. }
    destruct (fexp64 (Zdigits2 m1 + f) - f) as [|p|p] eqn:En2; try lia;
      cbn [shr shr_m]; change (emax - prec) with 971.
    + destruct m1 as [|p1|p1] eqn:Em1; try lia.
      * split; [reflexivity|]. cbn [SFunits]. nia.
      * destruct (Z.leb_spec f 971) as [_|Hbad]; [|lia].
        split; [reflexivity|]. cbn [SFunits cond_Zopp]. nia.
    + destruct m1 as [|p1|p1] eqn:Em1; try lia.
      * split; [reflexivity|]. cbn [SFunits]. nia.
      * destruct (Z.leb_spec f 971) as [_|Hbad]; [|lia].
        split; [reflexivity|]. cbn [SFunits cond_Zopp]. nia.
Qed.



(** The sum of two floats that are not negative is not below an integer
    that their exact sum reaches, as long as this sum is below [2 ^ 53]. *)
Lemma SFadd_lower x y r :
  valid_binary x = true -> valid_binary y = true ->
  SFfinite x = true -> SFfinite y = true ->
  SFnonneg x = true -> SFnonneg y = true ->
  SFunits x + SFunits y < 2 ^ 53 * 2 ^ 1074 ->
  0 <= r -> r * 2 ^ 1074 <= SFunits x + SFunits y ->
  SFfinite (SF64add x y) = true /\ r * 2 ^ 1074 <= SFunits (SF64add x y).
Proof.
  intros Vx Vy Fx Fy Nx Ny Hb Hr Hle.
  assert (P : 0 < 2 ^ 1074) by (apply Z.pow_pos_nonneg; lia).
  destruct x as [sx|sx| |[|] mx ex]; try discriminate;
  destruct y as [sy|sy| |[|] my ey]; try discriminate.
  - cbn [SFunits] in Hle.
    destruct sx, sy; split; try reflexivity;
      match goal with |- _ <= SFunits ?z => change (SFunits z) with 0 end; lia.
  - split; [reflexivity|]. cbn [SFunits] in Hle. exact Hle.
  - split; [reflexivity|]. cbn [SFunits] in Hle. rewrite Z.add_0_r in Hle. exact Hle.
  - cbn [valid_binary] in Vx, Vy.
    destruct (canon_facts _ _ Vx) as [[Lx _] _]. destruct (canon_facts _ _ Vy) as [[Ly _] _].
    unfold SF64add, SFadd. cbv zeta. set (ez := Z.min ex ey).
    assert (Hez : -1074 <= ez /\ ez <= ex /\ ez <= ey) by (unfold ez; lia).
    pose proof (aligned_units false mx ex ez ltac:(lia) ltac:(lia)) as A1.
    pose proof (aligned_units false my ey ez ltac:(lia) ltac:(lia)) as A2.
    cbn [cond_Zopp] in *.
    set (S := Zpos (fst (shl_align mx ex ez)) + Zpos (fst (shl_align my ey ez))) in *.
    assert (HS : S * 2 ^ (ez + 1074) = SFunits (S754_finite false mx ex)
                                       + SFunits (S754_finite false my ey)).
    { unfold S. rewrite Z.mul_add_distr_r, A1, A2. reflexivity. }
    assert (S0 : 0 < S) by (unfold S; lia).
    rewrite <- HS in Hb, Hle.
    assert (Pz : 0 < 2 ^ (ez + 1074)) by (apply Z.pow_pos_nonneg; lia).
    destruct S as [|s|s] eqn:ES; try lia. cbn [binary_normalize].
    unfold binary_round. rewrite fexp_eq. set (f := fexp64 (Zpos (digits2_pos s) + ez)).
    (* the sum has at most 53 digits above the unit *)
    assert (Hf0 : f <= 0).
    { destruct (digits_units s ez ltac:(lia)) as [q [Hq Dq]].
      pose proof (digits_bounds q) as [Bl _]. rewrite Hq, Dq in Bl.
      destruct (Z_lt_le_dec 53 (Zpos (digits2_pos s) + ez)) as [Hgt|Hok].
      - assert (2 ^ (53 + 1074) <= 2 ^ (Zpos (digits2_pos s) + (ez + 1074) - 1))
          by (apply Z.pow_le_mono_r; lia).
        rewrite Z.pow_add_r in H by lia. lia.
      - unfold f, fexp64. lia. }
    assert (Hfl : -1074 <= f) by (unfold f, fexp64; lia).
    unfold shl_align. destruct (f - ez) as [|p|p] eqn:Ep.
    + (* already at its exponent *)
      pose proof (binary_round_aux_lower (Zpos s) ez ltac:(lia) ltac:(lia)) as L.
      cbv zeta in L. change (Zdigits2 (Zpos s)) with (Zpos (digits2_pos s)) in L.
      fold f in L. specialize (L ltac:(lia) ltac:(lia)). destruct L as [LF LU].
      split; [exact LF|]. replace (f - ez) with 0 in LU by lia.
      change (2 ^ 0) with 1 in LU. rewrite Z.div_1_r in LU.
      replace f with ez in LU by lia. lia.
    + (* shifted right *)
      pose proof (binary_round_aux_lower (Zpos s) ez ltac:(lia) ltac:(lia)) as L.
      cbv zeta in L. change (Zdigits2 (Zpos s)) with (Zpos (digits2_pos s)) in L.
      fold f in L. specialize (L ltac:(lia) ltac:(lia)). destruct L as [LF LU].
      split; [exact LF|].
      assert (Pn : 0 < 2 ^ (f - ez)) by (apply Z.pow_pos_nonneg; lia).
      assert (Pf : 0 < 2 ^ (f + 1074)) by (apply Z.pow_pos_nonneg; lia).
      assert (Pm : 0 < 2 ^ (- f)) by (apply Z.pow_pos_nonneg; lia).
      assert (E1 : 2 ^ 1074 = 2 ^ (- f) * 2 ^ (f + 1074)).
      { rewrite <- (Z.pow_add_r 2 (- f) (f + 1074)) by lia. f_equal. lia. }
      assert (E2 : 2 ^ (f + 1074) = 2 ^ (f - ez) * 2 ^ (ez + 1074)).
      { rewrite <- (Z.pow_add_r 2 (f - ez) (ez + 1074)) by lia. f_equal. lia. }
      assert (Hq : r * 2 ^ (- f) <= Zpos s / 2 ^ (f - ez)).
      { apply Z.div_le_lower_bound; [lia|].
        apply (Z.mul_le_mono_pos_r _ _ (2 ^ (ez + 1074))); [lia|].
        rewrite E1, E2 in Hle. lia. }
      rewrite E1. nia.
    + (* shifted left: the sum is exact *)
      set (mz := Pos.iter xO s p).
      assert (Hmz : Zpos mz = Zpos s * 2 ^ (ez - f)).
      { unfold mz. rewrite iter_xO_pow2. do 2 f_equal. lia. }
      assert (Dmz : Zpos (digits2_pos mz) + f = Zpos (digits2_pos s) + ez).
      { rewrite (digits_mul_pow2 s mz (ez - f)) by (lia || exact Hmz). lia. }
      pose proof (binary_round_aux_lower (Zpos mz) f ltac:(lia) ltac:(lia)) as L.
      cbv zeta in L. change (Zdigits2 (Zpos mz)) with (Zpos (digits2_pos mz)) in L.
      rewrite Dmz in L. fold f in L. specialize (L ltac:(lia) ltac:(lia)).
      destruct L as [LF LU]. split; [exact LF|].
      rewrite Z.sub_diag in LU. change (2 ^ 0) with 1 in LU. rewrite Z.div_1_r in LU.
      assert (E2 : 2 ^ (ez + 1074) = 2 ^ (ez - f) * 2 ^ (f + 1074)).
      { rewrite <- (Z.pow_add_r 2 (ez - f) (f + 1074)) by lia. f_equal. lia. }
      assert (E3 : Zpos mz * 2 ^ (f + 1074) = Zpos s * 2 ^ (ez + 1074))
        by (rewrite Hmz, E2; ring).
      lia.
Qed.

End F64RoundFacts.

(** ** Facts on the Python numbers *)

Module PyNumFacts.

Import F64 F64Facts.

Lemma finiteb_cases x :
  finiteb x = true ->
  (exists s, Prim2SF x = S754_zero s) \/
  (exists s m e, Prim2SF x = S754_finite s m e /\ bounded prec emax m e = true).
Proof.
  unfold finiteb. intro H. pose proof (Prim2SF_valid x) as V.
  destruct (Prim2SF x) as [s|s| |s m e]; try discriminate.
  - left. exists s. reflexivity.
  - right. exists s, m, e. split; [reflexivity | exact V].
Qed.

Lemma compare_units x y :
  finiteb x = true -> finiteb y = true ->
  SFcompare (Prim2SF x) (Prim2SF y) = Some (units x ?= units y).
Proof.
  intros Fx Fy. apply SFcompare_units; auto using Prim2SF_valid.
Qed.

Lemma leb_units x y :
  finiteb x = true -> finiteb y = true ->
  (x <=? y)%float = (units x <=? units y).
Proof.
  intros Fx Fy. rewrite leb_spec. unfold SFleb. rewrite compare_units by assumption.
  unfold Z.leb. destruct (units x ?= units y); reflexivity.
Qed.

Lemma ltb_units x y :
  finiteb x = true -> finiteb y = true ->
  (x <? y)%float = (units x <? units y).
Proof.
  intros Fx Fy. rewrite ltb_spec. unfold SFltb. rewrite compare_units by assumption.
  unfold Z.ltb. destruct (units x ?= units y); reflexivity.
Qed.

Lemma eqb_units x y :
  finiteb x = true -> finiteb y = true ->
  (x =? y)%float = (units x =? units y).
Proof.
  intros Fx Fy. rewrite eqb_spec. unfold SFeqb. rewrite compare_units by assumption.
  destruct (Z.compare_spec (units x) (units y)) as [H|H|H];
    symmetry; [apply Z.eqb_eq | apply Z.eqb_neq | apply Z.eqb_neq]; lia.
Qed.

Lemma add_units x y :
  finiteb x = true -> finiteb y = true -> representable (units x + units y) ->
  finiteb (x + y) = true /\ units (x + y) = units x + units y.
Proof.
  intros Fx Fy R. unfold finiteb, units. rewrite add_spec.
  apply SFadd_units; auto using Prim2SF_valid.
Qed.

Lemma sub_units x y :
  finiteb x = true -> finiteb y = true -> representable (units x - units y) ->
  finiteb (x - y) = true /\ units (x - y) = units x - units y.
Proof.
  intros Fx Fy R. unfold finiteb, units. rewrite sub_spec.
  apply SFsub_units; auto using Prim2SF_valid.
Qed.

Lemma units_float x : representable (units x).
Proof.
  unfold units. destruct (Prim2SF x) as [s|s| |s m e] eqn:H;
    try apply representable_0.
  exists (S754_finite s m e). repeat split.
  rewrite <- H. apply Prim2SF_valid.
Qed.

Lemma is_infinity_spec x :
  is_infinity x = match Prim2SF x with S754_infinity _ => true | _ => false end.
Proof.
  unfold is_infinity. rewrite eqb_spec, abs_spec.
  change (Prim2SF infinity) with (S754_infinity false).
  destruct (Prim2SF x) as [s|s| |s m e]; reflexivity.
Qed.

Lemma shiftl_units m e :
  -1074 <= e -> Z.shiftl (Zpos m) e = (Zpos m * 2 ^ (e + 1074)) / 2 ^ 1074.
Proof.
  intro He. destruct (Z_lt_le_dec e 0) as [Hn|Hp].
  - rewrite Z.shiftl_div_pow2 by lia.
    replace (2 ^ 1074) with (2 ^ (- e) * 2 ^ (e + 1074)).
    2:{ rewrite <- Z.pow_add_r by lia. f_equal. lia. }
    rewrite Z.div_mul_cancel_r; [reflexivity | |];
      apply Z.pow_nonzero; lia.
  - rewrite Z.shiftl_mul_pow2 by lia.
    replace (e + 1074) with (e + 1074)%Z by reflexivity.
    rewrite Z.pow_add_r by lia. rewrite Z.mul_assoc.
    rewrite Z.div_mul; [reflexivity | apply Z.pow_nonzero; lia].
Qed.

Lemma py_int_units x :
  finiteb x = true -> py_int x = Ok (Z.quot (units x) (2 ^ 1074)).
Proof.
  intro F. unfold py_int, units.
  destruct (finiteb_cases x F) as [[s H]|[s [m [e [H B]]]]]; rewrite H.
  - reflexivity.
  - cbn [SFunits]. destruct (canon_facts _ _ B) as [[Le _] _].
    rewrite shiftl_units by exact Le. f_equal.
    assert (0 <= Zpos m * 2 ^ (e + 1074))
      by (apply Z.mul_nonneg_nonneg; [lia | apply Z.pow_nonneg; lia]).
    destruct s; cbn [cond_Zopp].
    + rewrite Z.quot_opp_l by (apply Z.pow_nonzero; lia).
      rewrite Z.quot_div_nonneg by (try assumption; apply Z.pow_pos_nonneg; lia).
      reflexivity.
    + rewrite Z.quot_div_nonneg by (try assumption; apply Z.pow_pos_nonneg; lia).
      reflexivity.
Qed.

(** An integer that is a float's value converts to that float. *)
Lemma Z2float_units z :
  representable (z * 2 ^ 1074) ->
  finiteb (Z2float z) = true /\ units (Z2float z) = z * 2 ^ 1074 /\
  float_of_int z = Ok (Z2float z).
Proof.
  intros [zf [V [F U]]].
  assert (H : Prim2SF (Z2float z) = zf \/ (z = 0 /\ Prim2SF (Z2float z) = S754_zero false)).
  { destruct (Z.eq_dec z 0) as [->|Hz].
    - right. split; reflexivity.
    - left. unfold Z2float. rewrite (normalize_units z 0 zf); auto; try lia.
      apply Prim2SF_SF2Prim. exact V. }
  assert (Hf : finiteb (Z2float z) = true /\ units (Z2float z) = z * 2 ^ 1074).
  { unfold finiteb, units. destruct H as [-> | [-> ->]]; split; auto. }
  destruct Hf as [Hf Hu]. repeat split; auto.
  unfold float_of_int. cbv zeta. rewrite is_infinity_spec.
  unfold finiteb in Hf. destruct (Prim2SF (Z2float z)); try discriminate; reflexivity.
Qed.

Lemma quot_units_representable u :
  representable u -> representable (Z.quot u (2 ^ 1074) * 2 ^ 1074).
Proof.
  intros [zf [V [F U]]]. subst u.
  destruct zf as [s|s| |s m e]; try discriminate; cbn [SFunits].
  - apply representable_0.
  - cbn [valid_binary] in V. destruct (canon_facts _ _ V) as [[Le Ue] [Dm _]].
    assert (P : 0 < 2 ^ 1074) by (apply Z.pow_pos_nonneg; lia).
    assert (Hq : Z.quot (cond_Zopp s (Zpos m * 2 ^ (e + 1074))) (2 ^ 1074)
                 = cond_Zopp s (Zpos m * 2 ^ (e + 1074) / 2 ^ 1074)).
    { assert (0 <= Zpos m * 2 ^ (e + 1074))
        by (apply Z.mul_nonneg_nonneg; [lia | apply Z.pow_nonneg; lia]).
      destruct s; cbn [cond_Zopp].
      - rewrite Z.quot_opp_l by lia. rewrite Z.quot_div_nonneg by lia. reflexivity.
      - rewrite Z.quot_div_nonneg by lia. reflexivity. }
    rewrite Hq, <- shiftl_units by exact Le.
    destruct (Z_lt_le_dec e 0) as [Hn|Hp].
    + rewrite Z.shiftl_div_pow2 by lia.
      set (P0 := Zpos m / 2 ^ (- e)).
      assert (HP0 : 0 <= P0 < 2 ^ 53).
      { pose proof (digits_bounds m) as [_ Bu].
        assert (2 ^ Zpos (digits2_pos m) <= 2 ^ 53) by (apply Z.pow_le_mono_r; lia).
        assert (0 < 2 ^ (- e)) by (apply Z.pow_pos_nonneg; lia).
        unfold P0. split; [apply Z.div_pos; lia|].
        apply Z.div_lt_upper_bound; [lia|]. nia. }
      destruct (Z.eq_dec P0 0) as [->|Hnz].
      * destruct s; apply representable_0.
      * replace (cond_Zopp s P0 * 2 ^ 1074) with (cond_Zopp s (P0 * 2 ^ (0 + 1074)))
          by (destruct s; cbn [cond_Zopp]; simpl (0 + 1074); ring).
        apply representable_mant; lia.
    + rewrite Z.shiftl_mul_pow2 by lia.
      exists (S754_finite s m e). repeat split; [exact V|].
      cbn [SFunits]. rewrite (Z.pow_add_r 2 e 1074) by lia.
      destruct s; cbn [cond_Zopp]; ring.
Qed.

Lemma Prim2SF_mul_zero_l y s m e :
  Prim2SF y = S754_finite s m e -> Prim2SF (0 * y) = S754_zero s.
Proof.
  intro H. rewrite mul_spec, H. reflexivity.
Qed.


Lemma py_int_finite x n : py_int x = Ok n -> finiteb x = true.
Proof.
  unfold py_int, finiteb. destruct (Prim2SF x); try discriminate; reflexivity.
Qed.

Lemma py_int_representable x n : py_int x = Ok n -> representable (n * 2 ^ 1074).
Proof.
  intro H. pose proof (py_int_finite x n H) as F.
  rewrite (py_int_units x F) in H. injection H as <-.
  apply quot_units_representable, units_float.
Qed.

Lemma positive_units x :
  finiteb x = true -> 0 < units x -> exists m e, Prim2SF x = S754_finite false m e.
Proof.
  unfold finiteb, units. intros F U. pose proof (Prim2SF_valid x) as V.
  destruct (Prim2SF x) as [s|s| |s m e]; try discriminate; cbn [SFunits] in U; try lia.
  cbn [valid_binary] in V. destruct (canon_facts _ _ V) as [[Le _] _].
  assert (0 < Zpos m * 2 ^ (e + 1074))
    by (apply Z.mul_pos_pos; [lia | apply Z.pow_pos_nonneg; lia]).
  destruct s; cbn [cond_Zopp] in U; [lia|]. exists m, e. reflexivity.
Qed.

Lemma positive_float x :
  finiteb x = true -> (0 <? x)%float = true ->
  exists m e, Prim2SF x = S754_finite false m e.
Proof.
  unfold finiteb. rewrite ltb_spec. change (Prim2SF 0) with (S754_zero false).
  destruct (Prim2SF x) as [s|s| |[|] m e]; try discriminate; intros _ _.
  exists m, e. reflexivity.
Qed.

(** The duration of a video with frames and a positive frame rate is
    defined and is not negative. *)
Lemma duration_nonneg fc total fps :
  py_int fc = Ok total -> 0 <= total ->
  finiteb fps = true -> (0 <? fps)%float = true ->
  exists d, duration_of total fps = Ok d /\ SFnonneg (Prim2SF d) = true.
Proof.
  intros Hn Ht Ff Hp. unfold duration_of. rewrite Hp.
  destruct (Z2float_units total (py_int_representable fc total Hn)) as [Ft [Ut Hft]].
  rewrite Hft. cbn [bind]. eexists. split; [reflexivity|].
  rewrite div_spec. apply SFdiv_nonneg.
  - assert (P : 0 < 2 ^ 1074) by (apply Z.pow_pos_nonneg; lia).
    destruct (Z.eq_dec total 0) as [->|Hnz]; [reflexivity|].
    destruct (positive_units (Z2float total) Ft) as [m [e ->]]; [nia | reflexivity].
  - exact Ft.
  - apply positive_float; assumption.
Qed.

Lemma leb_zero_nonneg d : SFnonneg (Prim2SF d) = true -> (0 <=? d)%float = true.
Proof.
  intro H. rewrite leb_spec. apply SFleb_zero_nonneg, H.
Qed.

Lemma math_floor_zero_mul fps :
  finiteb fps = true -> (0 <? fps)%float = true -> math_floor (0 * fps) = Ok 0.
Proof.
  intros F P. destruct (positive_float fps F P) as [m [e H]].
  unfold math_floor. rewrite (Prim2SF_mul_zero_l fps false m e H). reflexivity.
Qed.

(** Past a duration that is not negative: adding such an interval to 0
    leaves the loop. *)
Lemma past_duration d interval :
  SFnonneg (Prim2SF d) = true -> (d <? interval)%float = true ->
  (0 + interval <=? d)%float = false.
Proof.
  intros Hd Hlt. rewrite ltb_spec in Hlt.
  assert (Hi : (0 + interval)%float = interval).
  { apply Prim2SF_inj. rewrite add_spec. change (Prim2SF 0) with (S754_zero false).
    revert Hd Hlt.
    destruct (Prim2SF d) as [sd|[|]| |[|] md ed]; try discriminate;
      destruct (Prim2SF interval) as [si|[|]| |[|] mi ei]; try discriminate;
      reflexivity. }
  rewrite Hi, leb_spec. apply SFltb_not_leb. exact Hlt.
Qed.

End PyNumFacts.

(** ** Facts on [%], [//] and [format_time] *)

Module FormatFacts.

Import F64 F64Facts F64DivFacts PyNumFacts.

Lemma nonneg_cases t :
  finiteb t = true -> 0 <= units t ->
  (exists s, Prim2SF t = S754_zero s) \/
  (exists m e, Prim2SF t = S754_finite false m e /\ bounded prec emax m e = true).
Proof.
  intros F U. destruct (finiteb_cases t F) as [H|[s [m [e [H B]]]]]; [left; exact H|].
  right. exists m, e. split; [|exact B].
  unfold units in U. rewrite H in U. cbn [SFunits] in U.
  destruct (canon_facts _ _ B) as [[Le _] _].
  assert (0 < Zpos m * 2 ^ (e + 1074))
    by (apply Z.mul_pos_pos; [lia | apply Z.pow_pos_nonneg; lia]).
  destruct s; cbn [cond_Zopp] in U; [lia | exact H].
Qed.

Lemma units_zero t :
  finiteb t = true -> units t = 0 -> exists s, Prim2SF t = S754_zero s.
Proof.
  intros F U. destruct (nonneg_cases t F ltac:(lia)) as [H|[m [e [H B]]]]; [exact H|].
  unfold units in U. rewrite H in U. cbn [SFunits cond_Zopp] in U.
  destruct (canon_facts _ _ B) as [[Le _] _].
  assert (0 < Zpos m * 2 ^ (e + 1074))
    by (apply Z.mul_pos_pos; [lia | apply Z.pow_pos_nonneg; lia]). lia.
Qed.

Lemma units_bound t : finiteb t = true -> units t < 2 ^ 2098.
Proof.
  intro F. unfold units. destruct (finiteb_cases t F) as [[s H]|[s [m [e [H B]]]]];
    rewrite H; cbn [SFunits].
  - apply Z.pow_pos_nonneg; lia.
  - destruct (canon_facts _ _ B) as [[Le Ue] [Dm _]].
    pose proof (digits_bounds m) as [_ Bu].
    assert (2 ^ Zpos (digits2_pos m) <= 2 ^ 53) by (apply Z.pow_le_mono_r; lia).
    assert (0 < 2 ^ (e + 1074) <= 2 ^ 2045)
      by (split; [apply Z.pow_pos_nonneg; lia | apply Z.pow_le_mono_r; lia]).
    change (2 ^ 2098) with (2 ^ 53 * 2 ^ 2045).
    destruct s; cbn [cond_Zopp]; nia.
Qed.

Lemma finiteb_SF2Prim z :
  valid_binary z = true -> SFfinite z = true ->
  finiteb (SF2Prim z) = true /\ units (SF2Prim z) = SFunits z.
Proof.
  intros V F. unfold finiteb, units. rewrite Prim2SF_SF2Prim by exact V.
  split; [exact F | reflexivity].
Qed.

(** C's [fmod] on a dividend that is not negative and a positive divisor is
    the exact remainder. *)
Lemma c_fmod_units t y :
  finiteb t = true -> 0 <= units t -> finiteb y = true -> 0 < units y ->
  finiteb (c_fmod t y) = true /\ units (c_fmod t y) = units t mod units y.
Proof.
  intros Ft Ut Fy Uy.
  destruct (positive_units y Fy Uy) as [my [ey Hy]].
  pose proof (Prim2SF_valid y) as By. rewrite Hy in By. cbn [valid_binary] in By.
  destruct (canon_facts _ _ By) as [[Ley _] [Dy _]].
  destruct (nonneg_cases t Ft Ut) as [[s Ht]|[mx [ex [Ht Bx]]]].
  - unfold c_fmod. rewrite Ht, Hy. split; [exact Ft|].
    unfold units at 1 2. rewrite Ht. cbn [SFunits]. rewrite Z.mod_0_l; [reflexivity | lia].
  - destruct (canon_facts _ _ Bx) as [[Lex _] [Dx _]].
    unfold c_fmod. rewrite Ht, Hy. cbv zeta.
    set (ez := Z.min ex ey).
    assert (Hez : -1074 <= ez /\ ez <= ex /\ ez <= ey) by (unfold ez; lia).
    assert (Pz : 0 < 2 ^ (ez + 1074)) by (apply Z.pow_pos_nonneg; lia).
    assert (Px : 0 < 2 ^ (ex - ez)) by (apply Z.pow_pos_nonneg; lia).
    assert (Py : 0 < 2 ^ (ey - ez)) by (apply Z.pow_pos_nonneg; lia).
    set (X := Zpos mx * 2 ^ (ex - ez)). set (Y := Zpos my * 2 ^ (ey - ez)).
    assert (HX : units t = X * 2 ^ (ez + 1074)).
    { unfold units, X. rewrite Ht. cbn [SFunits cond_Zopp].
      rewrite <- Z.mul_assoc, <- Z.pow_add_r by lia. do 2 f_equal. lia. }
    assert (HY : units y = Y * 2 ^ (ez + 1074)).
    { unfold units, Y. rewrite Hy. cbn [SFunits cond_Zopp].
      rewrite <- Z.mul_assoc, <- Z.pow_add_r by lia. do 2 f_equal. lia. }
    assert (Y0 : 0 < Y) by (unfold Y; lia).
    assert (X0 : 0 <= X) by (unfold X; lia).
    assert (HR : (X mod Y) * 2 ^ (ez + 1074) = units t mod units y).
    { rewrite HX, HY. rewrite Z.mul_mod_distr_r by lia. reflexivity. }
    pose proof (Z.mod_pos_bound X Y Y0) as [R0 R1].
    pose proof (Z.mod_le X Y X0 Y0) as R2.
    pose proof (digits_bounds mx) as [_ Bux]. pose proof (digits_bounds my) as [_ Buy].
    assert (2 ^ Zpos (digits2_pos mx) <= 2 ^ 53) by (apply Z.pow_le_mono_r; lia).
    assert (2 ^ Zpos (digits2_pos my) <= 2 ^ 53) by (apply Z.pow_le_mono_r; lia).
    assert (R53 : X mod Y < 2 ^ 53).
    { destruct (Z.min_spec ex ey) as [[_ Hm]|[_ Hm]]; fold ez in Hm.
      - assert (X = Zpos mx) by (unfold X; rewrite Hm, Z.sub_diag; simpl; lia). lia.
      - assert (Y = Zpos my) by (unfold Y; rewrite Hm, Z.sub_diag; simpl; lia). lia. }
    destruct (X mod Y) as [|r|r] eqn:ER; try lia.
    + split; [reflexivity|]. rewrite <- HR. reflexivity.
    + pose proof (units_bound t Ft) as Ub.
      destruct (representable_mant false (Zpos r) ez) as [z [Vz [Fz Uz]]]; try lia.
      { rewrite HX in Ub. nia. }
      cbn [cond_Zopp] in Uz.
      assert (Hz : binary_round prec emax false r ez = z).
      { change (binary_round prec emax false r ez)
          with (binary_normalize prec emax (Zpos r) ez false).
        apply normalize_units; try assumption; try lia. }
      rewrite Hz. destruct (finiteb_SF2Prim z Vz Fz) as [F' U'].
      split; [exact F'|]. rewrite U', Uz. exact HR.
Qed.

Lemma finiteb_zero_like y : finiteb (zero_like y) = true /\ units (zero_like y) = 0.
Proof.
  unfold zero_like. destruct (get_sign y); split; reflexivity.
Qed.

Lemma eqb_zero x : finiteb x = true -> (x =? 0)%float = (units x =? 0).
Proof.
  intro F. rewrite (eqb_units x 0 F eq_refl). reflexivity.
Qed.

Lemma ltb_zero x : finiteb x = true -> (x <? 0)%float = (units x <? 0).
Proof.
  intro F. rewrite (ltb_units x 0 F eq_refl). reflexivity.
Qed.

(** [t % y]. *)
Lemma py_mod_units t y :
  finiteb t = true -> 0 <= units t -> finiteb y = true -> 0 < units y ->
  exists r, py_mod t y = Ok r /\ finiteb r = true /\ units r = units t mod units y.
Proof.
  intros Ft Ut Fy Uy. destruct (c_fmod_units t y Ft Ut Fy Uy) as [Fm Um].
  pose proof (Z.mod_pos_bound (units t) (units y) Uy) as [M0 M1].
  unfold py_mod, nonzero. rewrite (eqb_zero y Fy).
  destruct (Z.eqb_spec (units y) 0) as [H0|_]; [lia|].
  rewrite (eqb_zero _ Fm), (ltb_zero y Fy), (ltb_zero _ Fm).
  destruct (Z.ltb_spec (units y) 0) as [H0|_]; [lia|].
  destruct (Z.ltb_spec (units (c_fmod t y)) 0) as [H0|_]; [lia|]. cbn [xorb].
  eexists. split; [reflexivity|].
  destruct (Z.eqb_spec (units (c_fmod t y)) 0) as [H0|Hnz]; cbn [negb].
  - destruct (finiteb_zero_like y) as [Fz Uz]. split; [exact Fz|]. lia.
  - split; assumption.
Qed.

Lemma normal_of_large y m e :
  Prim2SF y = S754_finite false m e -> 2 ^ 1074 <= units y ->
  Zpos (digits2_pos m) = 53.
Proof.
  intros Hy U. pose proof (Prim2SF_valid y) as B. rewrite Hy in B. cbn [valid_binary] in B.
  destruct (canon_facts _ _ B) as [[Le _] [Dm Nm]].
  apply Nm. unfold units in U. rewrite Hy in U. cbn [SFunits cond_Zopp] in U.
  destruct (Z.eq_dec e (-1074)) as [->|]; [|lia].
  simpl (-1074 + 1074) in U. change (2 ^ 0) with 1 in U.
  pose proof (digits_bounds m) as [_ Bu].
  assert (2 ^ Zpos (digits2_pos m) <= 2 ^ 53) by (apply Z.pow_le_mono_r; lia).
  assert (2 ^ 53 < 2 ^ 1074) by (apply Z.pow_lt_mono_r; lia). lia.
Qed.

(** The quotient of a multiple by its divisor. *)
Lemma div_units x y k :
  finiteb x = true -> finiteb y = true -> 2 ^ 1074 <= units y ->
  0 <= k < 2 ^ 53 -> units x = k * units y ->
  finiteb (x / y) = true /\ units (x / y) = k * 2 ^ 1074.
Proof.
  intros Fx Fy Uy Hk Hx.
  assert (P : 0 < 2 ^ 1074) by (apply Z.pow_pos_nonneg; lia).
  destruct (positive_units y Fy ltac:(lia)) as [my [ey Hy]].
  pose proof (Prim2SF_valid y) as By. rewrite Hy in By. cbn [valid_binary] in By.
  pose proof (normal_of_large y my ey Hy Uy) as Dy.
  unfold finiteb, units. rewrite div_spec, Hy.
  destruct (Z.eq_dec k 0) as [->|Hnz].
  - destruct (units_zero x Fx ltac:(lia)) as [s ->]. split; reflexivity.
  - destruct (positive_units x Fx ltac:(nia)) as [mx [ex Hx']].
    pose proof (Prim2SF_valid x) as Bx. rewrite Hx' in Bx. cbn [valid_binary] in Bx.
    rewrite Hx'.
    destruct (SFdiv_exact mx ex my ey k Bx By Dy ltac:(lia)) as [m [e [B [V ->]]]].
    + unfold units in Hx. rewrite Hx', Hy in Hx. exact Hx.
    + split; [reflexivity | exact V].
Qed.

(** C's [floor] on a float that is a positive integer. *)
Lemma c_floor_int x k :
  finiteb x = true -> 0 < k < 2 ^ 53 -> units x = k * 2 ^ 1074 ->
  finiteb (c_floor x) = true /\ units (c_floor x) = k * 2 ^ 1074.
Proof.
  intros F Hk U.
  assert (P : 0 < 2 ^ 1074) by (apply Z.pow_pos_nonneg; lia).
  destruct (positive_units x F ltac:(nia)) as [m [e H]].
  pose proof (Prim2SF_valid x) as B. rewrite H in B. cbn [valid_binary] in B.
  destruct (canon_facts _ _ B) as [[Le _] _].
  unfold c_floor. rewrite H. destruct (e <? 0); [|split; assumption].
  cbn [cond_Zopp]. rewrite shiftl_units by exact Le.
  assert (Hq : Zpos m * 2 ^ (e + 1074) / 2 ^ 1074 = k).
  { unfold units in U. rewrite H in U. cbn [SFunits cond_Zopp] in U.
    rewrite U. apply Z.div_mul. lia. }
  rewrite Hq. destruct k as [|pk|pk]; try lia.
  destruct (Z2float_units (Zpos pk) (representable_int (Zpos pk) ltac:(lia))) as [Fk [Uk _]].
  split; assumption.
Qed.

(** [t // y] for a divisor that is a positive integer. *)
Lemma py_floordiv_units t y c :
  finiteb t = true -> 0 <= units t < 2 ^ 53 * 2 ^ 1074 ->
  finiteb y = true -> 0 < c -> units y = c * 2 ^ 1074 ->
  exists q, py_floordiv t y = Ok q /\ finiteb q = true /\
            units q = units t / units y * 2 ^ 1074.
Proof.
  intros Ft [Ut Ub] Fy Hc Uy.
  assert (P : 0 < 2 ^ 1074) by (apply Z.pow_pos_nonneg; lia).
  assert (Uy0 : 0 < units y) by nia.
  destruct (c_fmod_units t y Ft Ut Fy Uy0) as [Fm Um].
  pose proof (Z.mod_pos_bound (units t) (units y) Uy0) as [M0 M1].
  set (k := units t / units y).
  assert (Hk0 : 0 <= k) by (apply Z.div_pos; lia).
  assert (Hdm : units t = units y * k + units t mod units y)
    by (apply Z.div_mod; lia).
  assert (Hk : k < 2 ^ 53).
  { apply Z.div_lt_upper_bound; [lia|]. nia. }
  assert (Hck : 0 <= c * k < 2 ^ 53) by nia.
  (* x = t - md is the multiple k * y *)
  destruct (sub_units t (c_fmod t y) Ft Fm) as [Fx Ux].
  { rewrite Um. replace (units t - units t mod units y) with ((c * k) * 2 ^ 1074) by lia.
    apply representable_int. exact Hck. }
  rewrite Um in Ux.
  destruct (div_units (t - c_fmod t y) y k Fx Fy ltac:(nia) ltac:(lia) ltac:(lia))
    as [Fd Ud].
  unfold py_floordiv, nonzero. rewrite (eqb_zero y Fy).
  destruct (Z.eqb_spec (units y) 0) as [H0|_]; [lia|].
  rewrite (ltb_zero y Fy), (ltb_zero _ Fm).
  destruct (Z.ltb_spec (units y) 0) as [H0|_]; [lia|].
  destruct (Z.ltb_spec (units (c_fmod t y)) 0) as [H0|_]; [lia|].
  cbn [xorb]. rewrite andb_false_r. rewrite (eqb_zero _ Fd), Ud.
  eexists. split; [reflexivity|].
  destruct (Z.eqb_spec (k * 2 ^ 1074) 0) as [H0|Hnz]; cbn [negb].
  - destruct (finiteb_zero_like (t / y)) as [Fz Uz]. split; [exact Fz|].
    rewrite Uz. fold k. lia.
  - assert (Hkpos : 0 < k < 2 ^ 53) by nia.
    destruct (c_floor_int _ k Fd Hkpos Ud) as [Ff Uf].
    destruct (sub_units _ _ Fd Ff) as [Fs Us].
    { rewrite Ud, Uf, Z.sub_diag. apply representable_0. }
    rewrite (ltb_units 0.5 _ eq_refl Fs), Us, Ud, Uf, Z.sub_diag.
    change (units 0.5 <? 0) with false.
    split; [exact Ff | exact Uf].
Qed.


Lemma py_int_of_int q k :
  finiteb q = true -> units q = k * 2 ^ 1074 -> 0 <= k -> py_int q = Ok k.
Proof.
  intros F U Hk. rewrite (py_int_units q F), U.
  assert (P : 0 < 2 ^ 1074) by (apply Z.pow_pos_nonneg; lia).
  rewrite Z.quot_div_nonneg by nia. rewrite Z.div_mul by lia. reflexivity.
Qed.

Lemma py_int_nonneg q :
  finiteb q = true -> 0 <= units q -> py_int q = Ok (units q / 2 ^ 1074).
Proof.
  intros F U. rewrite (py_int_units q F).
  assert (P : 0 < 2 ^ 1074) by (apply Z.pow_pos_nonneg; lia).
  rewrite Z.quot_div_nonneg by lia. reflexivity.
Qed.

Lemma nonneg_units x :
  finiteb x = true -> SFnonneg (Prim2SF x) = true -> 0 <= units x.
Proof.
  unfold finiteb, units. pose proof (Prim2SF_valid x) as V.
  destruct (Prim2SF x) as [s|s| |[|] m e]; try discriminate; intros _ _;
    cbn [SFunits cond_Zopp]; lia.
Qed.

(** The product of a fraction of a second by 1000 is a number. *)
Lemma millis_finite frac :
  finiteb frac = true -> 0 <= units frac < 2 ^ 1074 ->
  finiteb (frac * 1000) = true /\ 0 <= units (frac * 1000).
Proof.
  intros F [U0 U1].
  assert (H : SFfinite (Prim2SF (frac * 1000)) = true /\
              SFnonneg (Prim2SF (frac * 1000)) = true).
  { rewrite mul_spec.
    change (Prim2SF 1000) with (S754_finite false 8796093022208000 (-43)).
    destruct (nonneg_cases frac F U0) as [[s ->]|[m [e [H B]]]].
    - destruct s; split; reflexivity.
    - rewrite H. apply SFmul_finite; [exact B | reflexivity |].
      unfold units in U1. rewrite H in U1. cbn [SFunits cond_Zopp] in U1.
      destruct (Z_lt_le_dec e 0) as [|Hp]; [lia|].
      assert (2 ^ 1074 <= 2 ^ (e + 1074)) by (apply Z.pow_le_mono_r; lia). nia. }
  destruct H as [H1 H2]. split; [exact H1 | apply nonneg_units; assumption].
Qed.

(** The fields of [format_time] on a time that is not negative and below
    [2 ^ 53] seconds: hours, minutes and seconds are those of the whole
    seconds; the milliseconds are the truncation of the product by 1000,
    rounded to a double, of the exact fraction. *)
Lemma format_time_value t :
  finiteb t = true -> 0 <= units t < 2 ^ 53 * 2 ^ 1074 ->
  exists frac ms,
    finiteb frac = true /\ units frac = units t mod 2 ^ 1074 /\
    py_int (frac * 1000) = Ok ms /\ 0 <= ms /\
    format_time t
    = Ok (timestamp (whole_seconds t / 3600) (whole_seconds t mod 3600 / 60)
            (whole_seconds t mod 60) ms).
Proof.
  intros Ft [U0 Ub]. unfold whole_seconds.
  set (P := 2 ^ 1074) in *. set (u := units t) in *.
  assert (HP : 0 < P) by (apply Z.pow_pos_nonneg; lia).
  assert (F3600 : finiteb 3600 = true) by reflexivity.
  assert (U3600 : units 3600 = 3600 * P) by (vm_compute; reflexivity).
  assert (F60 : finiteb 60 = true) by reflexivity.
  assert (U60 : units 60 = 60 * P) by (vm_compute; reflexivity).
  (* hours *)
  destruct (py_floordiv_units t 3600 3600 Ft (conj U0 Ub) F3600 ltac:(lia) U3600)
    as [q1 [Hq1 [Fq1 Uq1]]].
  fold u in Uq1. rewrite U3600 in Uq1.
  assert (Hh : py_int q1 = Ok (u / P / 3600)).
  { rewrite Z.div_div by lia. rewrite (Z.mul_comm P 3600).
    apply py_int_of_int; [exact Fq1 | exact Uq1 |]. apply Z.div_pos; lia. }
  (* minutes *)
  destruct (py_mod_units t 3600 Ft U0 F3600 ltac:(lia)) as [r1 [Hr1 [Fr1 Ur1]]].
  fold u in Ur1. rewrite U3600 in Ur1.
  pose proof (Z.mod_pos_bound u (3600 * P) ltac:(lia)) as [R10 R11].
  destruct (py_floordiv_units r1 60 60 Fr1 ltac:(lia) F60 ltac:(lia) U60)
    as [q2 [Hq2 [Fq2 Uq2]]].
  rewrite U60, Ur1 in Uq2.
  assert (Hm : py_int q2 = Ok (u / P mod 3600 / 60)).
  { assert (E : u mod (3600 * P) / (60 * P) = u / P mod 3600 / 60).
    { rewrite (Z.mul_comm 3600 P), Z.rem_mul_r by lia.
      rewrite (Z.mul_comm 60 P), <- Z.div_div by lia.
      rewrite (Z.add_comm (u mod P)), (Z.mul_comm P), Z.div_add_l by lia.
      rewrite (Z.div_small (u mod P) P) by (apply Z.mod_pos_bound; lia).
      rewrite Z.add_0_r. reflexivity. }
    rewrite <- E. apply py_int_of_int; [exact Fq2 | exact Uq2 |].
    apply Z.div_pos; lia. }
  (* seconds *)
  destruct (py_mod_units t 60 Ft U0 F60 ltac:(lia)) as [r2 [Hr2 [Fr2 Ur2]]].
  fold u in Ur2. rewrite U60 in Ur2.
  pose proof (Z.mod_pos_bound u (60 * P) ltac:(lia)) as [R20 R21].
  assert (Hs : py_int r2 = Ok (u / P mod 60)).
  { rewrite (py_int_nonneg r2 Fr2 ltac:(lia)), Ur2. fold P. f_equal.
    rewrite (Z.mul_comm 60 P), Z.rem_mul_r by lia.
    rewrite (Z.add_comm (u mod P)), (Z.mul_comm P), Z.div_add_l by lia.
    rewrite (Z.div_small (u mod P) P) by (apply Z.mod_pos_bound; lia).
    lia. }
  (* milliseconds *)
  assert (Hi : py_int t = Ok (u / P)) by (apply py_int_nonneg; assumption).
  destruct (Z2float_units (u / P) (py_int_representable t _ Hi)) as [Fi [Ui Hfi]].
  fold P in Ui.
  destruct (sub_units t (Z2float (u / P)) Ft Fi) as [Ff Uf].
  { rewrite Ui. fold u.
    replace (u - u / P * P) with (u mod P) by (rewrite Z.mod_eq by lia; lia).
    apply representable_frac; [apply units_float | exact U0]. }
  rewrite Ui in Uf. fold u in Uf.
  assert (Uf' : units (t - Z2float (u / P)) = u mod P)
    by (rewrite Uf, Z.mod_eq by lia; lia).
  pose proof (Z.mod_pos_bound u P HP) as [F0 F1].
  destruct (millis_finite _ Ff ltac:(fold P; lia)) as [Fp Up].
  exists (t - Z2float (u / P))%float, (units ((t - Z2float (u / P)) * 1000) / P).
  split; [exact Ff|]. split; [exact Uf'|].
  split; [apply py_int_nonneg; assumption|].
  split; [apply Z.div_pos; lia|].
  unfold format_time. rewrite Hq1. cbn [bind]. rewrite Hh. cbn [bind].
  rewrite Hr1. cbn [bind]. rewrite Hq2. cbn [bind]. rewrite Hm. cbn [bind].
  rewrite Hr2. cbn [bind]. rewrite Hs. cbn [bind]. rewrite Hi. cbn [bind].
  rewrite Hfi. cbn [bind].
  rewrite (py_int_nonneg _ Fp Up). cbn [bind]. reflexivity.
Qed.

End FormatFacts.

(** ** Facts on computations *)

Lemma pbind_emit {B : Type} (ev : event) (k : unit -> prog B) (tr : list event) :
  pbind (emit ev) k tr = k tt (tr ++ [ev]).
Proof. reflexivity. Qed.

Lemma pbind_log {B : Type} (lv : level) (msg : message) (k : unit -> prog B)
    (tr : list event) :
  pbind (log lv msg) k tr = k tt (tr ++ [EvLog lv msg]).
Proof. reflexivity. Qed.

Lemma pbind_ok {A B : Type} (a : A) (k : A -> prog B) (tr : list event) :
  pbind (lift (Ok a)) k tr = k a tr.
Proof. reflexivity. Qed.

Lemma pbind_raise {A B : Type} (e : pyexn) (k : A -> prog B) (tr : list event) :
  pbind (lift (Raise e)) k tr = Exn tr e.
Proof. reflexivity. Qed.

Ltac run_steps :=
  repeat first [ rewrite pbind_emit | rewrite pbind_log
               | rewrite pbind_ok | rewrite pbind_raise ].

(** ** Facts on the sampling loop *)

Section LoopFacts.

Variables (w : world) (cap : video) (video_path output_folder_path : string).
Variables (interval fps : float) (total_frames : Z) (duration_sec : float).

Local Abbreviation loop fuel k t saved :=
  (sampling_loop w fuel cap video_path output_folder_path interval fps
     total_frames duration_sec k t saved).

Lemma target_eq k n :
  math_floor (instant interval k * fps) = Ok n -> target interval fps k = n.
Proof. unfold target, target_of. intros ->. reflexivity. Qed.

(** An iteration whose read fails. *)
Lemma loop_step_fail fuel k t saved tr n :
  (t <=? duration_sec)%float = true ->
  math_floor (t * fps) = Ok n -> n < total_frames ->
  v_read cap k n = false ->
  loop (S fuel) k t saved tr
  = loop fuel (S k) (t + interval)%float saved
      (tr ++ [EvSeek n; EvRead n false; EvLog INFO (MsgReadFailed n t)]).
Proof.
  intros Hc Hf Hn Hr. cbn [sampling_loop]. rewrite Hc.
  unfold pbind at 1. rewrite Hf. cbn [lift ret].
  destruct (Z.geb_spec n total_frames) as [Hge|_]; [lia|].
  rewrite Hr. cbn [negb]. unfold pbind, emit, log, emit.
  rewrite <- !app_assoc. reflexivity.
Qed.

(** An iteration whose read succeeds. *)
Lemma loop_step_save fuel k t saved tr n ts b :
  (t <=? duration_sec)%float = true ->
  math_floor (t * fps) = Ok n -> n < total_frames ->
  v_read cap k n = true ->
  format_time t = Ok ts ->
  w_imwrite w (path_join output_folder_path (output_filename video_path ts)) n = Ok b ->
  loop (S fuel) k t saved tr
  = loop fuel (S k) (t + interval)%float (saved + 1)
      (tr ++ [EvSeek n; EvRead n true;
              EvImwrite (path_join output_folder_path (output_filename video_path ts)) n b;
              EvLog INFO (MsgSaved (path_join output_folder_path
                                      (output_filename video_path ts)) n)]).
Proof.
  intros Hc Hf Hn Hr Hts Hw. cbn [sampling_loop]. rewrite Hc.
  unfold pbind at 1. rewrite Hf. cbn [lift ret].
  destruct (Z.geb_spec n total_frames) as [Hge|_]; [lia|].
  rewrite Hr. cbn [negb]. unfold pbind, emit, log, emit.
  rewrite Hts. cbn [lift ret]. rewrite Hw. cbn [lift ret].
  rewrite <- !app_assoc. reflexivity.
Qed.

(** The ways out of the loop: the condition, the rounding of the frame
    index, the end of the stream, the formatting and the write. *)
Lemma loop_exit_condition fuel k t saved tr :
  (t <=? duration_sec)%float = false ->
  loop (S fuel) k t saved tr = Done tr saved.
Proof. intros Hc. cbn [sampling_loop]. rewrite Hc. reflexivity. Qed.

Lemma loop_floor_raises fuel k t saved tr e :
  (t <=? duration_sec)%float = true ->
  math_floor (t * fps) = Raise e ->
  loop (S fuel) k t saved tr = Exn tr e.
Proof.
  intros Hc Hf. cbn [sampling_loop]. rewrite Hc. unfold pbind at 1. rewrite Hf.
  reflexivity.
Qed.

Lemma loop_break fuel k t saved tr n :
  (t <=? duration_sec)%float = true ->
  math_floor (t * fps) = Ok n -> total_frames <= n ->
  loop (S fuel) k t saved tr = Done tr saved.
Proof.
  intros Hc Hf Hn. cbn [sampling_loop]. rewrite Hc. unfold pbind at 1. rewrite Hf.
  cbn [lift ret]. destruct (Z.geb_spec n total_frames) as [_|Hlt]; [reflexivity | lia].
Qed.

Lemma loop_format_raises fuel k t saved tr n e :
  (t <=? duration_sec)%float = true ->
  math_floor (t * fps) = Ok n -> n < total_frames ->
  v_read cap k n = true ->
  format_time t = Raise e ->
  loop (S fuel) k t saved tr = Exn (tr ++ [EvSeek n; EvRead n true]) e.
Proof.
  intros Hc Hf Hn Hr Hts. cbn [sampling_loop]. rewrite Hc.
  unfold pbind at 1. rewrite Hf. cbn [lift ret].
  destruct (Z.geb_spec n total_frames) as [Hge|_]; [lia|].
  rewrite Hr. cbn [negb]. unfold pbind, emit.
  rewrite Hts. cbn [lift raise]. rewrite <- !app_assoc. reflexivity.
Qed.

Lemma loop_write_raises fuel k t saved tr n ts e :
  (t <=? duration_sec)%float = true ->
  math_floor (t * fps) = Ok n -> n < total_frames ->
  v_read cap k n = true ->
  format_time t = Ok ts ->
  w_imwrite w (path_join output_folder_path (output_filename video_path ts)) n
  = Raise e ->
  loop (S fuel) k t saved tr = Exn (tr ++ [EvSeek n; EvRead n true]) e.
Proof.
  intros Hc Hf Hn Hr Hts Hw. cbn [sampling_loop]. rewrite Hc.
  unfold pbind at 1. rewrite Hf. cbn [lift ret].
  destruct (Z.geb_spec n total_frames) as [Hge|_]; [lia|].
  rewrite Hr. cbn [negb]. unfold pbind, emit.
  rewrite Hts. cbn [lift ret]. rewrite Hw. cbn [lift raise].
  rewrite <- !app_assoc. reflexivity.
Qed.

(** The loop stops. *)
Lemma loop_stop fuel k saved tr :
  iteration_stops interval fps total_frames duration_sec k ->
  loop (S fuel) k (instant interval k) saved tr = Done tr saved.
Proof.
  intros [Hc | [Hc [n [Hf Hn]]]]; cbn [sampling_loop]; rewrite Hc.
  - reflexivity.
  - unfold pbind. rewrite Hf. cbn [lift ret].
    destruct (Z.geb_spec n total_frames) as [_|Hlt]; [reflexivity | lia].
Qed.

Lemma loop_one k fuel saved tr :
  iteration_runs w cap video_path output_folder_path interval fps
    total_frames duration_sec k ->
  loop (S fuel) k (instant interval k) saved tr
  = loop fuel (S k) (instant interval (S k))
      (saved + Z.of_nat (successes cap interval fps k 1))
      (tr ++ iteration_events w cap video_path output_folder_path interval fps k).
Proof.
  intros [Hc [[n [Hf Hn]] Hs]].
  pose proof (target_eq k n Hf) as Ht.
  unfold successes, iteration_events. cbn [seq filter].
  unfold read_ok in *. rewrite Ht in *.
  destruct (v_read cap k n) eqn:Hr.
  - destruct (Hs eq_refl) as [[ts Hts] [b Hb]].
    unfold written_of. rewrite Hb.
    unfold output_path in *. unfold stamp_of in *. rewrite Hts in *.
    rewrite (loop_step_save fuel k _ saved tr n ts b); auto.
  - rewrite (loop_step_fail fuel k _ saved tr n); auto.
    cbn [List.length]. rewrite Z.add_0_r. reflexivity.
Qed.

Lemma successes_split k n :
  successes cap interval fps k (S n)
  = (successes cap interval fps k 1 + successes cap interval fps (S k) n)%nat.
Proof.
  unfold successes. cbn [seq filter].
  destruct (read_ok cap interval fps k); reflexivity.
Qed.

Lemma loop_many n : forall k fuel saved tr,
  (forall j, (k <= j < k + n)%nat ->
     iteration_runs w cap video_path output_folder_path interval fps
       total_frames duration_sec j) ->
  loop (n + fuel) k (instant interval k) saved tr
  = loop fuel (k + n) (instant interval (k + n))
      (saved + Z.of_nat (successes cap interval fps k n))
      (tr ++ iterations_events w cap video_path output_folder_path interval fps k n).
Proof.
  induction n as [|n IH]; intros k fuel saved tr H.
  - unfold successes, iterations_events. cbn [seq filter flat_map List.length Nat.add].
    rewrite Nat.add_0_r, Z.add_0_r, app_nil_r. reflexivity.
  - change (S n + fuel)%nat with (S (n + fuel)).
    rewrite loop_one by (apply H; lia).
    rewrite IH by (intros j Hj; apply H; lia).
    replace (k + S n)%nat with (S k + n)%nat by lia.
    rewrite (successes_split k n), Nat2Z.inj_add, Z.add_assoc.
    unfold iterations_events. cbn [seq flat_map].
    rewrite <- app_assoc. reflexivity.
Qed.

(** The loop runs [n] iterations and stops at the test of the next. *)
Lemma loop_run n fuel tr :
  (forall j, (j < n)%nat ->
     iteration_runs w cap video_path output_folder_path interval fps
       total_frames duration_sec j) ->
  iteration_stops interval fps total_frames duration_sec n ->
  (n < fuel)%nat ->
  loop fuel 0 0%float 0 tr
  = Done (tr ++ iterations_events w cap video_path output_folder_path interval fps 0 n)
      (Z.of_nat (successes cap interval fps 0 n)).
Proof.
  intros Hrun Hstop Hfuel.
  replace fuel with (n + S (fuel - n - 1))%nat by lia.
  change 0%float with (instant interval 0).
  rewrite loop_many by (intros j Hj; apply Hrun; lia).
  cbn [Nat.add]. rewrite loop_stop by exact Hstop. reflexivity.
Qed.

Lemma successes_failures k n :
  (successes cap interval fps k n + failures cap interval fps k n = n)%nat.
Proof.
  unfold successes, failures.
  transitivity (List.length (seq k n)); [|apply length_seq].
  generalize (seq k n). intro l. induction l as [|j l IH]; [reflexivity|].
  cbn [filter]. destruct (read_ok cap interval fps j); cbn [negb List.length]; lia.
Qed.

Lemma seeks_iterations k n :
  seeks (iterations_events w cap video_path output_folder_path interval fps k n)
  = map (target interval fps) (seq k n).
Proof.
  unfold iterations_events. generalize (seq k n). intro l.
  induction l as [|j l IH]; [reflexivity|].
  cbn [flat_map map]. unfold seeks in *. rewrite flat_map_app, IH.
  unfold iteration_events. destruct (read_ok cap interval fps j); reflexivity.
Qed.

End LoopFacts.

(** The first index past the end of the stream. *)
Lemma first_past_spec tg total bound : forall k,
  (k <= first_past tg total bound k <= k + bound)%nat /\
  (forall j, (k <= j < first_past tg total bound k)%nat -> tg j < total) /\
  ((first_past tg total bound k < k + bound)%nat ->
   total <= tg (first_past tg total bound k)).
Proof.
  induction bound as [|bound IH]; intro k; cbn [first_past].
  - repeat split; lia.
  - destruct (Z.geb_spec (tg k) total) as [Hge|Hlt].
    + repeat split; lia.
    + destruct (IH (S k)) as [[L U] [B S]]. split; [lia|]. split.
      * intros j Hj. destruct (Nat.eq_dec j k) as [->|Hne]; [exact Hlt|].
        apply B. lia.
      * intro H. apply S. lia.
Qed.

(** ** Facts on [extract_frames_by_interval] *)

Section FunctionFacts.

Variable w : world.

Lemma seeks_app tr1 tr2 : seeks (tr1 ++ tr2) = seeks tr1 ++ seeks tr2.
Proof. apply flat_map_app. Qed.

Lemma reads_app tr1 tr2 : reads (tr1 ++ tr2) = reads tr1 ++ reads tr2.
Proof. apply flat_map_app. Qed.

Lemma written_paths_app tr1 tr2 :
  written_paths (tr1 ++ tr2) = written_paths tr1 ++ written_paths tr2.
Proof. apply flat_map_app. Qed.

Lemma mkdirs_app tr1 tr2 : mkdirs (tr1 ++ tr2) = mkdirs tr1 ++ mkdirs tr2.
Proof. apply flat_map_app. Qed.

Lemma releases_app tr1 tr2 : releases (tr1 ++ tr2) = releases tr1 ++ releases tr2.
Proof. apply flat_map_app. Qed.

Lemma calls_app tr1 tr2 : calls (tr1 ++ tr2) = calls tr1 ++ calls tr2.
Proof. apply flat_map_app. Qed.

Lemma quiet_nil : quiet [].
Proof. repeat split. Qed.

Lemma quiet_app tr1 tr2 : quiet tr1 -> quiet tr2 -> quiet (tr1 ++ tr2).
Proof.
  intros [R1 [M1 C1]] [R2 [M2 C2]]. unfold quiet.
  rewrite releases_app, mkdirs_app, calls_app, R1, R2, M1, M2, C1, C2.
  repeat split.
Qed.

Lemma loop_quiet cap video_path output_folder_path interval fps total_frames
    duration_sec fuel :
  forall k t saved tr,
    match sampling_loop w fuel cap video_path output_folder_path interval fps
            total_frames duration_sec k t saved tr with
    | Done tr1 _ | Exn tr1 _ => exists tr', tr1 = tr ++ tr' /\ quiet tr'
    | Timeout => True
    end.
Proof.
  induction fuel as [|fuel IH]; intros k t saved tr; [exact I|].
  cbn [sampling_loop].
  destruct (t <=? duration_sec)%float.
  2:{ exists []. rewrite app_nil_r. split; [reflexivity | apply quiet_nil]. }
  unfold pbind at 1.
  destruct (math_floor (t * fps)) as [n|e]; cbn [lift ret raise].
  2:{ exists []. rewrite app_nil_r. split; [reflexivity | apply quiet_nil]. }
  destruct (n >=? total_frames).
  { exists []. rewrite app_nil_r. split; [reflexivity | apply quiet_nil]. }
  unfold pbind at 1. unfold emit at 1. unfold pbind at 1. unfold emit at 1.
  destruct (v_read cap k n); cbn [negb].
  - unfold pbind at 1.
    destruct (format_time t) as [ts|e]; cbn [lift ret raise].
    2:{ eexists. rewrite <- app_assoc. split; [reflexivity | repeat split]. }
    unfold pbind at 1.
    destruct (w_imwrite w _ n) as [b|e]; cbn [lift ret raise].
    2:{ eexists. rewrite <- app_assoc. split; [reflexivity | repeat split]. }
    unfold pbind at 1. unfold emit at 1. unfold pbind at 1. unfold log, emit at 1.
    match goal with |- match sampling_loop _ _ _ _ _ _ _ _ _ ?k' ?t' ?s' ?tr' with _ => _ end =>
      specialize (IH k' t' s' tr');
      destruct (sampling_loop w fuel cap video_path output_folder_path interval fps
                  total_frames duration_sec k' t' s' tr') as [tr1 a|tr1 e|]
    end; try exact I;
      destruct IH as [tr' [-> Q]]; eexists; rewrite <- !app_assoc;
      (split; [reflexivity | apply quiet_app; [repeat split | exact Q]]).
  - unfold pbind at 1. unfold log, emit at 1.
    match goal with |- match sampling_loop _ _ _ _ _ _ _ _ _ ?k' ?t' ?s' ?tr' with _ => _ end =>
      specialize (IH k' t' s' tr');
      destruct (sampling_loop w fuel cap video_path output_folder_path interval fps
                  total_frames duration_sec k' t' s' tr') as [tr1 a|tr1 e|]
    end; try exact I;
      destruct IH as [tr' [-> Q]]; eexists; rewrite <- !app_assoc;
      (split; [reflexivity | apply quiet_app; [repeat split | exact Q]]).
Qed.

(** The function on a video that opens with a frame rate other than 0. *)
Lemma extract_unfold fuel video_path output_folder_path interval tr cap
    total_frames duration_sec :
  w_is_file w video_path = true ->
  w_open w video_path = Some cap ->
  py_int (v_frame_count cap) = Ok total_frames ->
  duration_of total_frames (v_fps cap) = Ok duration_sec ->
  (v_fps cap =? 0)%float = false ->
  w_mkdir w output_folder_path = None ->
  extract_frames_by_interval w fuel video_path output_folder_path interval tr
  = match sampling_loop w fuel cap video_path output_folder_path interval
            (v_fps cap) total_frames duration_sec 0 0%float 0
            (tr ++ prologue_events video_path output_folder_path (v_fps cap)
                     total_frames duration_sec interval) with
    | Done tr1 saved => Done (tr1 ++ epilogue_events video_path saved) tt
    | Exn tr1 e => Exn tr1 e
    | Timeout => Timeout
    end.
Proof.
  intros Hf Ho Hn Hd Hz Hm. unfold extract_frames_by_interval.
  unfold pbind at 1. unfold emit at 1. rewrite Hf. cbn [negb]. rewrite Ho.
  unfold pbind at 1. unfold emit at 1.
  unfold pbind at 1. rewrite Hn. cbn [lift ret].
  unfold pbind at 1. rewrite Hd. cbn [lift ret]. rewrite Hz.
  do 7 (unfold pbind at 1; unfold log at 1; unfold emit at 1).
  rewrite Hm.
  do 2 (unfold pbind at 1; try unfold log at 1; unfold emit at 1).
  unfold pbind at 1. unfold prologue_events. rewrite <- !app_assoc. cbn [app].
  destruct (sampling_loop w fuel cap video_path output_folder_path interval
              (v_fps cap) total_frames duration_sec 0 0%float 0 _) as [tr1 saved|tr1 e|];
    try reflexivity.
  unfold pbind, log, emit, epilogue_events. rewrite <- !app_assoc. reflexivity.
Qed.



(** The function on a video whose frame rate reads as 0. *)
Lemma extract_invalid_fps fuel video_path output_folder_path interval tr cap
    total_frames duration_sec :
  w_is_file w video_path = true ->
  w_open w video_path = Some cap ->
  py_int (v_frame_count cap) = Ok total_frames ->
  duration_of total_frames (v_fps cap) = Ok duration_sec ->
  (v_fps cap =? 0)%float = true ->
  extract_frames_by_interval w fuel video_path output_folder_path interval tr
  = Done (tr ++ [EvCall video_path; EvOpen video_path; EvLog INFO MsgFpsInvalid;
                 EvRelease video_path]) tt.
Proof.
  intros Hf Ho Hn Hd Hz. unfold extract_frames_by_interval. run_steps.
  rewrite Hf. cbn [negb]. rewrite Ho. run_steps. rewrite Hn. run_steps.
  rewrite Hd. run_steps. rewrite Hz. run_steps. unfold emit.
  rewrite <- !app_assoc. reflexivity.
Qed.

(** The function when the output folder cannot be created. *)
Lemma extract_mkdir_raises fuel video_path output_folder_path interval tr cap
    total_frames duration_sec e :
  w_is_file w video_path = true ->
  w_open w video_path = Some cap ->
  py_int (v_frame_count cap) = Ok total_frames ->
  duration_of total_frames (v_fps cap) = Ok duration_sec ->
  (v_fps cap =? 0)%float = false ->
  w_mkdir w output_folder_path = Some e ->
  exists tr', 
    extract_frames_by_interval w fuel video_path output_folder_path interval tr
    = Exn (tr ++ tr') e /\ written_paths tr' = [].
Proof.
  intros Hf Ho Hn Hd Hz Hm. unfold extract_frames_by_interval. run_steps.
  rewrite Hf. cbn [negb]. rewrite Ho. run_steps. rewrite Hn. run_steps.
  rewrite Hd. run_steps. rewrite Hz. run_steps. rewrite Hm. unfold raise.
  eexists. rewrite <- !app_assoc. split; reflexivity.
Qed.

(** The calls and the releases of a run of the function. *)
Lemma extract_trace fuel video_path output_folder_path interval tr :
  match extract_frames_by_interval w fuel video_path output_folder_path interval tr with
  | Done tr1 _ =>
      exists tr', tr1 = tr ++ tr' /\ calls tr' = [video_path] /\
                  releases tr' = if opened w video_path then [video_path] else []
  | Exn tr1 _ =>
      exists tr', tr1 = tr ++ tr' /\ calls tr' = [video_path] /\ releases tr' = []
  | Timeout => True
  end.
Proof.
  unfold extract_frames_by_interval, opened. run_steps.
  destruct (w_is_file w video_path) eqn:Hf; cbn [negb andb].
  2:{ unfold log, emit. eexists. rewrite <- app_assoc. repeat split. }
  destruct (w_open w video_path) as [cap|] eqn:Hopen.
  2:{ run_steps. unfold log, emit. eexists. rewrite <- !app_assoc. repeat split. }
  run_steps.
  destruct (py_int (v_frame_count cap)) as [n|e]; run_steps.
  2:{ eexists. rewrite <- !app_assoc. repeat split. }
  destruct (duration_of n (v_fps cap)) as [d|e]; run_steps.
  2:{ eexists. rewrite <- !app_assoc. repeat split. }
  destruct (v_fps cap =? 0)%float.
  { run_steps. unfold emit. eexists. rewrite <- !app_assoc. repeat split. }
  run_steps.
  destruct (w_mkdir w output_folder_path) as [e|].
  { unfold raise. eexists. rewrite <- !app_assoc. repeat split. }
  run_steps. unfold pbind at 1.
  match goal with |- match match sampling_loop _ _ ?c ?v ?o ?i ?f ?n ?d ?k ?t ?s ?tr0 with _ => _ end with _ => _ end =>
    pose proof (loop_quiet c v o i f n d fuel k t s tr0) as Q;
    destruct (sampling_loop w fuel c v o i f n d k t s tr0) as [tr1 saved|tr1 e|]
  end; try exact I.
  - destruct Q as [tr' [-> [R [M C]]]]. run_steps. unfold emit.
    eexists. rewrite <- !app_assoc. split; [reflexivity|].
    rewrite !calls_app, !releases_app, C, R. split; reflexivity.
  - destruct Q as [tr' [-> [R [M C]]]].
    eexists. rewrite <- !app_assoc. split; [reflexivity|].
    rewrite !calls_app, !releases_app, C, R. split; reflexivity.
Qed.

(** The body of the batch loop, and the loop. *)
Local Abbreviation batch_body fuel output_folder_path interval :=
  (fun video_path =>
     try_except_finally
       (extract_frames_by_interval w fuel video_path output_folder_path interval)
       (fun e => log ERROR (MsgBatchError e))
       (log INFO MsgBatchContinue)).

Lemma batch_loop fuel output_folder_path interval entries :
  forall tr,
    match for_each entries (batch_body fuel output_folder_path interval) tr with
    | Done tr2 _ =>
        batch_trace w fuel output_folder_path interval entries tr tr2 /\
        calls tr2 = calls tr ++ entries
    | Exn _ _ => False
    | Timeout => True
    end.
Proof.
  induction entries as [|video_path rest IH]; intro tr.
  - cbn [for_each ret]. split; [constructor | rewrite app_nil_r; reflexivity].
  - cbn [for_each]. unfold pbind at 1. unfold try_except_finally.
    pose proof (extract_trace fuel video_path output_folder_path interval tr) as T.
    destruct (extract_frames_by_interval w fuel video_path output_folder_path
                interval tr) as [tr1 []|tr1 e|] eqn:He; try exact I.
    + destruct T as [tr' [-> [C _]]]. unfold log at 1, emit at 1.
      specialize (IH ((tr ++ tr') ++ [EvLog INFO MsgBatchContinue])).
      destruct (for_each rest _ _) as [tr2 []|tr2 e|]; try exact IH.
      destruct IH as [B Cs]. split.
      * eapply batch_returned; eassumption.
      * rewrite Cs, !calls_app, C. cbn [calls flat_map]. rewrite app_nil_r, <- app_assoc.
        reflexivity.
    + destruct T as [tr' [-> [C _]]]. unfold log at 1, emit at 1. unfold log at 1, emit at 1.
      specialize (IH (((tr ++ tr') ++ [EvLog ERROR (MsgBatchError e)])
                        ++ [EvLog INFO MsgBatchContinue])).
      destruct (for_each rest _ _) as [tr2 []|tr2 e'|]; try exact IH.
      destruct IH as [B Cs]. split.
      * eapply batch_raised; [eassumption|]. rewrite <- app_assoc in B. exact B.
      * rewrite Cs, !calls_app, C. cbn [calls flat_map]. rewrite !app_nil_r, <- app_assoc.
        reflexivity.
Qed.

End FunctionFacts.

(** ** Facts on the file names *)

Module NameFacts.

Import F64 F64Facts PyNumFacts FormatFacts.

Lemma append_assoc (a b c : string) : ((a ++ b) ++ c = a ++ (b ++ c))%string.
Proof. induction a as [|x a IH]; cbn [append]; [reflexivity | rewrite IH; reflexivity]. Qed.

Lemma append_inv_head (a b c : string) : (a ++ b = a ++ c)%string -> b = c.
Proof.
  induction a as [|x a IH]; cbn [append]; intro H; [exact H|].
  injection H as H. apply IH, H.
Qed.

(** The number read from a string of decimal digits. *)
Local Abbreviation number_of s :=
  (option_map N.of_uint (NilEmpty.uint_of_string s)).

Lemma number_of_digits n : number_of (digits_of n) = Some (Z.to_N n).
Proof.
  unfold digits_of, NilZero.string_of_uint.
  pose proof (Unsigned.of_to (Z.to_N n)) as Hd.
  set (d := N.to_uint (Z.to_N n)) in *. rewrite <- Hd. clearbody d.
  destruct d; try reflexivity; rewrite NilEmpty.usu; reflexivity.
Qed.

Lemma number_of_zeros k s : number_of (zeros k ++ s) = number_of s.
Proof.
  induction k as [|k IH]; [reflexivity|].
  rewrite <- IH. cbn [zeros append NilEmpty.uint_of_string].
  destruct (NilEmpty.uint_of_string (zeros k ++ s)) as [d|]; reflexivity.
Qed.

Lemma number_of_format w z : 0 <= z -> number_of (format_0d w z) = Some (Z.to_N z).
Proof.
  intro Hz. unfold format_0d.
  destruct (Z.ltb_spec z 0) as [Hlt|_]; [lia|].
  cbn [append]. rewrite number_of_zeros, Z.abs_eq by exact Hz.
  apply number_of_digits.
Qed.

Lemma digits_tail x a :
  NilEmpty.uint_of_string (String x a) <> None -> NilEmpty.uint_of_string a <> None.
Proof.
  cbn [NilEmpty.uint_of_string]. intros H E. rewrite E in H. apply H. reflexivity.
Qed.

(** A field of digits ends at the first character that is not a digit. *)
Lemma field_split c : (forall d, uint_of_char c d = None) ->
  forall a a' r r',
    NilEmpty.uint_of_string a <> None -> NilEmpty.uint_of_string a' <> None ->
    (a ++ String c r = a' ++ String c r')%string -> a = a' /\ r = r'.
Proof.
  intros Hc. induction a as [|x a IH]; intros [|x' a'] r r' Ha Ha' E; cbn [append] in E.
  - injection E as E. split; [reflexivity | exact E].
  - injection E as Ex _. subst x'. exfalso. apply Ha'. apply Hc.
  - injection E as Ex _. subst x. exfalso. apply Ha. apply Hc.
  - injection E as Ex E. subst x'.
    destruct (IH a' r r' (digits_tail _ _ Ha) (digits_tail _ _ Ha') E) as [-> ->].
    split; reflexivity.
Qed.

Lemma format_digits w z : 0 <= z -> NilEmpty.uint_of_string (format_0d w z) <> None.
Proof.
  intros Hz E. pose proof (number_of_format w z Hz) as H. rewrite E in H. discriminate.
Qed.

Lemma format_inj w z z' :
  0 <= z -> 0 <= z' -> format_0d w z = format_0d w z' -> z = z'.
Proof.
  intros Hz Hz' E. pose proof (number_of_format w z Hz) as H.
  rewrite E, (number_of_format w z' Hz') in H. injection H as H.
  symmetry in H. apply Z2N.inj; assumption.
Qed.

(** The fields of hours, minutes and seconds of a timestamp are read back
    from its text. *)
Lemma timestamp_inj h m s ms h' m' s' ms' suffix :
  0 <= h -> 0 <= m -> 0 <= s -> 0 <= h' -> 0 <= m' -> 0 <= s' ->
  (timestamp h m s ms ++ suffix = timestamp h' m' s' ms' ++ suffix)%string ->
  h = h' /\ m = m' /\ s = s'.
Proof.
  intros Hh Hm Hs Hh' Hm' Hs' E. unfold timestamp in E.
  rewrite !append_assoc in E. cbn [append] in E.
  apply (field_split "h") in E;
    [|intros [d|]; reflexivity|apply format_digits; assumption..].
  destruct E as [Eh E].
  apply (field_split "m") in E;
    [|intros [d|]; reflexivity|apply format_digits; assumption..].
  destruct E as [Em E].
  apply (field_split "s") in E;
    [|intros [d|]; reflexivity|apply format_digits; assumption..].
  destruct E as [Es _].
  repeat split; eapply format_inj; eassumption.
Qed.

(** A path carries the timestamp of one second only. *)
Lemma stamped_inj output_folder_path video_path path sec sec' :
  stamped output_folder_path video_path path sec ->
  stamped output_folder_path video_path path sec' -> sec = sec'.
Proof.
  intros [H0 [ms [_ E]]] [H0' [ms' [_ E']]]. rewrite E in E'. clear E.
  unfold path_join, output_filename in E'.
  apply append_inv_head in E'. cbn [append] in E'. injection E' as E'.
  apply append_inv_head in E'. cbn [append] in E'. injection E' as E'.
  apply timestamp_inj in E'; try (apply Z.div_pos; lia);
    try (apply Z.mod_pos_bound; lia);
    try (apply Z.div_pos; [apply Z.mod_pos_bound|]; lia).
  destruct E' as [Eh [Em Es]].
  Z.div_mod_to_equations. lia.
Qed.

(** A run that writes the same name at two places. *)
Lemma repeated_name {A : Type} (o : outcome A) (i j : nat) :
  i <> j ->
  match outcome_trace o with
  | Some t =>
      match nth_error (written_paths t) i, nth_error (written_paths t) j with
      | Some a, Some b => String.eqb a b
      | _, _ => false
      end
  | None => false
  end = true ->
  exists tr1, outcome_trace o = Some tr1 /\ ~ NoDup (written_paths tr1).
Proof.
  intros Hij H. destruct (outcome_trace o) as [t|]; [|discriminate].
  exists t. split; [reflexivity|]. intro ND.
  destruct (nth_error (written_paths t) i) as [a|] eqn:Ei; [|discriminate].
  destruct (nth_error (written_paths t) j) as [b|] eqn:Ej; [|discriminate].
  apply String.eqb_eq in H. subst b.
  rewrite NoDup_nth_error in ND. apply Hij, ND.
  - apply nth_error_Some. congruence.
  - congruence.
Qed.

Lemma Forall2_In_l {A B : Type} (R : A -> B -> Prop) l l' x :
  Forall2 R l l' -> In x l -> exists y, In y l' /\ R x y.
Proof.
  induction 1 as [|a b l l' Hab _ IH]; intros Hin; [destruct Hin|].
  destruct Hin as [->|Hin].
  - exists b. split; [left; reflexivity | exact Hab].
  - destruct (IH Hin) as [y [Hy Hxy]]. exists y. split; [right; exact Hy | exact Hxy].
Qed.

(** Names stamped with seconds that increase are pairwise distinct. *)
Lemma stamped_NoDup output_folder_path video_path paths secs :
  Forall2 (stamped output_folder_path video_path) paths secs ->
  StronglySorted Z.lt secs -> NoDup paths.
Proof.
  induction 1 as [|p s ps ss Hp Hps IH]; intro Hs; constructor.
  - intro Hin. apply StronglySorted_inv in Hs. destruct Hs as [_ Hlt].
    destruct (Forall2_In_l _ _ _ _ Hps Hin) as [s' [Hs' Hp']].
    rewrite Forall_forall in Hlt. specialize (Hlt s' Hs').
    pose proof (stamped_inj _ _ _ _ _ Hp Hp'). lia.
  - apply IH. apply StronglySorted_inv in Hs. apply Hs.
Qed.

(** ** The instants of a loop whose interval is a second or more *)

Lemma nonneg_float x :
  finiteb x = true -> 0 <= units x -> SFnonneg (Prim2SF x) = true.
Proof.
  intros F U. destruct (nonneg_cases x F U) as [[s H]|[m [e [H _]]]]; rewrite H; reflexivity.
Qed.

Lemma add_lower x y r :
  finiteb x = true -> 0 <= units x -> finiteb y = true -> 0 <= units y ->
  units x + units y < 2 ^ 53 * 2 ^ 1074 ->
  0 <= r -> r * 2 ^ 1074 <= units x + units y ->
  finiteb (x + y) = true /\ r * 2 ^ 1074 <= units (x + y).
Proof.
  intros Fx Ux Fy Uy Hb Hr Hle. unfold finiteb, units. rewrite add_spec.
  apply F64RoundFacts.SFadd_lower; auto using Prim2SF_valid, nonneg_float.
Qed.

Section Instants.

Variables (interval duration_sec : float).
Hypothesis interval_finite : finiteb interval = true.
Hypothesis interval_second : 2 ^ 1074 <= units interval.
Hypothesis duration_finite : finiteb duration_sec = true.
Hypothesis duration_bound : units duration_sec + units interval < 2 ^ 53 * 2 ^ 1074.

(** While the loop condition holds, the next instant is at least a whole
    second later. *)
Lemma next_instant t :
  finiteb t = true -> 0 <= units t ->
  (t <=? duration_sec)%float = true ->
  finiteb (t + interval) = true /\ 0 <= units (t + interval) /\
  whole_seconds t + 1 <= whole_seconds (t + interval).
Proof.
  intros Ft Ut Hc. rewrite (leb_units _ _ Ft duration_finite) in Hc.
  apply Z.leb_le in Hc.
  assert (P : 0 < 2 ^ 1074) by (apply Z.pow_pos_nonneg; lia).
  pose proof (Z.mul_div_le (units t) (2 ^ 1074) P) as Hfl.
  assert (H0 : 0 <= units t / 2 ^ 1074) by (apply Z.div_pos; lia).
  destruct (add_lower t interval (units t / 2 ^ 1074 + 1)) as [F L];
    try assumption; try lia.
  split; [exact F|]. split; [nia|].
  unfold whole_seconds. apply Z.div_le_lower_bound; lia.
Qed.

(** An instant a whole second past the duration fails the loop condition. *)
Lemma past_end t :
  finiteb t = true ->
  whole_seconds duration_sec + 1 <= whole_seconds t ->
  (t <=? duration_sec)%float = false.
Proof.
  intros Ft H. rewrite (leb_units _ _ Ft duration_finite). apply Z.leb_gt.
  unfold whole_seconds in H.
  assert (P : 0 < 2 ^ 1074) by (apply Z.pow_pos_nonneg; lia).
  pose proof (Z.mul_div_le (units t) (2 ^ 1074) P).
  pose proof (Z.mul_succ_div_gt (units duration_sec) (2 ^ 1074) P). nia.
Qed.

Lemma in_range t :
  finiteb t = true -> (t <=? duration_sec)%float = true ->
  units t < 2 ^ 53 * 2 ^ 1074.
Proof.
  intros Ft Hc. rewrite (leb_units _ _ Ft duration_finite) in Hc.
  apply Z.leb_le in Hc. lia.
Qed.

End Instants.

End NameFacts.

(** ** The names written by the loop *)

Section LoopNames.

Import F64 PyNumFacts FormatFacts NameFacts.

Variables (w : world) (cap : video) (video_path output_folder_path : string).
Variables (interval fps : float) (total_frames : Z) (duration_sec : float).

Hypothesis interval_finite : finiteb interval = true.
Hypothesis interval_second : 2 ^ 1074 <= units interval.
Hypothesis duration_finite : finiteb duration_sec = true.
Hypothesis duration_bound : units duration_sec + units interval < 2 ^ 53 * 2 ^ 1074.

Local Abbreviation loop fuel k t saved :=
  (sampling_loop w fuel cap video_path output_folder_path interval fps
     total_frames duration_sec k t saved).

(** From a time [t], the loop ends within as many iterations as there are
    whole seconds up to the duration, and the names it writes carry the
    whole seconds of the instants, which increase from [t]. *)
Lemma loop_names n : forall k t saved tr,
  finiteb t = true -> 0 <= units t ->
  whole_seconds duration_sec + 1 - whole_seconds t <= Z.of_nat n ->
  exists tr' secs,
    outcome_trace (loop (S n) k t saved tr) = Some (tr ++ tr') /\
    Forall2 (stamped output_folder_path video_path) (written_paths tr') secs /\
    StronglySorted Z.lt secs /\
    Forall (fun s => whole_seconds t <= s) secs.
Proof.
  assert (Hnone : forall tr o,
            o = Some tr ->
            exists tr' secs,
              o = Some (tr ++ tr') /\
              Forall2 (stamped output_folder_path video_path) (written_paths tr') secs /\
              StronglySorted Z.lt secs /\
              Forall (fun s => 0 <= s) secs /\ secs = []).
  { intros tr o ->. exists [], []. rewrite app_nil_r.
    repeat split; constructor. }
  assert (Hend : forall (t : float) tr tr0 o,
            o = Some (tr ++ tr0) -> written_paths tr0 = [] ->
            exists tr' secs,
              o = Some (tr ++ tr') /\
              Forall2 (stamped output_folder_path video_path) (written_paths tr') secs /\
              StronglySorted Z.lt secs /\
              Forall (fun s => whole_seconds t <= s) secs).
  { intros t tr tr0 o -> Hw. exists tr0, []. rewrite Hw.
    repeat split; constructor. }
  clear Hnone.
  induction n as [|n IH]; intros k t saved tr Ft Ut Hn;
    destruct (t <=? duration_sec)%float eqn:Hc;
    try (apply (Hend t tr []); [|reflexivity];
         rewrite loop_exit_condition by exact Hc; rewrite app_nil_r; reflexivity).
  - (* no fuel is needed past the duration *)
    assert (Hp : (t <=? duration_sec)%float = false)
      by (apply (past_end duration_sec); [assumption..|lia]).
    congruence.
  - destruct (next_instant interval duration_sec interval_finite interval_second
                duration_finite duration_bound t Ft Ut Hc) as [Fn [Un Wn]].
    assert (Hn' : whole_seconds duration_sec + 1 - whole_seconds (t + interval)
                  <= Z.of_nat n) by lia.
    destruct (math_floor (t * fps)) as [n0|e] eqn:Hf.
    2:{ apply (Hend t tr []); [|reflexivity].
        rewrite (loop_floor_raises _ _ _ _ _ _ _ _ _ _ _ _ _ e Hc Hf), app_nil_r.
        reflexivity. }
    destruct (Z_lt_le_dec n0 total_frames) as [Hlt|Hge].
    2:{ apply (Hend t tr []); [|reflexivity].
        rewrite (loop_break _ _ _ _ _ _ _ _ _ _ _ _ _ n0 Hc Hf Hge), app_nil_r.
        reflexivity. }
    destruct (v_read cap k n0) eqn:Hr.
    + (* the read succeeds *)
      assert (Hb : units t < 2 ^ 53 * 2 ^ 1074)
        by (apply (in_range interval duration_sec); assumption).
      destruct (format_time_value t Ft (conj Ut Hb))
        as [frac [ms [_ [_ [_ [Hms Hts]]]]]].
      set (ts := timestamp _ _ _ ms) in Hts.
      destruct (w_imwrite w (path_join output_folder_path
                               (output_filename video_path ts)) n0) as [b|e] eqn:Hw.
      2:{ apply (Hend t tr [EvSeek n0; EvRead n0 true]); [|reflexivity].
          rewrite (loop_write_raises _ _ _ _ _ _ _ _ _ _ _ _ _ n0 ts e Hc Hf Hlt Hr Hts Hw).
          reflexivity. }
      rewrite (loop_step_save _ _ _ _ _ _ _ _ _ _ _ _ _ n0 ts b Hc Hf Hlt Hr Hts Hw).
      destruct (IH (S k) (t + interval)%float (saved + 1)
                  (tr ++ [EvSeek n0; EvRead n0 true;
                          EvImwrite (path_join output_folder_path
                                       (output_filename video_path ts)) n0 b;
                          EvLog INFO (MsgSaved (path_join output_folder_path
                                                  (output_filename video_path ts)) n0)])
                  Fn Un Hn') as [tr' [secs [E [S2 [St Lo]]]]].
      eexists. exists (whole_seconds t :: secs). split; [|split; [|split]].
      * rewrite E, <- app_assoc. reflexivity.
      * rewrite written_paths_app. cbn [written_paths flat_map app].
        constructor; [|exact S2].
        split; [apply Z.div_pos; [exact Ut | apply Z.pow_pos_nonneg; lia]|].
        exists ms. split; [exact Hms | reflexivity].
      * constructor; [exact St|].
        eapply Forall_impl; [|exact Lo]. cbv beta. intros s Hs. lia.
      * constructor; [lia|].
        eapply Forall_impl; [|exact Lo]. cbv beta. intros s Hs. lia.
    + (* the read fails *)
      rewrite (loop_step_fail _ _ _ _ _ _ _ _ _ _ _ _ _ n0 Hc Hf Hlt Hr).
      destruct (IH (S k) (t + interval)%float saved
                  (tr ++ [EvSeek n0; EvRead n0 false; EvLog INFO (MsgReadFailed n0 t)])
                  Fn Un Hn') as [tr' [secs [E [S2 [St Lo]]]]].
      eexists. exists secs. split; [|split; [|split]].
      * rewrite E, <- app_assoc. reflexivity.
      * rewrite written_paths_app. cbn [written_paths flat_map app]. exact S2.
      * exact St.
      * eapply Forall_impl; [|exact Lo]. cbv beta. intros s Hs. lia.
Qed.

End LoopNames.

(** ** The discipline of the loop: seeks, reads and writes *)

Section LoopDiscipline.

Variables (w : world) (cap : video) (video_path output_folder_path : string).
Variables (interval fps : float) (total_frames : Z) (duration_sec : float).

Local Abbreviation loop fuel k t saved :=
  (sampling_loop w fuel cap video_path output_folder_path interval fps
     total_frames duration_sec k t saved).

Ltac observe :=
  unfold frames_read, seeks, reads, written_frames, written_paths in *;
  rewrite ?flat_map_app;
  cbn [flat_map Datatypes.app map filter fst snd List.length].

(** Whatever the way out: every index sought is below the frame count, each
    seek is followed by the read of the same index, and each frame read is
    handed once to the encoder, in order; the flag of each read is an
    answer of the decoder; on a return [saved_count] has
    grown by the number of writes, and when an exception cuts the iteration
    short at most the last frame read is left unwritten. *)
Lemma loop_discipline fuel : forall k t saved tr,
  match loop fuel k t saved tr with
  | Done tr1 saved' =>
      exists tr', tr1 = tr ++ tr' /\
        Forall (fun n => n < total_frames) (seeks tr') /\
        map fst (reads tr') = seeks tr' /\
        Forall (fun r => exists j, v_read cap j (fst r) = snd r) (reads tr') /\
        written_frames tr' = frames_read tr' /\
        saved' = saved + Z.of_nat (List.length (written_paths tr'))
  | Exn tr1 _ =>
      exists tr' rest, tr1 = tr ++ tr' /\
        Forall (fun n => n < total_frames) (seeks tr') /\
        map fst (reads tr') = seeks tr' /\
        Forall (fun r => exists j, v_read cap j (fst r) = snd r) (reads tr') /\
        frames_read tr' = written_frames tr' ++ rest /\
        (List.length rest <= 1)%nat
  | Timeout => True
  end.
Proof.
  induction fuel as [|fuel IH]; intros k t saved tr; [exact I|].
  destruct (t <=? duration_sec)%float eqn:Hc.
  2:{ rewrite loop_exit_condition by exact Hc. exists []. rewrite app_nil_r.
      repeat split; try constructor. cbn. lia. }
  destruct (math_floor (t * fps)) as [n|e] eqn:Hf.
  2:{ rewrite (loop_floor_raises _ _ _ _ _ _ _ _ _ _ _ _ _ e Hc Hf).
      exists [], []. rewrite app_nil_r. repeat split; try constructor; cbn; lia. }
  destruct (Z_lt_le_dec n total_frames) as [Hlt|Hge].
  2:{ rewrite (loop_break _ _ _ _ _ _ _ _ _ _ _ _ _ n Hc Hf Hge).
      exists []. rewrite app_nil_r. repeat split; try constructor. cbn. lia. }
  destruct (v_read cap k n) eqn:Hr.
  - destruct (format_time t) as [ts|e] eqn:Hts.
    2:{ rewrite (loop_format_raises _ _ _ _ _ _ _ _ _ _ _ _ _ n e Hc Hf Hlt Hr Hts).
        exists [EvSeek n; EvRead n true], [n]. observe.
        repeat split; try (constructor; [assumption|constructor]); try reflexivity;
          try lia.
        constructor; [exists k; exact Hr | constructor]. }
    destruct (w_imwrite w (path_join output_folder_path
                             (output_filename video_path ts)) n) as [b|e] eqn:Hw.
    2:{ rewrite (loop_write_raises _ _ _ _ _ _ _ _ _ _ _ _ _ n ts e Hc Hf Hlt Hr Hts Hw).
        exists [EvSeek n; EvRead n true], [n]. observe.
        repeat split; try (constructor; [assumption|constructor]); try reflexivity;
          try lia.
        constructor; [exists k; exact Hr | constructor]. }
    rewrite (loop_step_save _ _ _ _ _ _ _ _ _ _ _ _ _ n ts b Hc Hf Hlt Hr Hts Hw).
    match goal with |- match sampling_loop _ _ _ _ _ _ _ _ _ ?k' ?t' ?s' ?tr0 with _ => _ end =>
      specialize (IH k' t' s' tr0);
      destruct (sampling_loop w fuel cap video_path output_folder_path interval fps
                  total_frames duration_sec k' t' s' tr0) as [tr1 saved'|tr1 e|]
    end; [| |exact I].
    + destruct IH as [tr' [-> [Hs [Hrd [Hfl [Hwf Hsv]]]]]].
      eexists. rewrite <- app_assoc. split; [reflexivity|]. observe.
      repeat split.
      * constructor; assumption.
      * f_equal. exact Hrd.
      * constructor; [exists k; exact Hr | exact Hfl].
      * f_equal. exact Hwf.
      * rewrite Hsv. lia.
    + destruct IH as [tr' [rest [-> [Hs [Hrd [Hfl [Hwf Hl]]]]]]].
      eexists. exists rest. rewrite <- app_assoc. split; [reflexivity|]. observe.
      repeat split.
      * constructor; assumption.
      * f_equal. exact Hrd.
      * constructor; [exists k; exact Hr | exact Hfl].
      * f_equal. exact Hwf.
      * exact Hl.
  - rewrite (loop_step_fail _ _ _ _ _ _ _ _ _ _ _ _ _ n Hc Hf Hlt Hr).
    match goal with |- match sampling_loop _ _ _ _ _ _ _ _ _ ?k' ?t' ?s' ?tr0 with _ => _ end =>
      specialize (IH k' t' s' tr0);
      destruct (sampling_loop w fuel cap video_path output_folder_path interval fps
                  total_frames duration_sec k' t' s' tr0) as [tr1 saved'|tr1 e|]
    end; [| |exact I].
    + destruct IH as [tr' [-> [Hs [Hrd [Hfl [Hwf Hsv]]]]]].
      eexists. rewrite <- app_assoc. split; [reflexivity|]. observe.
      repeat split.
      * constructor; assumption.
      * f_equal. exact Hrd.
      * constructor; [exists k; exact Hr | exact Hfl].
      * exact Hwf.
      * exact Hsv.
    + destruct IH as [tr' [rest [-> [Hs [Hrd [Hfl [Hwf Hl]]]]]]].
      eexists. exists rest. rewrite <- app_assoc. split; [reflexivity|]. observe.
      repeat split.
      * constructor; assumption.
      * f_equal. exact Hrd.
      * constructor; [exists k; exact Hr | exact Hfl].
      * exact Hwf.
      * exact Hl.
Qed.

(** The loop writes no summary line. *)
Lemma loop_silent fuel : forall k t saved tr,
  match loop fuel k t saved tr with
  | Done tr1 _ | Exn tr1 _ => exists tr', tr1 = tr ++ tr' /\ summaries tr' = []
  | Timeout => True
  end.
Proof.
  induction fuel as [|fuel IH]; intros k t saved tr; [exact I|].
  destruct (t <=? duration_sec)%float eqn:Hc.
  2:{ rewrite loop_exit_condition by exact Hc. exists []. rewrite app_nil_r.
      split; reflexivity. }
  destruct (math_floor (t * fps)) as [n|e] eqn:Hf.
  2:{ rewrite (loop_floor_raises _ _ _ _ _ _ _ _ _ _ _ _ _ e Hc Hf).
      exists []. rewrite app_nil_r. split; reflexivity. }
  destruct (Z_lt_le_dec n total_frames) as [Hlt|Hge].
  2:{ rewrite (loop_break _ _ _ _ _ _ _ _ _ _ _ _ _ n Hc Hf Hge).
      exists []. rewrite app_nil_r. split; reflexivity. }
  destruct (v_read cap k n) eqn:Hr.
  - destruct (format_time t) as [ts|e] eqn:Hts.
    2:{ rewrite (loop_format_raises _ _ _ _ _ _ _ _ _ _ _ _ _ n e Hc Hf Hlt Hr Hts).
        eexists. split; reflexivity. }
    destruct (w_imwrite w (path_join output_folder_path
                             (output_filename video_path ts)) n) as [b|e] eqn:Hw.
    2:{ rewrite (loop_write_raises _ _ _ _ _ _ _ _ _ _ _ _ _ n ts e Hc Hf Hlt Hr Hts Hw).
        eexists. split; reflexivity. }
    rewrite (loop_step_save _ _ _ _ _ _ _ _ _ _ _ _ _ n ts b Hc Hf Hlt Hr Hts Hw).
    match goal with |- match sampling_loop _ _ _ _ _ _ _ _ _ ?k' ?t' ?s' ?tr0 with _ => _ end =>
      specialize (IH k' t' s' tr0);
      destruct (sampling_loop w fuel cap video_path output_folder_path interval fps
                  total_frames duration_sec k' t' s' tr0) as [tr1 saved'|tr1 e|]
    end; try exact I;
      destruct IH as [tr' [-> Hs]]; eexists; rewrite <- app_assoc;
      (split; [reflexivity|]); unfold summaries in *; rewrite flat_map_app, Hs;
      reflexivity.
  - rewrite (loop_step_fail _ _ _ _ _ _ _ _ _ _ _ _ _ n Hc Hf Hlt Hr).
    match goal with |- match sampling_loop _ _ _ _ _ _ _ _ _ ?k' ?t' ?s' ?tr0 with _ => _ end =>
      specialize (IH k' t' s' tr0);
      destruct (sampling_loop w fuel cap video_path output_folder_path interval fps
                  total_frames duration_sec k' t' s' tr0) as [tr1 saved'|tr1 e|]
    end; try exact I;
      destruct IH as [tr' [-> Hs]]; eexists; rewrite <- app_assoc;
      (split; [reflexivity|]); unfold summaries in *; rewrite flat_map_app, Hs;
      reflexivity.
Qed.

End LoopDiscipline.

(** ** The shape of a run of [extract_frames_by_interval] *)

Section FunctionDiscipline.

Variable w : world.

Lemma written_frames_app tr1 tr2 :
  written_frames (tr1 ++ tr2) = written_frames tr1 ++ written_frames tr2.
Proof. apply flat_map_app. Qed.

Lemma summaries_app tr1 tr2 : summaries (tr1 ++ tr2) = summaries tr1 ++ summaries tr2.
Proof. apply flat_map_app. Qed.

Lemma written_count tr :
  List.length (written_paths tr) = List.length (written_frames tr).
Proof.
  induction tr as [|ev tr IH]; [reflexivity|].
  destruct ev; cbn [written_paths written_frames flat_map Datatypes.app List.length] in *;
    try exact IH.
  f_equal. exact IH.
Qed.

(** Either the run ends before the loop, by a return or by an exception,
    without touching the decoder, the encoder or the output folder; or the
    video has passed the checks and the folder is there. *)
Lemma extract_shape fuel video_path output_folder_path interval tr :
  (exists tr0,
     outcome_trace
       (extract_frames_by_interval w fuel video_path output_folder_path interval tr)
     = Some (tr ++ tr0) /\ idle tr0) \/
  (exists cap total_frames duration_sec,
     w_is_file w video_path = true /\
     w_open w video_path = Some cap /\
     py_int (v_frame_count cap) = Ok total_frames /\
     duration_of total_frames (v_fps cap) = Ok duration_sec /\
     (v_fps cap =? 0)%float = false /\
     w_mkdir w output_folder_path = None).
Proof.
  destruct (w_is_file w video_path) eqn:Hf.
  2:{ left. unfold extract_frames_by_interval. run_steps. rewrite Hf. cbn [negb].
      unfold log, emit. eexists. rewrite <- !app_assoc. repeat split. }
  destruct (w_open w video_path) as [cap|] eqn:Ho.
  2:{ left. unfold extract_frames_by_interval. run_steps. rewrite Hf. cbn [negb].
      rewrite Ho. run_steps. unfold log, emit. eexists. rewrite <- !app_assoc.
      repeat split. }
  destruct (py_int (v_frame_count cap)) as [n|e] eqn:Hn.
  2:{ left. unfold extract_frames_by_interval. run_steps. rewrite Hf. cbn [negb].
      rewrite Ho. run_steps. rewrite Hn. run_steps.
      eexists. rewrite <- !app_assoc. repeat split. }
  destruct (duration_of n (v_fps cap)) as [d|e] eqn:Hd.
  2:{ left. unfold extract_frames_by_interval. run_steps. rewrite Hf. cbn [negb].
      rewrite Ho. run_steps. rewrite Hn. run_steps. rewrite Hd. run_steps.
      eexists. rewrite <- !app_assoc. repeat split. }
  destruct (v_fps cap =? 0)%float eqn:Hz.
  { left. rewrite (extract_invalid_fps w fuel video_path output_folder_path interval
                     tr cap n d Hf Ho Hn Hd Hz).
    eexists. split; [reflexivity | repeat split]. }
  destruct (w_mkdir w output_folder_path) as [e|] eqn:Hm.
  { left. unfold extract_frames_by_interval. run_steps. rewrite Hf. cbn [negb].
    rewrite Ho. run_steps. rewrite Hn. run_steps. rewrite Hd. run_steps. rewrite Hz.
    run_steps. rewrite Hm. unfold raise.
    eexists. rewrite <- !app_assoc. repeat split. }
  right. exists cap, n, d. repeat split; assumption.
Qed.

(** A run on a video that has passed the checks: the lines of the video
    information and the creation of the folder, then the iterations, and on
    a return the summary, which reports the number of writes, and the
    release. *)
Lemma extract_discipline fuel video_path output_folder_path interval tr cap
    total_frames duration_sec :
  w_is_file w video_path = true ->
  w_open w video_path = Some cap ->
  py_int (v_frame_count cap) = Ok total_frames ->
  duration_of total_frames (v_fps cap) = Ok duration_sec ->
  (v_fps cap =? 0)%float = false ->
  w_mkdir w output_folder_path = None ->
  match extract_frames_by_interval w fuel video_path output_folder_path interval tr with
  | Done tr1 _ =>
      exists tr',
        tr1 = tr ++ prologue_events video_path output_folder_path (v_fps cap)
                      total_frames duration_sec interval
                 ++ tr'
                 ++ epilogue_events video_path
                      (Z.of_nat (List.length (written_paths tr'))) /\
        Forall (fun n => n < total_frames) (seeks tr') /\
        map fst (reads tr') = seeks tr' /\
        Forall (fun r => exists j, v_read cap j (fst r) = snd r) (reads tr') /\
        written_frames tr' = frames_read tr' /\
        quiet tr' /\ summaries tr' = []
  | Exn tr1 _ =>
      exists tr' rest,
        tr1 = tr ++ prologue_events video_path output_folder_path (v_fps cap)
                      total_frames duration_sec interval
                 ++ tr' /\
        Forall (fun n => n < total_frames) (seeks tr') /\
        map fst (reads tr') = seeks tr' /\
        Forall (fun r => exists j, v_read cap j (fst r) = snd r) (reads tr') /\
        frames_read tr' = written_frames tr' ++ rest /\
        (List.length rest <= 1)%nat /\
        quiet tr' /\ summaries tr' = []
  | Timeout => True
  end.
Proof.
  intros Hf Ho Hn Hd Hz Hm.
  rewrite (extract_unfold w fuel video_path output_folder_path interval tr cap
             total_frames duration_sec Hf Ho Hn Hd Hz Hm).
  set (tr0 := tr ++ prologue_events video_path output_folder_path (v_fps cap)
                      total_frames duration_sec interval).
  pose proof (loop_discipline w cap video_path output_folder_path interval (v_fps cap)
                total_frames duration_sec fuel 0%nat 0%float 0 tr0) as L.
  pose proof (loop_quiet w cap video_path output_folder_path interval (v_fps cap)
                total_frames duration_sec fuel 0%nat 0%float 0 tr0) as Q.
  pose proof (loop_silent w cap video_path output_folder_path interval (v_fps cap)
                total_frames duration_sec fuel 0%nat 0%float 0 tr0) as S.
  destruct (sampling_loop _ _ _ _ _ _ _ _ _ _ _ _ _) as [tr1 saved|tr1 e|];
    [| |exact I].
  - destruct L as [tr' [-> [Hs [Hrd [Hfl [Hwf Hsv]]]]]].
    destruct Q as [tr2 [E Q]]. apply app_inv_head in E. subst tr2.
    destruct S as [tr2 [E S]]. apply app_inv_head in E. subst tr2.
    exists tr'. unfold tr0. rewrite <- !app_assoc. rewrite Hsv, Z.add_0_l.
    split; [reflexivity|]. repeat (split; [assumption|]). assumption.
  - destruct L as [tr' [rest [-> [Hs [Hrd [Hfl [Hwf Hl]]]]]]].
    destruct Q as [tr2 [E Q]]. apply app_inv_head in E. subst tr2.
    destruct S as [tr2 [E S]]. apply app_inv_head in E. subst tr2.
    exists tr', rest. unfold tr0. rewrite <- !app_assoc.
    split; [reflexivity|]. repeat (split; [assumption|]). assumption.
Qed.

End FunctionDiscipline.

(** ** Facts on the edges of the sampling *)

Section EdgeFacts.

Import F64 PyNumFacts FormatFacts NameFacts.

Variables (w : world) (cap : video) (video_path output_folder_path : string).
Variables (interval fps : float) (total_frames : Z) (duration_sec : float).

Local Abbreviation loop fuel k t saved :=
  (sampling_loop w fuel cap video_path output_folder_path interval fps
     total_frames duration_sec k t saved).

(** The product of [0.0] and a frame rate that is a number is a zero. *)
Lemma math_floor_zero_mul_finite : finiteb fps = true -> math_floor (0 * fps) = Ok 0.
Proof.
  intro F. destruct (finiteb_cases fps F) as [[s H]|[s [m [e [H _]]]]].
  - unfold math_floor. rewrite mul_spec, H. reflexivity.
  - unfold math_floor. rewrite (Prim2SF_mul_zero_l fps s m e H). reflexivity.
Qed.

(** A frame rate below 0 is not 0 and is not above 0. *)
Lemma negative_float :
  (fps <? 0)%float = true -> (0 <? fps)%float = false /\ (fps =? 0)%float = false.
Proof.
  rewrite !ltb_spec, eqb_spec. change (Prim2SF 0) with (S754_zero false).
  destruct (Prim2SF fps) as [s|[|]| |[|] m e]; cbn; intro H;
    try discriminate; split; reflexivity.
Qed.

(** With no frame to sample the loop makes no attempt. *)
Lemma loop_no_frames fuel tr :
  finiteb fps = true -> total_frames <= 0 ->
  loop (S fuel) 0 0%float 0 tr = Done tr 0.
Proof.
  intros F Ht. destruct (0 <=? duration_sec)%float eqn:Hc.
  - apply (loop_break _ _ _ _ _ _ _ _ _ _ _ _ _ 0 Hc); [|exact Ht].
    apply math_floor_zero_mul_finite, F.
  - apply loop_exit_condition, Hc.
Qed.

(** A first instant that is sampled and a second that is past the
    duration: one attempt, at frame 0. *)
Lemma loop_single fuel tr :
  (0 <=? duration_sec)%float = true ->
  math_floor (0 * fps) = Ok 0 -> 0 < total_frames ->
  (0 + interval <=? duration_sec)%float = false ->
  exists tr',
    outcome_trace (loop (S (S fuel)) 0 0%float 0 tr) = Some (tr ++ tr') /\
    mkdirs tr' = [] /\ seeks tr' = [0] /\ reads tr' = [(0, v_read cap 0 0)].
Proof.
  intros Hc Hfl Ht Hout.
  assert (Hts : format_time 0 = Ok "00h00m00s000ms"%string) by (vm_compute; reflexivity).
  destruct (v_read cap 0 0) eqn:Hr.
  - destruct (w_imwrite w (path_join output_folder_path
                (output_filename video_path "00h00m00s000ms")) 0) as [b|e] eqn:Hw.
    + rewrite (loop_step_save _ _ _ _ _ _ _ _ _ _ _ _ _ 0 _ b Hc Hfl Ht Hr Hts Hw).
      rewrite loop_exit_condition by exact Hout.
      eexists. split; [reflexivity|]. repeat split.
    + rewrite (loop_write_raises _ _ _ _ _ _ _ _ _ _ _ _ _ 0 _ e Hc Hfl Ht Hr Hts Hw).
      eexists. split; [reflexivity|]. repeat split.
  - rewrite (loop_step_fail _ _ _ _ _ _ _ _ _ _ _ _ _ 0 Hc Hfl Ht Hr).
    rewrite loop_exit_condition by exact Hout.
    eexists. split; [reflexivity|]. repeat split.
Qed.

End EdgeFacts.

(** With an interval of 0 the time stays at 0: every test of the condition
    passes and no amount of fuel ends the loop. *)
Lemma loop_zero_interval w cap video_path output_folder_path fps total_frames
    duration_sec fuel :
  (0 <=? duration_sec)%float = true ->
  math_floor (0 * fps) = Ok 0 -> 0 < total_frames ->
  (forall path n, exists b, w_imwrite w path n = Ok b) ->
  forall k saved tr,
    sampling_loop w fuel cap video_path output_folder_path 0 fps total_frames
      duration_sec k 0 saved tr = Timeout.
Proof.
  intros Hc Hfl Ht Hw.
  assert (Hts : format_time 0 = Ok "00h00m00s000ms"%string) by (vm_compute; reflexivity).
  induction fuel as [|fuel IH]; intros k saved tr; [reflexivity|].
  destruct (v_read cap k 0) eqn:Hr.
  - destruct (Hw (path_join output_folder_path
                    (output_filename video_path "00h00m00s000ms")) 0) as [b Hb].
    rewrite (loop_step_save _ _ _ _ _ _ _ _ _ _ _ _ _ 0 _ b Hc Hfl Ht Hr Hts Hb).
    change (0 + 0)%float with 0%float. apply IH.
  - rewrite (loop_step_fail _ _ _ _ _ _ _ _ _ _ _ _ _ 0 Hc Hfl Ht Hr).
    change (0 + 0)%float with 0%float. apply IH.
Qed.

(** A float that is not a number, or is infinite, is [nan] or an
    infinity. *)
Lemma not_finite_cases t :
  F64.finiteb t = false -> t = nan \/ t = infinity \/ t = neg_infinity.
Proof.
  unfold F64.finiteb. intro H. rewrite <- (SF2Prim_Prim2SF t).
  destruct (Prim2SF t) as [s|[|]| |s m e]; try discriminate.
  - right. right. reflexivity.
  - right. left. reflexivity.
  - left. reflexivity.
Qed.

Lemma append_nil_r (s : string) : (s ++ "")%string = s.
Proof. induction s as [|c s IH]; cbn [append]; [reflexivity | rewrite IH; reflexivity]. Qed.

(** When the decoder answers [False] to every read, no read of a trace
    succeeded. *)
Lemma frames_read_unreadable (cap : video) (tr : list event) :
  (forall k n, v_read cap k n = false) ->
  Forall (fun r => exists j, v_read cap j (fst r) = snd r) (reads tr) ->
  frames_read tr = [].
Proof.
  intros Hu. unfold frames_read. generalize (reads tr). intros l H.
  induction H as [|r l [j Hj] _ IH]; [reflexivity|].
  cbn [filter]. rewrite <- Hj, Hu. exact IH.
Qed.

(** The milliseconds of a time without a fraction. *)
Lemma millis_of_zero frac :
  F64.finiteb frac = true -> F64.units frac = 0 -> py_int (frac * 1000) = Ok 0.
Proof.
  intros F U. destruct (FormatFacts.units_zero frac F U) as [s H].
  unfold py_int. rewrite mul_spec, H. reflexivity.
Qed.

(** The text of a time that is a whole number of seconds. *)
Lemma format_time_of_seconds t n :
  F64.finiteb t = true -> F64.units t = n * 2 ^ 1074 -> 0 <= n < 2 ^ 53 ->
  format_time t = Ok (timestamp (n / 3600) (n mod 3600 / 60) (n mod 60) 0).
Proof.
  intros F U Hn.
  assert (P : 0 < 2 ^ 1074) by (apply Z.pow_pos_nonneg; lia).
  assert (R : 0 <= F64.units t < 2 ^ 53 * 2 ^ 1074) by (rewrite U; nia).
  destruct (FormatFacts.format_time_value t F R)
    as [fr [ms [Ffr [Ufr [Hms [_ H]]]]]].
  rewrite U, Z.mod_mul in Ufr by lia.
  rewrite (millis_of_zero fr Ffr Ufr) in Hms. injection Hms as <-.
  rewrite H. unfold whole_seconds. rewrite U, Z.div_mul by lia. reflexivity.
Qed.

(** The sums of an interval of a whole number of seconds are exact. *)
Lemma instant_of_seconds n k :
  0 <= n -> Z.of_nat k * n < 2 ^ 53 ->
  F64.finiteb (instant (Z2float n) k) = true /\
  F64.units (instant (Z2float n) k) = Z.of_nat k * n * 2 ^ 1074.
Proof.
  intros Hn. induction k as [|k IH]; intro Hk.
  - split; reflexivity.
  - rewrite Nat2Z.inj_succ in Hk. destruct IH as [Fk Uk]; [nia|].
    assert (Hn53 : 0 <= n < 2 ^ 53) by nia.
    destruct (PyNumFacts.Z2float_units n (F64DivFacts.representable_int n Hn53))
      as [Fn [Un _]].
    cbn [instant].
    destruct (PyNumFacts.add_units (instant (Z2float n) k) (Z2float n) Fk Fn) as [Fs Us].
    + rewrite Uk, Un.
      replace (Z.of_nat k * n * 2 ^ 1074 + n * 2 ^ 1074)
        with (Z.succ (Z.of_nat k) * n * 2 ^ 1074) by ring.
      apply F64DivFacts.representable_int. nia.
    + split; [exact Fs|]. rewrite Us, Uk, Un, Nat2Z.inj_succ. ring.
Qed.

(** ** Facts on the layout of the output *)










Section LoopLayout.

Variables (w : world) (cap : video) (video_path output_folder_path : string).
Variables (interval fps : float) (total_frames : Z) (duration_sec : float).

Local Abbreviation loop fuel k t saved :=
  (sampling_loop w fuel cap video_path output_folder_path interval fps
     total_frames duration_sec k t saved).


End LoopLayout.

(** ** The order of the names for any interval that is not negative *)

Section LoopOrder.

Import F64 PyNumFacts FormatFacts NameFacts.

Variables (w : world) (cap : video) (video_path output_folder_path : string).
Variables (interval fps : float) (total_frames : Z) (duration_sec : float).

Hypothesis interval_finite : finiteb interval = true.
Hypothesis interval_nonneg : 0 <= units interval.
Hypothesis duration_finite : finiteb duration_sec = true.
Hypothesis duration_bound : units duration_sec + units interval < 2 ^ 53 * 2 ^ 1074.

Local Abbreviation loop fuel k t saved :=
  (sampling_loop w fuel cap video_path output_folder_path interval fps
     total_frames duration_sec k t saved).

(** While the loop condition holds, the next instant is not in an earlier
    second. *)
Lemma next_instant_le t :
  finiteb t = true -> 0 <= units t ->
  (t <=? duration_sec)%float = true ->
  units t < 2 ^ 53 * 2 ^ 1074 /\
  finiteb (t + interval) = true /\ 0 <= units (t + interval) /\
  whole_seconds t <= whole_seconds (t + interval).
Proof.
  intros Ft Ut Hc. rewrite (leb_units _ _ Ft duration_finite) in Hc.
  apply Z.leb_le in Hc.
  assert (P : 0 < 2 ^ 1074) by (apply Z.pow_pos_nonneg; lia).
  pose proof (Z.mul_div_le (units t) (2 ^ 1074) P) as Hfl.
  assert (H0 : 0 <= units t / 2 ^ 1074) by (apply Z.div_pos; lia).
  destruct (add_lower t interval (units t / 2 ^ 1074)) as [F L];
    try assumption; try lia.
  split; [lia|]. split; [exact F|]. split; [nia|].
  unfold whole_seconds. apply Z.div_le_lower_bound; lia.
Qed.

(** The names written from a time [t] on carry whole seconds that do not
    decrease, from that of [t]. *)
Lemma loop_seconds_sorted fuel : forall k t saved tr,
  finiteb t = true -> 0 <= units t ->
  match loop fuel k t saved tr with
  | Done tr1 _ | Exn tr1 _ =>
      exists tr' secs, tr1 = tr ++ tr' /\
        Forall2 (stamped output_folder_path video_path) (written_paths tr') secs /\
        StronglySorted Z.le secs /\
        Forall (fun s => whole_seconds t <= s) secs
  | Timeout => True
  end.
Proof.
  induction fuel as [|fuel IH]; intros k t saved tr Ft Ut; [exact I|].
  destruct (t <=? duration_sec)%float eqn:Hc.
  2:{ rewrite loop_exit_condition by exact Hc. exists [], []. rewrite app_nil_r.
      repeat split; constructor. }
  destruct (next_instant_le t Ft Ut Hc) as [Hb [Fn [Un Wn]]].
  destruct (math_floor (t * fps)) as [n|e] eqn:Hf.
  2:{ rewrite (loop_floor_raises _ _ _ _ _ _ _ _ _ _ _ _ _ e Hc Hf).
      exists [], []. rewrite app_nil_r. repeat split; constructor. }
  destruct (Z_lt_le_dec n total_frames) as [Hlt|Hge].
  2:{ rewrite (loop_break _ _ _ _ _ _ _ _ _ _ _ _ _ n Hc Hf Hge).
      exists [], []. rewrite app_nil_r. repeat split; constructor. }
  destruct (v_read cap k n) eqn:Hr.
  - destruct (format_time_value t Ft (conj Ut Hb))
      as [frac [ms [_ [_ [_ [Hms Hts]]]]]].
    set (ts := timestamp _ _ _ ms) in Hts.
    destruct (w_imwrite w (path_join output_folder_path
                             (output_filename video_path ts)) n) as [b|e] eqn:Hw.
    2:{ rewrite (loop_write_raises _ _ _ _ _ _ _ _ _ _ _ _ _ n ts e Hc Hf Hlt Hr Hts Hw).
        exists [EvSeek n; EvRead n true], []. repeat split; constructor. }
    rewrite (loop_step_save _ _ _ _ _ _ _ _ _ _ _ _ _ n ts b Hc Hf Hlt Hr Hts Hw).
    match goal with |- match sampling_loop _ _ _ _ _ _ _ _ _ ?k' ?t' ?s' ?tr0 with _ => _ end =>
      specialize (IH k' t' s' tr0 Fn Un);
      destruct (sampling_loop w fuel cap video_path output_folder_path interval fps
                  total_frames duration_sec k' t' s' tr0) as [tr1 saved'|tr1 e|]
    end; try exact I;
      destruct IH as [tr' [secs [-> [S2 [St Lo]]]]];
      eexists; exists (whole_seconds t :: secs); rewrite <- app_assoc;
      (split; [reflexivity|]); rewrite written_paths_app;
      cbn [written_paths flat_map Datatypes.app];
      (split; [|split]);
      [ constructor; [|exact S2];
        (split; [apply Z.div_pos; [exact Ut | apply Z.pow_pos_nonneg; lia]|]);
        exists ms; (split; [exact Hms | reflexivity])
      | constructor; [exact St|];
        eapply Forall_impl; [|exact Lo]; cbv beta; intros s Hs; lia
      | constructor; [lia|];
        eapply Forall_impl; [|exact Lo]; cbv beta; intros s Hs; lia
      | constructor; [|exact S2];
        (split; [apply Z.div_pos; [exact Ut | apply Z.pow_pos_nonneg; lia]|]);
        exists ms; (split; [exact Hms | reflexivity])
      | constructor; [exact St|];
        eapply Forall_impl; [|exact Lo]; cbv beta; intros s Hs; lia
      | constructor; [lia|];
        eapply Forall_impl; [|exact Lo]; cbv beta; intros s Hs; lia ].
  - rewrite (loop_step_fail _ _ _ _ _ _ _ _ _ _ _ _ _ n Hc Hf Hlt Hr).
    match goal with |- match sampling_loop _ _ _ _ _ _ _ _ _ ?k' ?t' ?s' ?tr0 with _ => _ end =>
      specialize (IH k' t' s' tr0 Fn Un);
      destruct (sampling_loop w fuel cap video_path output_folder_path interval fps
                  total_frames duration_sec k' t' s' tr0) as [tr1 saved'|tr1 e|]
    end; try exact I;
      destruct IH as [tr' [secs [-> [S2 [St Lo]]]]];
      eexists; exists secs; rewrite <- app_assoc;
      (split; [reflexivity|]); rewrite written_paths_app;
      cbn [written_paths flat_map Datatypes.app];
      (split; [exact S2|]); (split; [exact St|]);
      (eapply Forall_impl; [|exact Lo]); cbv beta; intros s Hs; lia.
Qed.

End LoopOrder.

(** * Properties *)

(** C8: run as a script, the program stops at line 132 with a [NameError]
    for [movie_toolkit], whatever the arguments: the batch entry point is
    never entered and nothing is logged. *)
Theorem main_raises_NameError :
  forall (w : world) (fuel : nat) (argv : list string) (tr : list event),
    main w fuel argv tr = Exn tr (NameError "movie_toolkit").
Proof.
  intros w fuel argv tr. reflexivity.
Qed.

Section SamplerProperties.

Variable w : world.

(** C4: an iteration whose read fails logs the warning line, adds
    [interval] to [current_time_sec] and goes on with the next iteration:
    [saved_count] is unchanged, nothing is written, and the loop continues
    from the next state. *)
Theorem read_failure_continues :
  forall fuel cap video_path output_folder_path interval fps total_frames
         duration_sec k current_time_sec saved_count tr target_frame_num,
    (current_time_sec <=? duration_sec)%float = true ->
    math_floor (current_time_sec * fps) = Ok target_frame_num ->
    target_frame_num < total_frames ->
    v_read cap k target_frame_num = false ->
    sampling_loop w (S fuel) cap video_path output_folder_path interval fps
      total_frames duration_sec k current_time_sec saved_count tr
    = sampling_loop w fuel cap video_path output_folder_path interval fps
        total_frames duration_sec (S k) (current_time_sec + interval)%float
        saved_count
        (tr ++ [EvSeek target_frame_num; EvRead target_frame_num false;
                EvLog INFO (MsgReadFailed target_frame_num current_time_sec)]).
Proof.
  intros. apply loop_step_fail; assumption.
Qed.

(** C9: an iteration whose read succeeds adds 1 to [saved_count] whatever
    [cv2.imwrite] returned: the result [written] of the write is recorded in
    the trace and is otherwise unused. *)
Theorem saved_count_ignores_write_result :
  forall fuel cap video_path output_folder_path interval fps total_frames
         duration_sec k current_time_sec saved_count tr target_frame_num
         timestamp_str (written : bool),
    let output_path :=
      path_join output_folder_path (output_filename video_path timestamp_str) in
    (current_time_sec <=? duration_sec)%float = true ->
    math_floor (current_time_sec * fps) = Ok target_frame_num ->
    target_frame_num < total_frames ->
    v_read cap k target_frame_num = true ->
    format_time current_time_sec = Ok timestamp_str ->
    w_imwrite w output_path target_frame_num = Ok written ->
    sampling_loop w (S fuel) cap video_path output_folder_path interval fps
      total_frames duration_sec k current_time_sec saved_count tr
    = sampling_loop w fuel cap video_path output_folder_path interval fps
        total_frames duration_sec (S k) (current_time_sec + interval)%float
        (saved_count + 1)
        (tr ++ [EvSeek target_frame_num; EvRead target_frame_num true;
                EvImwrite output_path target_frame_num written;
                EvLog INFO (MsgSaved output_path target_frame_num)]).
Proof.
  intros. apply loop_step_save; assumption.
Qed.

(** C10: when the path is not a file, or the video does not open, or its
    frame rate is 0, no directory is created and nothing is written,
    whatever the outcome; and the function returns, in the third case when
    the frame count is a number. *)
Theorem no_output_dir_before_validation :
  forall fuel video_path output_folder_path interval tr,
    (w_is_file w video_path = false \/
     w_open w video_path = None \/
     exists cap, w_open w video_path = Some cap /\ (v_fps cap =? 0)%float = true) ->
    (exists tr',
       outcome_trace
         (extract_frames_by_interval w fuel video_path output_folder_path interval tr)
       = Some (tr ++ tr') /\ mkdirs tr' = [] /\ written_paths tr' = []) /\
    ((w_is_file w video_path = true ->
      forall cap, w_open w video_path = Some cap ->
                  exists n, py_int (v_frame_count cap) = Ok n) ->
     exists tr',
       extract_frames_by_interval w fuel video_path output_folder_path interval tr
       = Done (tr ++ tr') tt).
Proof.
  intros fuel video_path output_folder_path interval tr H.
  set (o := extract_frames_by_interval w fuel video_path output_folder_path interval tr).
  assert (Ho :
    (exists tr', o = Done (tr ++ tr') tt /\ mkdirs tr' = [] /\ written_paths tr' = []) \/
    (exists tr' e cap, o = Exn (tr ++ tr') e /\ mkdirs tr' = [] /\ written_paths tr' = [] /\
       w_is_file w video_path = true /\ w_open w video_path = Some cap /\
       py_int (v_frame_count cap) = Raise e)).
  { unfold o, extract_frames_by_interval. run_steps.
    destruct (w_is_file w video_path) eqn:Hf; cbn [negb].
    2:{ left. unfold log, emit. eexists. rewrite <- app_assoc. repeat split. }
    destruct (w_open w video_path) as [cap|] eqn:Hopen.
    2:{ left. run_steps. unfold log, emit. eexists. rewrite <- !app_assoc.
        repeat split. }
    destruct H as [H|[H|[cap' [Hc Hz]]]]; try discriminate.
    injection Hc as <-. run_steps.
    destruct (py_int (v_frame_count cap)) as [n|e] eqn:Hn; run_steps.
    2:{ right. exists [EvCall video_path; EvOpen video_path], e, cap.
        rewrite <- !app_assoc. repeat split. exact Hn. }
    assert (Hlt : (0 <? v_fps cap)%float = false).
    { rewrite ltb_spec. rewrite eqb_spec in Hz. revert Hz.
      change (Prim2SF 0) with (S754_zero false).
      destruct (Prim2SF (v_fps cap)) as [s|[|]| |[|] m e]; cbn;
        intro Hz; try discriminate; reflexivity. }
    unfold duration_of. rewrite Hlt. run_steps. rewrite Hz. run_steps.
    left. unfold emit. eexists. rewrite <- !app_assoc. repeat split. }
  clearbody o. split.
  - destruct Ho as [[tr' [-> [M W]]] | [tr' [e [cap [-> [M [W _]]]]]]];
      exists tr'; repeat split; assumption.
  - intros Hnum. destruct Ho as [[tr' [-> _]] | [tr' [e [cap [_ [_ [_ [Hf [Hopen Hn]]]]]]]]].
    + exists tr'. reflexivity.
    + destruct (Hnum Hf cap Hopen) as [n Hn']. congruence.
Qed.

(** C5, amended: on a video that is a file and opens, a run that returns
    (normal completion, or the early return for a frame rate of 0) has
    released the video exactly once, as its last event; a run that raises
    has not released it. *)
Theorem released_on_return_only :
  forall fuel video_path output_folder_path interval tr cap,
    w_is_file w video_path = true ->
    w_open w video_path = Some cap ->
    match extract_frames_by_interval w fuel video_path output_folder_path interval tr with
    | Done tr1 _ =>
        exists tr', tr1 = tr ++ tr' ++ [EvRelease video_path] /\
                    releases (tr' ++ [EvRelease video_path]) = [video_path]
    | Exn tr1 _ => exists tr', tr1 = tr ++ tr' /\ releases tr' = []
    | Timeout => True
    end.
Proof.
  intros fuel video_path output_folder_path interval tr cap Hf Ho.
  pose proof (extract_trace w fuel video_path output_folder_path interval tr) as T.
  unfold opened in T. rewrite Hf, Ho in T. cbn [andb] in T.
  destruct (extract_frames_by_interval w fuel video_path output_folder_path
              interval tr) as [tr1 []|tr1 e|] eqn:He; try exact I.
  - destruct T as [tr' [-> [_ R]]].
    assert (L : exists tr'', tr' = tr'' ++ [EvRelease video_path]).
    { revert He. unfold extract_frames_by_interval. run_steps.
      rewrite Hf. cbn [negb]. rewrite Ho. run_steps.
      destruct (py_int (v_frame_count cap)) as [n|e]; run_steps; [|discriminate].
      destruct (duration_of n (v_fps cap)) as [d|e]; run_steps; [|discriminate].
      destruct (v_fps cap =? 0)%float.
      { run_steps. unfold emit. intro H. injection H as H.
        rewrite <- !app_assoc in H. apply app_inv_head in H. subst tr'.
        eexists. rewrite !app_assoc. reflexivity. }
      run_steps. destruct (w_mkdir w output_folder_path) as [e|]; [discriminate|].
      run_steps. unfold pbind at 1.
      destruct (sampling_loop _ _ _ _ _ _ _ _ _ _ _ _ _) as [tr1 saved|tr1 e|] eqn:Hl;
        try discriminate.
      pose proof (loop_quiet w cap video_path output_folder_path interval (v_fps cap)
                    n d fuel 0%nat 0%float 0) as Q.
      match type of Hl with sampling_loop _ _ _ _ _ _ _ _ _ _ _ _ ?tr0 = _ =>
        specialize (Q tr0) end.
      rewrite Hl in Q. destruct Q as [tr2 [-> _]].
      run_steps. unfold emit. intro H. injection H as H.
      rewrite <- !app_assoc in H. apply app_inv_head in H. subst tr'.
      eexists. rewrite !app_assoc. reflexivity. }
    destruct L as [tr'' ->]. exists tr''. split; [reflexivity | exact R].
  - destruct T as [tr' [-> [_ R]]]. exists tr'. split; [reflexivity | exact R].
Qed.

(** C7: on an existing folder no exception leaves the batch call; when it
    returns, each entry of the listing has been sampled once, in order, an
    entry whose sampling raised is followed by the error line and the next
    entries are still processed. *)
Theorem batch_isolates_failures :
  forall fuel input_folder_path output_folder_path interval tr,
    w_exists w input_folder_path = true ->
    match extract_frames_by_interval_in_folder w fuel input_folder_path
            output_folder_path interval tr with
    | Done tr2 _ =>
        batch_trace w fuel output_folder_path interval
          (w_glob w (w_abspath w input_folder_path ++ "/*"))
          (tr ++ [EvLog INFO (MsgBatchStart (w_abspath w input_folder_path))]) tr2 /\
        calls tr2 = calls tr ++ w_glob w (w_abspath w input_folder_path ++ "/*")
    | Exn _ _ => False
    | Timeout => True
    end.
Proof.
  intros fuel input_folder_path output_folder_path interval tr He.
  unfold extract_frames_by_interval_in_folder. rewrite He. cbn [negb].
  run_steps.
  pose proof (batch_loop w fuel output_folder_path interval
                (w_glob w (w_abspath w input_folder_path ++ "/*"))
                (tr ++ [EvLog INFO (MsgBatchStart (w_abspath w input_folder_path))])) as B.
  destruct (for_each _ _ _) as [tr2 []|tr2 e|]; try exact B.
  destruct B as [B C]. split; [exact B|].
  rewrite C, calls_app. cbn [calls flat_map]. rewrite app_nil_r. reflexivity.
Qed.

(** C6, amended: a video with frames and a positive frame rate, sampled at
    an interval above its duration, has exactly one extraction attempt, at
    frame 0 and time 0, whether the read and the write succeed or not. *)
Theorem one_attempt_when_interval_exceeds_duration :
  forall fuel video_path output_folder_path interval tr cap total_frames duration_sec,
    w_is_file w video_path = true ->
    w_open w video_path = Some cap ->
    F64.finiteb (v_fps cap) = true -> (0 <? v_fps cap)%float = true ->
    py_int (v_frame_count cap) = Ok total_frames -> 0 < total_frames ->
    duration_of total_frames (v_fps cap) = Ok duration_sec ->
    (duration_sec <? interval)%float = true ->
    w_mkdir w output_folder_path = None ->
    (2 <= fuel)%nat ->
    exists tr',
      outcome_trace
        (extract_frames_by_interval w fuel video_path output_folder_path interval tr)
      = Some (tr ++ tr') /\ seeks tr' = [0] /\ List.length (reads tr') = 1%nat.
Proof.
  intros fuel video_path output_folder_path interval tr cap total_frames duration_sec
         Hf Ho Ff Hp Hn Ht Hd Hlt Hm Hfuel.
  destruct (PyNumFacts.duration_nonneg _ _ _ Hn (Z.lt_le_incl _ _ Ht) Ff Hp)
    as [d [Hd' Nd]].
  assert (d = duration_sec) by congruence. subst d.
  assert (Hz : (v_fps cap =? 0)%float = false).
  { destruct (PyNumFacts.positive_float _ Ff Hp) as [m [e H]].
    rewrite eqb_spec, H. reflexivity. }
  rewrite (extract_unfold w fuel video_path output_folder_path interval tr cap
             total_frames duration_sec Hf Ho Hn Hd Hz Hm).
  destruct fuel as [|[|fuel]]; try lia.
  set (tr0 := tr ++ prologue_events video_path output_folder_path (v_fps cap)
                      total_frames duration_sec interval).
  assert (Hstop : forall saved tr1,
            sampling_loop w (S fuel) cap video_path output_folder_path interval
              (v_fps cap) total_frames duration_sec 1 (0 + interval)%float saved tr1
            = Done tr1 saved).
  { intros saved tr1. cbn [sampling_loop].
    rewrite (PyNumFacts.past_duration _ _ Nd Hlt). reflexivity. }
  pose proof (PyNumFacts.leb_zero_nonneg _ Nd) as Hc.
  pose proof (PyNumFacts.math_floor_zero_mul _ Ff Hp) as Hfl.
  destruct (v_read cap 0 0) eqn:Hr.
  - assert (Hts : format_time 0 = Ok "00h00m00s000ms"%string) by (vm_compute; reflexivity).
    destruct (w_imwrite w (path_join output_folder_path
                (output_filename video_path "00h00m00s000ms")) 0) as [b|e] eqn:Hw.
    + rewrite (loop_step_save w cap video_path output_folder_path interval (v_fps cap)
                 total_frames duration_sec (S fuel) 0 0%float 0 tr0 0
                 "00h00m00s000ms" b Hc Hfl Ht Hr Hts Hw).
      rewrite Hstop. unfold tr0. cbn [outcome_trace].
      eexists. rewrite <- !app_assoc. split; [reflexivity|].
      rewrite !seeks_app, !reads_app. split; reflexivity.
    + cbn [sampling_loop]. rewrite Hc. unfold pbind at 1. rewrite Hfl. cbn [lift ret].
      destruct (Z.geb_spec 0 total_frames) as [Hge|_]; [lia|].
      run_steps. rewrite Hr. cbn [negb]. unfold pbind at 1. rewrite Hts.
      cbn [lift ret]. unfold pbind at 1. rewrite Hw. cbn [lift raise outcome_trace].
      unfold tr0. eexists. rewrite <- !app_assoc. split; [reflexivity|].
      rewrite !seeks_app, !reads_app. split; reflexivity.
  - rewrite (loop_step_fail w cap video_path output_folder_path interval (v_fps cap)
               total_frames duration_sec (S fuel) 0 0%float 0 tr0 0 Hc Hfl Ht Hr).
    rewrite Hstop. unfold tr0. cbn [outcome_trace].
    eexists. rewrite <- !app_assoc. split; [reflexivity|].
    rewrite !seeks_app, !reads_app. split; reflexivity.
Qed.

(** C1, amended: when [current_time_sec] accumulates without rounding (every
    instant is the exact multiple [k * interval], as for intervals of whole
    seconds), the loop condition admits exactly the instants
    [k = 0 .. N], [N = floor (D / interval)]; a frame is sought and read at
    each of them before the first, [K], whose frame index is past the end of
    the stream, where the loop stops; and [saved_count], the reads that
    succeeded, is [N + 1] less the reads that failed, less the [N + 1 - K]
    instants at or after the stop. *)
Theorem attempts_when_instants_exact :
  forall fuel video_path output_folder_path interval tr cap total_frames duration_sec,
    w_is_file w video_path = true ->
    w_open w video_path = Some cap ->
    F64.finiteb (v_fps cap) = true -> (0 <? v_fps cap)%float = true ->
    py_int (v_frame_count cap) = Ok total_frames -> 0 <= total_frames ->
    duration_of total_frames (v_fps cap) = Ok duration_sec ->
    F64.finiteb duration_sec = true ->
    F64.units duration_sec < 2 ^ 53 * 2 ^ 1074 ->
    0 < F64.units interval ->
    let N := Z.to_nat (F64.units duration_sec / F64.units interval) in
    (forall k, (k <= S N)%nat ->
       F64.finiteb (instant interval k) = true /\
       F64.units (instant interval k) = Z.of_nat k * F64.units interval) ->
    (forall k, (k <= N)%nat ->
       exists n, math_floor (instant interval k * v_fps cap) = Ok n) ->
    (forall path n, exists b, w_imwrite w path n = Ok b) ->
    w_mkdir w output_folder_path = None ->
    (N + 2 <= fuel)%nat ->
    let K := first_past (target interval (v_fps cap)) total_frames (S N) 0 in
    let saved := successes cap interval (v_fps cap) 0 K in
    extract_frames_by_interval w fuel video_path output_folder_path interval tr
    = Done (tr ++ prologue_events video_path output_folder_path (v_fps cap)
                    total_frames duration_sec interval
               ++ iterations_events w cap video_path output_folder_path interval
                    (v_fps cap) 0 K
               ++ epilogue_events video_path (Z.of_nat saved)) tt /\
    seeks (iterations_events w cap video_path output_folder_path interval
             (v_fps cap) 0 K)
    = map (target interval (v_fps cap)) (seq 0 K) /\
    Z.of_nat saved
    = Z.of_nat (S N) - Z.of_nat (failures cap interval (v_fps cap) 0 K)
      - Z.of_nat (S N - K).
Proof.
  intros fuel video_path output_folder_path interval tr cap total_frames duration_sec
         Hf Ho Ff Hp Hn Ht Hd Fd Ud Ui N Hex Hfl Hw Hm Hfuel K saved.
  destruct (PyNumFacts.duration_nonneg _ _ _ Hn Ht Ff Hp) as [d [Hd' Nd]].
  assert (d = duration_sec) by congruence. subst d.
  pose proof (FormatFacts.nonneg_units _ Fd Nd) as Ud0.
  assert (Hz : (v_fps cap =? 0)%float = false).
  { destruct (PyNumFacts.positive_float _ Ff Hp) as [m [e H]].
    rewrite eqb_spec, H. reflexivity. }
  destruct (first_past_spec (target interval (v_fps cap)) total_frames (S N) 0)
    as [[_ KU] [KB KS]]. fold K in KU, KB, KS. cbn [Nat.add] in KU, KS.
  assert (HN : Z.of_nat N = F64.units duration_sec / F64.units interval).
  { unfold N. rewrite Z2Nat.id; [reflexivity | apply Z.div_pos; lia]. }
  assert (Hin : forall j, (j <= N)%nat ->
            (instant interval j <=? duration_sec)%float = true /\
            F64.finiteb (instant interval j) = true /\
            0 <= F64.units (instant interval j) < 2 ^ 53 * 2 ^ 1074).
  { intros j Hj. destruct (Hex j ltac:(lia)) as [Fj Uj].
    assert (Hle : Z.of_nat j * F64.units interval <= F64.units duration_sec).
    { pose proof (Z.mul_div_le (F64.units duration_sec) (F64.units interval) Ui).
      nia. }
    split; [|split; [exact Fj | lia]].
    rewrite (PyNumFacts.leb_units _ _ Fj Fd), Uj. apply Z.leb_le. exact Hle. }
  assert (Hout : (instant interval (S N) <=? duration_sec)%float = false).
  { destruct (Hex (S N) ltac:(lia)) as [Fj Uj].
    rewrite (PyNumFacts.leb_units _ _ Fj Fd), Uj. apply Z.leb_gt.
    pose proof (Z.mul_succ_div_gt (F64.units duration_sec) (F64.units interval) Ui).
    rewrite Nat2Z.inj_succ, HN. lia. }
  rewrite (extract_unfold w fuel video_path output_folder_path interval tr cap
             total_frames duration_sec Hf Ho Hn Hd Hz Hm).
  rewrite (loop_run w cap video_path output_folder_path interval (v_fps cap)
             total_frames duration_sec K fuel).
  - split; [|split].
    + fold saved. rewrite <- !app_assoc. reflexivity.
    + apply seeks_iterations.
    + pose proof (successes_failures cap interval (v_fps cap) 0 K) as SF.
      fold saved in SF. lia.
  - intros j Hj. destruct (Hin j ltac:(lia)) as [Hc [Fj Uj]].
    split; [exact Hc|]. split.
    + destruct (Hfl j ltac:(lia)) as [n Hn']. exists n. split; [exact Hn'|].
      rewrite <- (target_eq interval (v_fps cap) j n Hn'). apply KB. lia.
    + intros _. split.
      * destruct (FormatFacts.format_time_value _ Fj Uj) as [fr [ms [_ [_ [_ [_ H]]]]]].
        eexists. exact H.
      * apply Hw.
  - destruct (Nat.eq_dec K (S N)) as [HK|HK].
    + left. rewrite HK. exact Hout.
    + right. destruct (Hin K ltac:(lia)) as [Hc _]. split; [exact Hc|].
      destruct (Hfl K ltac:(lia)) as [n Hn']. exists n. split; [exact Hn'|].
      rewrite <- (target_eq interval (v_fps cap) K n Hn'). apply KS. lia.
  - lia.
Qed.

(** C2, amended: on a video that opens with a duration [D] that is a
    number, sampled at an interval of one second or more (with
    [D + interval] below [2 ^ 53] seconds), the run ends, by return or by
    exception, within [floor D + 2] tests of the loop condition, and the
    names it has written carry timestamps whose hours, minutes and seconds
    encode whole seconds that increase strictly; so no name is written
    twice. *)
Theorem filenames_increase_from_one_second :
  forall fuel video_path output_folder_path interval tr cap total_frames duration_sec,
    w_is_file w video_path = true ->
    w_open w video_path = Some cap ->
    py_int (v_frame_count cap) = Ok total_frames ->
    duration_of total_frames (v_fps cap) = Ok duration_sec ->
    F64.finiteb duration_sec = true ->
    F64.finiteb interval = true ->
    2 ^ 1074 <= F64.units interval ->
    F64.units duration_sec + F64.units interval < 2 ^ 53 * 2 ^ 1074 ->
    (Z.to_nat (whole_seconds duration_sec) + 2 <= fuel)%nat ->
    exists tr' secs,
      outcome_trace
        (extract_frames_by_interval w fuel video_path output_folder_path interval tr)
      = Some (tr ++ tr') /\
      Forall2 (stamped output_folder_path video_path) (written_paths tr') secs /\
      StronglySorted Z.lt secs /\
      NoDup (written_paths tr').
Proof.
  intros fuel video_path output_folder_path interval tr cap total_frames duration_sec
         Hf Ho Hn Hd Fd Fi Ui Hb Hfuel.
  assert (Hnone : forall tr0 o,
            o = Some (tr ++ tr0) -> written_paths tr0 = [] ->
            exists tr' secs,
              o = Some (tr ++ tr') /\
              Forall2 (stamped output_folder_path video_path) (written_paths tr') secs /\
              StronglySorted Z.lt secs /\ NoDup (written_paths tr')).
  { intros tr0 o -> Hw. exists tr0, []. rewrite Hw. repeat split; constructor. }
  destruct (v_fps cap =? 0)%float eqn:Hz.
  { eapply Hnone.
    - rewrite (extract_invalid_fps w fuel video_path output_folder_path interval tr
                 cap total_frames duration_sec Hf Ho Hn Hd Hz). reflexivity.
    - reflexivity. }
  destruct (w_mkdir w output_folder_path) as [e|] eqn:Hm.
  { destruct (extract_mkdir_raises w fuel video_path output_folder_path interval tr
                cap total_frames duration_sec e Hf Ho Hn Hd Hz Hm) as [tr0 [E Hw]].
    eapply Hnone; [rewrite E; reflexivity | exact Hw]. }
  rewrite (extract_unfold w fuel video_path output_folder_path interval tr cap
             total_frames duration_sec Hf Ho Hn Hd Hz Hm).
  destruct fuel as [|n]; [lia|].
  destruct (loop_names w cap video_path output_folder_path interval (v_fps cap)
              total_frames duration_sec Fi Ui Fd Hb n 0%nat 0%float 0
              (tr ++ prologue_events video_path output_folder_path (v_fps cap)
                       total_frames duration_sec interval)
              eq_refl ltac:(reflexivity))
    as [tr' [secs [E [S2 [St _]]]]].
  { change (whole_seconds 0) with 0. lia. }
  pose proof (NameFacts.stamped_NoDup _ _ _ _ S2 St) as ND.
  destruct (sampling_loop _ _ _ _ _ _ _ _ _ _ _ _ _) as [tr1 saved|tr1 e|];
    cbn [outcome_trace] in E |- *; [| |discriminate]; injection E as ->.
  - exists (prologue_events video_path output_folder_path (v_fps cap)
              total_frames duration_sec interval ++ tr'
            ++ epilogue_events video_path saved), secs.
    rewrite <- !app_assoc. split; [reflexivity|].
    rewrite !written_paths_app.
    change (written_paths (prologue_events _ _ _ _ _ _)) with (@nil string).
    change (written_paths (epilogue_events _ _)) with (@nil string).
    rewrite app_nil_r. cbn [app]. repeat split; assumption.
  - exists (prologue_events video_path output_folder_path (v_fps cap)
              total_frames duration_sec interval ++ tr'), secs.
    rewrite <- !app_assoc. split; [reflexivity|].
    rewrite !written_paths_app.
    change (written_paths (prologue_events _ _ _ _ _ _)) with (@nil string).
    cbn [app]. repeat split; assumption.
Qed.

End SamplerProperties.

(** C4 at a video of 30 frames per second whose second read fails. *)
Lemma read_failure_continues_witness :
  let cap := clip 30 900 (fun k _ => negb (Nat.eqb k 1)) in
  sampling_loop (studio cap) 5 cap "a.mp4" "out" 10 30 900 30 1 10 1 []
  = sampling_loop (studio cap) 4 cap "a.mp4" "out" 10 30 900 30 2 (10 + 10) 1
      ([] ++ [EvSeek 300; EvRead 300 false; EvLog INFO (MsgReadFailed 300 10)]).
Proof.
  intro cap.
  apply (read_failure_continues (studio cap) 4 cap "a.mp4" "out" 10 30 900 30
           1 10 1 [] 300).
  - reflexivity.
  - vm_compute. reflexivity.
  - lia.
  - reflexivity.
Defined.

(** C9 at a world whose encoder fails. *)
Lemma saved_count_ignores_write_result_witness :
  let cap := clip 30 900 (fun _ _ => true) in
  sampling_loop (studio_disk_full cap) 5 cap "a.mp4" "out" 10 30 900 30 1 10 1 []
  = sampling_loop (studio_disk_full cap) 4 cap "a.mp4" "out" 10 30 900 30 2
      (10 + 10) (1 + 1)
      ([] ++ [EvSeek 300; EvRead 300 true;
              EvImwrite "out/a.mp4_00h00m10s000ms.jpg" 300 false;
              EvLog INFO (MsgSaved "out/a.mp4_00h00m10s000ms.jpg" 300)]).
Proof.
  intro cap.
  apply (saved_count_ignores_write_result (studio_disk_full cap) 4 cap "a.mp4" "out"
           10 30 900 30 1 10 1 [] 300 "00h00m10s000ms" false).
  - reflexivity.
  - vm_compute. reflexivity.
  - lia.
  - reflexivity.
  - vm_compute. reflexivity.
  - reflexivity.
Defined.

(** C10 at a video whose frame rate is 0. *)
Lemma no_output_dir_before_validation_witness :
  exists tr',
    extract_frames_by_interval (studio (clip 0 900 (fun _ _ => true))) 5
      "a.mp4" "out" 10 []
    = Done ([] ++ tr') tt.
Proof.
  apply (no_output_dir_before_validation (studio (clip 0 900 (fun _ _ => true))) 5
           "a.mp4" "out" 10 []).
  - right. right. exists (clip 0 900 (fun _ _ => true)). split; reflexivity.
  - intros _ cap H. injection H as <-. exists 900. vm_compute. reflexivity.
Defined.

(** C5, as stated, fails: a video whose frame rate reads as infinite makes
    [math.floor] raise inside the loop, and the run ends without a
    release. *)
Lemma released_on_every_exit_fails : ~ released_on_every_exit.
Proof.
  intro H.
  destruct (H (studio (clip infinity 16 (fun _ _ => true))) 5%nat
              "a.mp4"%string "out"%string 10%float []
              (clip infinity 16 (fun _ _ => true))
              ([] ++ prologue_events "a.mp4" "out" infinity 16 0 10)
              eq_refl eq_refl) as [tr' [E R]].
  - vm_compute. reflexivity.
  - apply app_inv_head in E. rewrite <- E in R. vm_compute in R. discriminate.
Qed.

(** C5 (amended) at a video of 30 frames per second and 30 seconds. *)
Lemma released_on_return_only_witness :
  match extract_frames_by_interval (studio (clip 30 900 (fun _ _ => true))) 5
          "a.mp4" "out" 10 [] with
  | Done tr1 _ =>
      exists tr', tr1 = [] ++ tr' ++ [EvRelease "a.mp4"] /\
                  releases (tr' ++ [EvRelease "a.mp4"]) = ["a.mp4"%string]
  | Exn tr1 _ => exists tr', tr1 = [] ++ tr' /\ releases tr' = []
  | Timeout => True
  end.
Proof.
  apply (released_on_return_only (studio (clip 30 900 (fun _ _ => true))) 5
           "a.mp4" "out" 10 [] (clip 30 900 (fun _ _ => true))); reflexivity.
Defined.

(** C7 at a folder of two entries, the first of which raises. *)
Lemma batch_isolates_failures_witness :
  match extract_frames_by_interval_in_folder
          (two_entries (clip 30 900 (fun _ _ => true))) 5 "in" "out" 10 [] with
  | Done tr2 _ =>
      batch_trace (two_entries (clip 30 900 (fun _ _ => true))) 5 "out" 10
        ["in/bad.mp4"; "in/good.mp4"]%string
        ([] ++ [EvLog INFO (MsgBatchStart "in")]) tr2 /\
      calls tr2 = calls [] ++ ["in/bad.mp4"; "in/good.mp4"]%string
  | Exn _ _ => False
  | Timeout => True
  end.
Proof.
  apply (batch_isolates_failures (two_entries (clip 30 900 (fun _ _ => true))) 5
           "in" "out" 10 []).
  reflexivity.
Defined.

(** C6, as stated, fails: 29 frames at 25 frames per second last
    [29 / 25] seconds; at that very interval the second instant passes the
    loop condition and its frame index, [floor (29 / 25 * 25)], is 28: a
    second frame is extracted. *)
Lemma one_attempt_when_interval_reaches_duration_fails :
  ~ one_attempt_when_interval_reaches_duration.
Proof.
  intro H.
  destruct (H (studio (clip 25 29 (fun _ _ => true))) 5%nat
              "a.mp4"%string "out"%string (29 / 25)%float []
              (clip 25 29 (fun _ _ => true)) 29 (29 / 25)%float)
    as [tr' [E [S _]]]; try reflexivity; try lia.
  vm_compute in E. injection E as <-. vm_compute in S. discriminate.
Qed.

(** C6 (amended) at 29 frames, 25 frames per second and an interval of 2
    seconds. *)
Lemma one_attempt_when_interval_exceeds_duration_witness :
  exists tr',
    outcome_trace
      (extract_frames_by_interval (studio (clip 25 29 (fun _ _ => true))) 5
         "a.mp4" "out" 2 [])
    = Some ([] ++ tr') /\ seeks tr' = [0] /\ List.length (reads tr') = 1%nat.
Proof.
  apply (one_attempt_when_interval_exceeds_duration
           (studio (clip 25 29 (fun _ _ => true))) 5 "a.mp4" "out" 2 []
           (clip 25 29 (fun _ _ => true)) 29 (29 / 25)%float);
    try reflexivity; lia.
Defined.

(** C3: on a time that is not negative (and below [2 ^ 53] seconds),
    [format_time] returns [HHhMMmSSsMMMms]: the hours, minutes and seconds
    of the whole seconds, and the milliseconds that are the truncation of
    the fraction times 1000; each field is written with zeros on the left up
    to 2, 2, 2 and 3 digits. In particular the two values of the spec, and
    a time just below one minute that is truncated, not rounded. *)
Theorem format_time_truncates :
  (format_time 0 = Ok "00h00m00s000ms"%string /\
   format_time 3661.5 = Ok "01h01m01s500ms"%string /\
   format_time 59.99951171875 = Ok "00h00m59s999ms"%string) /\
  (forall w z, 0 <= z ->
     format_0d w z
     = (zeros (w - String.length (digits_of z)) ++ digits_of z)%string) /\
  (forall t,
     F64.finiteb t = true -> 0 <= F64.units t < 2 ^ 53 * 2 ^ 1074 ->
     exists frac ms,
       F64.finiteb frac = true /\
       F64.units frac = F64.units t mod 2 ^ 1074 /\
       py_int (frac * 1000) = Ok ms /\ 0 <= ms /\
       format_time t
       = Ok (timestamp (whole_seconds t / 3600) (whole_seconds t mod 3600 / 60)
               (whole_seconds t mod 60) ms)).
Proof.
  split; [|split].
  - repeat split; vm_compute; reflexivity.
  - intros w z Hz. unfold format_0d.
    destruct (Z.ltb_spec z 0) as [Hlt|_]; [lia|].
    rewrite Z.abs_eq by exact Hz. cbn [String.length append].
    rewrite Nat.sub_0_r. reflexivity.
  - intros t Ft Ut. apply FormatFacts.format_time_value; assumption.
Qed.

(** C3 at one hour, one minute, one second and a half. *)
Lemma format_time_truncates_witness :
  exists frac ms,
    F64.finiteb frac = true /\
    F64.units frac = F64.units 3661.5 mod 2 ^ 1074 /\
    py_int (frac * 1000) = Ok ms /\ 0 <= ms /\
    format_time 3661.5
    = Ok (timestamp (whole_seconds 3661.5 / 3600) (whole_seconds 3661.5 mod 3600 / 60)
            (whole_seconds 3661.5 mod 60) ms).
Proof.
  apply (proj2 (proj2 format_time_truncates) 3661.5%float).
  - reflexivity.
  - vm_compute. split; [discriminate | reflexivity].
Defined.

(** C1, as stated, fails: 231 frames at 30 frames per second last 7.7
    seconds; at an interval of 0.7 seconds the formula gives
    [floor (7.7 / 0.7) + 1 = 12], no read fails and no frame index reaches
    231 (at 11 * 0.7 it would be 230); but the eleven sums of 0.7 give
    7.700000000000001, above 7.7, so the loop leaves by its condition after
    11 reads. *)
Lemma attempts_by_formula_fails : ~ attempts_by_formula.
Proof.
  intro H.
  specialize (H (studio (clip 30 231 (fun _ _ => true))) 20%nat
                "a.mp4"%string "out"%string (7 / 10)%float []
                (clip 30 231 (fun _ _ => true)) 231 (231 / 30)%float).
  match type of H with
  | forall tr', _ -> _ -> _ -> _ -> _ -> _ -> _ -> _ -> _ -> _ -> ?o = _ -> _ =>
      let o' := eval vm_compute in o in
      match o' with
      | Done ?tr1 tt =>
          specialize (H tr1 eq_refl eq_refl eq_refl eq_refl eq_refl)
      end
  end.
  assert (H' := H ltac:(lia) eq_refl eq_refl eq_refl ltac:(vm_compute; reflexivity)
                  ltac:(vm_compute; reflexivity)).
  vm_compute in H'. discriminate.
Qed.

(** C1 (amended) at 900 frames, 30 frames per second and the default
    interval of 10 seconds: the instants 0, 10 and 20 are sampled, and the
    instant 30 leaves by the end-of-stream test. *)
Lemma attempts_when_instants_exact_witness :
  let cap := clip 30 900 (fun _ _ => true) in
  let N := Z.to_nat (F64.units 30 / F64.units 10) in
  let K := first_past (target 10 30) 900 (S N) 0 in
  let saved := successes cap 10 30 0 K in
  extract_frames_by_interval (studio cap) 10 "a.mp4" "out" 10 []
  = Done ([] ++ prologue_events "a.mp4" "out" 30 900 30 10
             ++ iterations_events (studio cap) cap "a.mp4" "out" 10 30 0 K
             ++ epilogue_events "a.mp4" (Z.of_nat saved)) tt /\
  seeks (iterations_events (studio cap) cap "a.mp4" "out" 10 30 0 K)
  = map (target 10 30) (seq 0 K) /\
  Z.of_nat saved = Z.of_nat (S N) - Z.of_nat (failures cap 10 30 0 K) - Z.of_nat (S N - K).
Proof.
  intro cap.
  apply (attempts_when_instants_exact (studio cap) 10 "a.mp4" "out" 10 [] cap 900 30);
    try reflexivity; try lia.
  - intros k Hk.
    do 5 (destruct k as [|k]; [vm_compute; split; reflexivity|]).
    exfalso. vm_compute in Hk. lia.
  - intros k Hk.
    do 4 (destruct k as [|k]; [eexists; vm_compute; reflexivity|]).
    exfalso. vm_compute in Hk. lia.
  - intros path n. exists true. reflexivity.
  - vm_compute. lia.
Defined.

(** C2, as stated, fails: 26 frames at 25 frames per second, sampled every
    millisecond.  The sums of 0.001 reach 1.006 and 1.007 at the reads 1006
    and 1007; the milliseconds of 1.007 are computed as
    [int ((1.007 - 1) * 1000) = int 6.99...], which is 6, so both frames are
    written to [out/a.mp4_00h00m01s006ms.jpg]. *)
Lemma filenames_never_repeat_fails : ~ filenames_never_repeat.
Proof.
  intro H.
  enough (exists tr1,
            outcome_trace
              (extract_frames_by_interval (studio (clip 25 26 (fun _ _ => true)))
                 1100 "a.mp4" "out" (1 / 1000)%float []) = Some tr1 /\
            ~ NoDup (written_paths tr1)) as [tr1 [E N]].
  { apply N, (H (studio (clip 25 26 (fun _ _ => true))) 1100%nat
                "a.mp4"%string "out"%string (1 / 1000)%float tr1 eq_refl eq_refl E). }
  apply (NameFacts.repeated_name _ 1006 1007); [discriminate|].
  vm_compute. reflexivity.
Qed.

(** C2 (amended) at 900 frames, 30 frames per second and the default
    interval of 10 seconds. *)
Lemma filenames_increase_from_one_second_witness :
  let cap := clip 30 900 (fun _ _ => true) in
  exists tr' secs,
    outcome_trace (extract_frames_by_interval (studio cap) 40 "a.mp4" "out" 10 [])
    = Some ([] ++ tr') /\
    Forall2 (stamped "out" "a.mp4") (written_paths tr') secs /\
    StronglySorted Z.lt secs /\
    NoDup (written_paths tr').
Proof.
  intro cap.
  apply (filenames_increase_from_one_second (studio cap) 40 "a.mp4" "out" 10 [] cap
           900 30); try reflexivity.
  - apply Z.leb_le. vm_compute. reflexivity.
  - apply Nat.leb_le. vm_compute. reflexivity.
Defined.

(** * Further properties of the sampler *)

Section SamplerEdges.

Variable w : world.

(** X1: when a call that reached the loop returns, its trace is the lines
    of the video information and the creation of the folder, the
    iterations, then the summary and the release; every frame whose read
    succeeded was handed to [cv2.imwrite] once, in order, and the summary
    reports their number. *)
Theorem summary_reports_frames_read :
  forall fuel video_path output_folder_path interval tr cap total_frames duration_sec,
    w_is_file w video_path = true ->
    w_open w video_path = Some cap ->
    py_int (v_frame_count cap) = Ok total_frames ->
    duration_of total_frames (v_fps cap) = Ok duration_sec ->
    (v_fps cap =? 0)%float = false ->
    w_mkdir w output_folder_path = None ->
    match extract_frames_by_interval w fuel video_path output_folder_path interval tr with
    | Done tr1 _ =>
        exists tr',
          tr1 = tr ++ prologue_events video_path output_folder_path (v_fps cap)
                        total_frames duration_sec interval
                   ++ tr'
                   ++ [EvLog INFO MsgDone;
                       EvLog INFO (MsgSummary (Z.of_nat (List.length (frames_read tr'))));
                       EvRelease video_path] /\
          written_frames tr' = frames_read tr' /\
          summaries tr' = []
    | _ => True
    end.
Proof.
  intros fuel video_path output_folder_path interval tr cap total_frames duration_sec
         Hf Ho Hn Hd Hz Hm.
  pose proof (extract_discipline w fuel video_path output_folder_path interval tr cap
                total_frames duration_sec Hf Ho Hn Hd Hz Hm) as D.
  destruct (extract_frames_by_interval w fuel video_path output_folder_path
              interval tr) as [tr1 []|tr1 e|]; try exact I.
  destruct D as [tr' [-> [_ [_ [_ [Hwf [_ Hs]]]]]]].
  exists tr'. rewrite <- Hwf, <- written_count.
  split; [reflexivity|]. split; [reflexivity | exact Hs].
Qed.

(** X2: in every call, whatever its outcome, each frame index handed to
    [cap.set] is below [total_frames], and each seek is followed by exactly
    one read, of the same index. *)
Theorem seeks_stay_below_frame_count :
  forall fuel video_path output_folder_path interval tr cap total_frames,
    w_open w video_path = Some cap ->
    py_int (v_frame_count cap) = Ok total_frames ->
    match extract_frames_by_interval w fuel video_path output_folder_path interval tr with
    | Done tr1 _ | Exn tr1 _ =>
        exists tr', tr1 = tr ++ tr' /\
          Forall (fun n => n < total_frames) (seeks tr') /\
          map fst (reads tr') = seeks tr'
    | Timeout => True
    end.
Proof.
  intros fuel video_path output_folder_path interval tr cap total_frames Ho Hn.
  destruct (extract_shape w fuel video_path output_folder_path interval tr)
    as [[tr0 [E [Hs [Hr _]]]] | [cap' [total' [d [Hf [Ho' [Hn' [Hd [Hz Hm]]]]]]]]].
  - destruct (extract_frames_by_interval w fuel video_path output_folder_path
                interval tr) as [tr1 []|tr1 e|]; try exact I;
      cbn [outcome_trace] in E; injection E as ->; exists tr0;
      rewrite Hs, Hr; repeat split; constructor.
  - assert (cap' = cap) by congruence. subst cap'.
    assert (total' = total_frames) by congruence. subst total'.
    pose proof (extract_discipline w fuel video_path output_folder_path interval tr cap
                  total_frames d Hf Ho Hn Hd Hz Hm) as D.
    destruct (extract_frames_by_interval w fuel video_path output_folder_path
                interval tr) as [tr1 []|tr1 e|]; try exact I.
    + destruct D as [tr' [-> [Hs [Hrd _]]]]. eexists. split; [reflexivity|].
      rewrite !seeks_app, !reads_app.
      change (seeks (prologue_events _ _ _ _ _ _)) with (@nil Z).
      change (reads (prologue_events _ _ _ _ _ _)) with (@nil (Z * bool)).
      change (seeks (epilogue_events _ _)) with (@nil Z).
      change (reads (epilogue_events _ _)) with (@nil (Z * bool)).
      rewrite !app_nil_r. cbn [Datatypes.app]. split; assumption.
    + destruct D as [tr' [rest [-> [Hs [Hrd _]]]]]. eexists. split; [reflexivity|].
      rewrite !seeks_app, !reads_app.
      change (seeks (prologue_events _ _ _ _ _ _)) with (@nil Z).
      change (reads (prologue_events _ _ _ _ _ _)) with (@nil (Z * bool)).
      cbn [Datatypes.app]. split; assumption.
Qed.

(** X3: with [interval = 0] the call does not end: on a video with a frame
    and a positive frame rate, with an encoder that does not raise,
    [current_time_sec] stays at 0.0, frame 0 is sought again at every
    iteration, and no number of iterations reaches a return or an
    exception. *)
Theorem zero_interval_never_ends :
  forall fuel video_path output_folder_path tr cap total_frames duration_sec,
    w_is_file w video_path = true ->
    w_open w video_path = Some cap ->
    F64.finiteb (v_fps cap) = true -> (0 <? v_fps cap)%float = true ->
    py_int (v_frame_count cap) = Ok total_frames -> 0 < total_frames ->
    duration_of total_frames (v_fps cap) = Ok duration_sec ->
    (forall path n, exists b, w_imwrite w path n = Ok b) ->
    w_mkdir w output_folder_path = None ->
    extract_frames_by_interval w fuel video_path output_folder_path 0 tr = Timeout.
Proof.
  intros fuel video_path output_folder_path tr cap total_frames duration_sec
         Hf Ho Ff Hp Hn Ht Hd Hw Hm.
  destruct (PyNumFacts.duration_nonneg _ _ _ Hn (Z.lt_le_incl _ _ Ht) Ff Hp)
    as [d [Hd' Nd]].
  assert (d = duration_sec) by congruence. subst d.
  assert (Hz : (v_fps cap =? 0)%float = false).
  { destruct (PyNumFacts.positive_float _ Ff Hp) as [m [e H]].
    rewrite eqb_spec, H. reflexivity. }
  rewrite (extract_unfold w fuel video_path output_folder_path 0 tr cap
             total_frames duration_sec Hf Ho Hn Hd Hz Hm).
  rewrite (loop_zero_interval w cap video_path output_folder_path (v_fps cap)
             total_frames duration_sec fuel
             (PyNumFacts.leb_zero_nonneg _ Nd)
             (PyNumFacts.math_floor_zero_mul _ Ff Hp) Ht Hw).
  reflexivity.
Qed.

(** X4: a video that reports no frame (a frame count of 0, or below) and a
    frame rate that is a number other than 0: the folder is created, no
    frame is sought, read or written, the summary reports 0 and the video
    is released. *)
Theorem no_frames_no_attempt :
  forall fuel video_path output_folder_path interval tr cap total_frames duration_sec,
    w_is_file w video_path = true ->
    w_open w video_path = Some cap ->
    F64.finiteb (v_fps cap) = true -> (v_fps cap =? 0)%float = false ->
    py_int (v_frame_count cap) = Ok total_frames -> total_frames <= 0 ->
    duration_of total_frames (v_fps cap) = Ok duration_sec ->
    w_mkdir w output_folder_path = None ->
    (1 <= fuel)%nat ->
    extract_frames_by_interval w fuel video_path output_folder_path interval tr
    = Done (tr ++ prologue_events video_path output_folder_path (v_fps cap)
                    total_frames duration_sec interval
               ++ epilogue_events video_path 0) tt.
Proof.
  intros fuel video_path output_folder_path interval tr cap total_frames duration_sec
         Hf Ho Ff Hz Hn Ht Hd Hm Hfuel.
  rewrite (extract_unfold w fuel video_path output_folder_path interval tr cap
             total_frames duration_sec Hf Ho Hn Hd Hz Hm).
  destruct fuel as [|fuel]; [lia|].
  rewrite loop_no_frames by assumption.
  rewrite <- app_assoc. reflexivity.
Qed.

(** X5: a frame rate below 0 passes the check of line 74, which rejects 0
    only: the duration is taken as 0 and, for a positive interval, exactly
    one frame is sought and read, frame 0. *)
Theorem negative_frame_rate_is_sampled :
  forall fuel video_path output_folder_path interval tr cap total_frames,
    w_is_file w video_path = true ->
    w_open w video_path = Some cap ->
    F64.finiteb (v_fps cap) = true -> (v_fps cap <? 0)%float = true ->
    py_int (v_frame_count cap) = Ok total_frames -> 0 < total_frames ->
    (0 <? interval)%float = true ->
    w_mkdir w output_folder_path = None ->
    (2 <= fuel)%nat ->
    duration_of total_frames (v_fps cap) = Ok 0%float /\
    exists tr',
      outcome_trace
        (extract_frames_by_interval w fuel video_path output_folder_path interval tr)
      = Some (tr ++ tr') /\
      mkdirs tr' = [output_folder_path] /\
      seeks tr' = [0] /\ reads tr' = [(0, v_read cap 0 0)].
Proof.
  intros fuel video_path output_folder_path interval tr cap total_frames
         Hf Ho Ff Hneg Hn Ht Hi Hm Hfuel.
  destruct (negative_float (v_fps cap) Hneg) as [Hp Hz].
  assert (Hd : duration_of total_frames (v_fps cap) = Ok 0%float).
  { unfold duration_of. rewrite Hp. reflexivity. }
  split; [exact Hd|].
  rewrite (extract_unfold w fuel video_path output_folder_path interval tr cap
             total_frames 0%float Hf Ho Hn Hd Hz Hm).
  destruct fuel as [|[|fuel]]; try lia.
  destruct (loop_single w cap video_path output_folder_path interval (v_fps cap)
              total_frames 0%float fuel
              (tr ++ prologue_events video_path output_folder_path (v_fps cap)
                       total_frames 0%float interval)
              eq_refl (math_floor_zero_mul_finite (v_fps cap) Ff) Ht
              (PyNumFacts.past_duration 0%float interval eq_refl Hi))
    as [tr' [E [Hmk [Hs Hr]]]].
  destruct (sampling_loop _ _ _ _ _ _ _ _ _ _ _ _ _) as [tr1 saved|tr1 e|];
    cbn [outcome_trace] in E |- *; [| |discriminate]; injection E as ->;
    eexists; rewrite <- !app_assoc; (split; [reflexivity|]);
    rewrite !mkdirs_app, !seeks_app, !reads_app, Hmk, Hs, Hr;
    repeat split.
Qed.

(** X6: a video that passes the checks and whose reads all fail: the
    output folder is created all the same, nothing is handed to
    [cv2.imwrite], and a call that returns reports 0 saved frames. *)
Theorem unreadable_video_writes_nothing :
  forall fuel video_path output_folder_path interval tr cap total_frames duration_sec,
    w_is_file w video_path = true ->
    w_open w video_path = Some cap ->
    py_int (v_frame_count cap) = Ok total_frames ->
    duration_of total_frames (v_fps cap) = Ok duration_sec ->
    (v_fps cap =? 0)%float = false ->
    w_mkdir w output_folder_path = None ->
    (forall k n, v_read cap k n = false) ->
    match extract_frames_by_interval w fuel video_path output_folder_path interval tr with
    | Done tr1 _ =>
        exists tr', tr1 = tr ++ tr' /\ mkdirs tr' = [output_folder_path] /\
                    written_paths tr' = [] /\ summaries tr' = [0]
    | Exn tr1 _ =>
        exists tr', tr1 = tr ++ tr' /\ mkdirs tr' = [output_folder_path] /\
                    written_paths tr' = []
    | Timeout => True
    end.
Proof.
  intros fuel video_path output_folder_path interval tr cap total_frames duration_sec
         Hf Ho Hn Hd Hz Hm Hu.
  pose proof (extract_discipline w fuel video_path output_folder_path interval tr cap
                total_frames duration_sec Hf Ho Hn Hd Hz Hm) as D.
  destruct (extract_frames_by_interval w fuel video_path output_folder_path
              interval tr) as [tr1 []|tr1 e|]; try exact I.
  - destruct D as [tr' [-> [_ [_ [Hfl [Hwf [[_ [Hmk _]] Hs]]]]]]].
    rewrite (frames_read_unreadable cap tr' Hu Hfl) in Hwf.
    assert (Hw : written_paths tr' = []).
    { apply length_zero_iff_nil. rewrite written_count, Hwf. reflexivity. }
    eexists. split; [reflexivity|].
    rewrite !mkdirs_app, !written_paths_app, !summaries_app, Hmk, Hw, Hs.
    repeat split.
  - destruct D as [tr' [rest [-> [_ [_ [Hfl [Hwf [_ [[_ [Hmk _]] _]]]]]]]]].
    rewrite (frames_read_unreadable cap tr' Hu Hfl) in Hwf.
    symmetry in Hwf. apply app_eq_nil in Hwf. destruct Hwf as [Hwf _].
    assert (Hw : written_paths tr' = []).
    { apply length_zero_iff_nil. rewrite written_count, Hwf. reflexivity. }
    eexists. split; [reflexivity|].
    rewrite !mkdirs_app, !written_paths_app, Hmk, Hw.
    repeat split.
Qed.


(** X12: for every interval that is not negative (with [D + interval]
    below [2 ^ 53] seconds), the names written by a call never go back in
    time: the whole seconds encoded by their hours, minutes and seconds do
    not decrease from one written file to the next. *)
Theorem seconds_of_filenames_never_decrease :
  forall fuel video_path output_folder_path interval tr cap total_frames duration_sec,
    w_open w video_path = Some cap ->
    py_int (v_frame_count cap) = Ok total_frames ->
    duration_of total_frames (v_fps cap) = Ok duration_sec ->
    F64.finiteb duration_sec = true ->
    F64.finiteb interval = true ->
    0 <= F64.units interval ->
    F64.units duration_sec + F64.units interval < 2 ^ 53 * 2 ^ 1074 ->
    match extract_frames_by_interval w fuel video_path output_folder_path interval tr with
    | Done tr1 _ | Exn tr1 _ =>
        exists tr' secs, tr1 = tr ++ tr' /\
          Forall2 (stamped output_folder_path video_path) (written_paths tr') secs /\
          StronglySorted Z.le secs
    | Timeout => True
    end.
Proof.
  intros fuel video_path output_folder_path interval tr cap total_frames duration_sec
         Ho Hn Hd Fd Fi Ui Hb.
  destruct (extract_shape w fuel video_path output_folder_path interval tr)
    as [[tr0 [E [_ [_ [Hw _]]]]] | [cap' [total' [d [Hf [Ho' [Hn' [Hd' [Hz Hm]]]]]]]]].
  - destruct (extract_frames_by_interval w fuel video_path output_folder_path
                interval tr) as [tr1 []|tr1 e|]; try exact I;
      cbn [outcome_trace] in E; injection E as ->; exists tr0, [];
      rewrite Hw; (split; [reflexivity|]); split; constructor.
  - assert (cap' = cap) by congruence. subst cap'.
    assert (total' = total_frames) by congruence. subst total'.
    assert (d = duration_sec) by congruence. subst d.
    rewrite (extract_unfold w fuel video_path output_folder_path interval tr cap
               total_frames duration_sec Hf Ho Hn Hd Hz Hm).
    pose proof (loop_seconds_sorted w cap video_path output_folder_path interval
                  (v_fps cap) total_frames duration_sec Fi Ui Fd Hb fuel
                  0%nat 0%float 0
                  (tr ++ prologue_events video_path output_folder_path (v_fps cap)
                           total_frames duration_sec interval)
                  eq_refl ltac:(reflexivity)) as L.
    destruct (sampling_loop _ _ _ _ _ _ _ _ _ _ _ _ _) as [tr1 saved|tr1 e|];
      try exact I; destruct L as [tr' [secs [-> [S2 [St _]]]]];
      eexists; exists secs; rewrite <- !app_assoc;
      (split; [reflexivity|]); rewrite !written_paths_app;
      change (written_paths (prologue_events _ _ _ _ _ _)) with (@nil string);
      try change (written_paths (epilogue_events _ _)) with (@nil string);
      rewrite ?app_nil_r; cbn [Datatypes.app]; (split; [exact S2 | exact St]).
Qed.

End SamplerEdges.

(** ** The duration of line 71 *)

(** X13: line 71 never raises: the guard [fps > 0] keeps the division away
    from a frame rate of 0, and a frame count that [int] accepted converts
    back to a float; when the frame rate is not above 0 (0, negative or
    [nan]) the duration is 0. *)
Theorem duration_never_raises :
  forall frame_count total_frames fps,
    py_int frame_count = Ok total_frames ->
    exists duration_sec,
      duration_of total_frames fps = Ok duration_sec /\
      ((0 <? fps)%float = false -> duration_sec = 0%float) /\
      ((0 <? fps)%float = true -> duration_sec = (Z2float total_frames / fps)%float).
Proof.
  intros frame_count total_frames fps Hn.
  destruct (PyNumFacts.Z2float_units total_frames
              (PyNumFacts.py_int_representable frame_count total_frames Hn))
    as [_ [_ Hf]].
  unfold duration_of. rewrite Hf. cbn [bind].
  destruct (0 <? fps)%float; eexists; (split; [reflexivity|]);
    split; intro H; try discriminate; reflexivity.
Qed.

(** ** Further properties of [format_time] *)

(** X7: [format_time] raises [ValueError] on [nan] and on the infinities:
    the floor division by 3600 gives [nan], which [int] refuses. *)
Theorem format_time_rejects_non_finite :
  forall t, F64.finiteb t = false -> format_time t = Raise ValueError.
Proof.
  intros t H. destruct (not_finite_cases t H) as [->|[->| ->]];
    vm_compute; reflexivity.
Qed.

(** X8: on times from 0 (below [2 ^ 53] seconds), the text of
    [format_time] tells the whole second: two times in different seconds
    never get the same text. *)
Theorem format_time_separates_seconds :
  forall t t',
    F64.finiteb t = true -> 0 <= F64.units t < 2 ^ 53 * 2 ^ 1074 ->
    F64.finiteb t' = true -> 0 <= F64.units t' < 2 ^ 53 * 2 ^ 1074 ->
    whole_seconds t <> whole_seconds t' ->
    format_time t <> format_time t'.
Proof.
  intros t t' Ft Ut Ft' Ut' Hne E. apply Hne. clear Hne.
  destruct (FormatFacts.format_time_value t Ft Ut) as [fr [ms [_ [_ [_ [_ H]]]]]].
  destruct (FormatFacts.format_time_value t' Ft' Ut') as [fr' [ms' [_ [_ [_ [_ H']]]]]].
  rewrite H, H' in E. injection E as E.
  assert (P : 0 < 2 ^ 1074) by (apply Z.pow_pos_nonneg; lia).
  assert (W : 0 <= whole_seconds t) by (apply Z.div_pos; lia).
  assert (W' : 0 <= whole_seconds t') by (apply Z.div_pos; lia).
  rewrite <- (append_nil_r (timestamp _ _ _ ms)) in E.
  rewrite <- (append_nil_r (timestamp _ _ _ ms')) in E.
  apply NameFacts.timestamp_inj in E;
    try (apply Z.div_pos; lia); try (apply Z.mod_pos_bound; lia);
    try (apply Z.div_pos; [apply Z.mod_pos_bound|]; lia).
  destruct E as [Eh [Em Es]].
  Z.div_mod_to_equations. lia.
Qed.

(** X9: a whole number [n] of seconds (from 0, below [2 ^ 53]) is written
    with the hours [n / 3600], the minutes [n mod 3600 / 60], the seconds
    [n mod 60] and [000ms]. *)
Theorem format_time_whole_seconds :
  forall n, 0 <= n < 2 ^ 53 ->
    format_time (Z2float n)
    = Ok (timestamp (n / 3600) (n mod 3600 / 60) (n mod 60) 0).
Proof.
  intros n Hn.
  destruct (PyNumFacts.Z2float_units n (F64DivFacts.representable_int n Hn))
    as [F [U _]].
  apply format_time_of_seconds; assumption.
Qed.

(** X10: with an interval of a whole number [n] of seconds, such as the
    default 10, [current_time_sec] accumulates without rounding: at the
    [k]-th test of the loop it is exactly [k * n] seconds (while this is
    below [2 ^ 53]), and a frame read there is named with the timestamp of
    [k * n] seconds and [000ms]. *)
Theorem whole_second_instants_are_exact :
  forall n k, 0 <= n -> Z.of_nat k * n < 2 ^ 53 ->
    F64.finiteb (instant (Z2float n) k) = true /\
    F64.units (instant (Z2float n) k) = Z.of_nat k * n * 2 ^ 1074 /\
    format_time (instant (Z2float n) k)
    = Ok (timestamp (Z.of_nat k * n / 3600) (Z.of_nat k * n mod 3600 / 60)
            (Z.of_nat k * n mod 60) 0).
Proof.
  intros n k Hn Hk. destruct (instant_of_seconds n k Hn Hk) as [F U].
  split; [exact F|]. split; [exact U|].
  apply format_time_of_seconds; [exact F | exact U | lia].
Qed.

(** ** The further properties on sample runs *)

(** X1 at 90 frames, 30 frames per second and an interval of a second. *)
Lemma summary_reports_frames_read_witness :
  let cap := clip 30 90 (fun _ _ => true) in
  match extract_frames_by_interval (studio cap) 10 "a.mp4" "out" 1 [] with
  | Done tr1 _ =>
      exists tr',
        tr1 = [] ++ prologue_events "a.mp4" "out" 30 90 3 1
                 ++ tr'
                 ++ [EvLog INFO MsgDone;
                     EvLog INFO (MsgSummary (Z.of_nat (List.length (frames_read tr'))));
                     EvRelease "a.mp4"] /\
        written_frames tr' = frames_read tr' /\
        summaries tr' = []
  | _ => True
  end.
Proof.
  intro cap.
  apply (summary_reports_frames_read (studio cap) 10 "a.mp4" "out" 1 [] cap 90 3);
    reflexivity.
Defined.

(** X2 on the same run. *)
Lemma seeks_stay_below_frame_count_witness :
  let cap := clip 30 90 (fun _ _ => true) in
  match extract_frames_by_interval (studio cap) 10 "a.mp4" "out" 1 [] with
  | Done tr1 _ | Exn tr1 _ =>
      exists tr', tr1 = [] ++ tr' /\
        Forall (fun n => n < 90) (seeks tr') /\
        map fst (reads tr') = seeks tr'
  | Timeout => True
  end.
Proof.
  intro cap.
  apply (seeks_stay_below_frame_count (studio cap) 10 "a.mp4" "out" 1 [] cap 90);
    reflexivity.
Defined.

(** X3 on the same video, after 25 iterations. *)
Lemma zero_interval_never_ends_witness :
  extract_frames_by_interval (studio (clip 30 90 (fun _ _ => true))) 25
    "a.mp4" "out" 0 []
  = Timeout.
Proof.
  apply (zero_interval_never_ends (studio (clip 30 90 (fun _ _ => true))) 25
           "a.mp4" "out" [] (clip 30 90 (fun _ _ => true)) 90 3);
    try reflexivity.
  intros path n. exists true. reflexivity.
Defined.

(** X4 at a video of 30 frames per second that reports no frame. *)
Lemma no_frames_no_attempt_witness :
  extract_frames_by_interval (studio (clip 30 0 (fun _ _ => true))) 5
    "a.mp4" "out" 10 []
  = Done ([] ++ prologue_events "a.mp4" "out" 30 0 0 10
             ++ epilogue_events "a.mp4" 0) tt.
Proof.
  apply (no_frames_no_attempt (studio (clip 30 0 (fun _ _ => true))) 5
           "a.mp4" "out" 10 [] (clip 30 0 (fun _ _ => true)) 0 0);
    try reflexivity; lia.
Defined.

(** X5 at a frame rate of -30. *)
Lemma negative_frame_rate_is_sampled_witness :
  let cap := clip (-30) 90 (fun _ _ => true) in
  duration_of 90 (-30) = Ok 0%float /\
  exists tr',
    outcome_trace (extract_frames_by_interval (studio cap) 5 "a.mp4" "out" 10 [])
    = Some ([] ++ tr') /\
    mkdirs tr' = ["out"%string] /\
    seeks tr' = [0] /\ reads tr' = [(0, true)].
Proof.
  intro cap.
  apply (negative_frame_rate_is_sampled (studio cap) 5 "a.mp4" "out" 10 [] cap 90);
    try reflexivity; lia.
Defined.

(** X6 at a video none of whose frames can be read. *)
Lemma unreadable_video_writes_nothing_witness :
  let cap := clip 30 90 (fun _ _ => false) in
  match extract_frames_by_interval (studio cap) 10 "a.mp4" "out" 1 [] with
  | Done tr1 _ =>
      exists tr', tr1 = [] ++ tr' /\ mkdirs tr' = ["out"%string] /\
                  written_paths tr' = [] /\ summaries tr' = [0]
  | Exn tr1 _ =>
      exists tr', tr1 = [] ++ tr' /\ mkdirs tr' = ["out"%string] /\
                  written_paths tr' = []
  | Timeout => True
  end.
Proof.
  intro cap.
  apply (unreadable_video_writes_nothing (studio cap) 10 "a.mp4" "out" 1 [] cap 90 3);
    reflexivity.
Defined.

(** X7 at the positive infinity. *)
Lemma format_time_rejects_non_finite_witness :
  format_time infinity = Raise ValueError.
Proof.
  apply (format_time_rejects_non_finite infinity). reflexivity.
Defined.

(** X8 at a time just below a minute and at the minute. *)
Lemma format_time_separates_seconds_witness :
  format_time 59.99951171875 <> format_time 60.
Proof.
  apply (format_time_separates_seconds 59.99951171875 60).
  - reflexivity.
  - vm_compute. split; [discriminate | reflexivity].
  - reflexivity.
  - vm_compute. split; [discriminate | reflexivity].
  - vm_compute. discriminate.
Defined.

(** X9 at one hour, one minute and one second. *)
Lemma format_time_whole_seconds_witness :
  format_time (Z2float 3661)
  = Ok (timestamp (3661 / 3600) (3661 mod 3600 / 60) (3661 mod 60) 0).
Proof.
  apply (format_time_whole_seconds 3661). lia.
Defined.

(** X10 at the default interval, for the seventh test of the loop. *)
Lemma whole_second_instants_are_exact_witness :
  F64.finiteb (instant (Z2float 10) 6) = true /\
  F64.units (instant (Z2float 10) 6) = Z.of_nat 6 * 10 * 2 ^ 1074 /\
  format_time (instant (Z2float 10) 6)
  = Ok (timestamp (Z.of_nat 6 * 10 / 3600) (Z.of_nat 6 * 10 mod 3600 / 60)
          (Z.of_nat 6 * 10 mod 60) 0).
Proof.
  apply (whole_second_instants_are_exact 10 6); [lia|].
  apply Z.ltb_lt. vm_compute. reflexivity.
Defined.

(** X12 at an interval of half a second. *)
Lemma seconds_of_filenames_never_decrease_witness :
  let cap := clip 30 90 (fun _ _ => true) in
  match extract_frames_by_interval (studio cap) 10 "a.mp4" "out" 0.5 [] with
  | Done tr1 _ | Exn tr1 _ =>
      exists tr' secs, tr1 = [] ++ tr' /\
        Forall2 (stamped "out" "a.mp4") (written_paths tr') secs /\
        StronglySorted Z.le secs
  | Timeout => True
  end.
Proof.
  intro cap.
  apply (seconds_of_filenames_never_decrease (studio cap) 10 "a.mp4" "out" 0.5 []
           cap 90 3); try reflexivity.
  apply Z.leb_le. vm_compute. reflexivity.
Defined.

(** X13 at 900 frames and a frame rate that reads as [nan]. *)
Lemma duration_never_raises_witness :
  exists duration_sec,
    duration_of 900 nan = Ok duration_sec /\
    ((0 <? nan)%float = false -> duration_sec = 0%float) /\
    ((0 <? nan)%float = true -> duration_sec = (Z2float 900 / nan)%float).
Proof.
  apply (duration_never_raises 900 900 nan). reflexivity.
Defined.
